(** * financial_summary.py: a shallow embedding and its specification

    The program fetches a company page, scrapes two tokens out of it with
    regular expressions, calls a data endpoint with them, parses the HTML
    answer into tables, keys the second table by its metric-name column,
    and merges the annual and the quarterly view of six metrics.

    Layout: the Python values the program handles ([PyStr]), the regular
    expressions of [GetNvrEncparam] ([Re]), the pandas frames of
    [GetNvrFin] and [main] ([Pandas]), the program itself over an
    environment (network, HTML parser) with an event trace, then the
    theorems. *)

From Stdlib Require Import String Ascii DecimalString.
From Stdlib Require Import List NArith ZArith Bool Lia Permutation.
Import ListNotations.

Set Implicit Arguments.

(* ===================================================================== *)
(** ** Python [str]: sequences of Unicode code points *)
(* ===================================================================== *)

Module PyStr.

(** A Python [str] is a sequence of code points, not of bytes: [re] and
    [str.strip] work per code point. *)
Definition char := N.
Definition str := list char.

Local Open Scope N_scope.

(** Source literals are written as UTF-8 text and decoded once. *)
Fixpoint utf8_decode (bs : list N) : str :=
  match bs with
  | [] => []
  | b0 :: r0 =>
    if b0 <? 0x80 then b0 :: utf8_decode r0
    else if b0 <? 0xE0 then
      match r0 with
      | b1 :: r1 => ((b0 mod 0x20) * 0x40 + b1 mod 0x40) :: utf8_decode r1
      | [] => [b0]
      end
    else if b0 <? 0xF0 then
      match r0 with
      | b1 :: b2 :: r2 =>
        ((b0 mod 0x10) * 0x1000 + (b1 mod 0x40) * 0x40 + b2 mod 0x40)
          :: utf8_decode r2
      | _ => [b0]
      end
    else
      match r0 with
      | b1 :: b2 :: b3 :: r3 =>
        ((b0 mod 0x08) * 0x40000 + (b1 mod 0x40) * 0x1000
         + (b2 mod 0x40) * 0x40 + b3 mod 0x40) :: utf8_decode r3
      | _ => [b0]
      end
  end.

Definition lit (s : string) : str :=
  utf8_decode (map N_of_ascii (list_ascii_of_string s)).

Definition eqb (a b : str) : bool :=
  if list_eq_dec N.eq_dec a b then true else false.

(** [str.isspace] for one code point (the set CPython's
    [Py_UNICODE_ISSPACE] accepts); [str.strip()] removes exactly these. *)
Definition isspace (c : char) : bool :=
  ((0x09 <=? c) && (c <=? 0x0D)) || ((0x1C <=? c) && (c <=? 0x20))
  || (c =? 0x85) || (c =? 0xA0) || (c =? 0x1680)
  || ((0x2000 <=? c) && (c <=? 0x200A))
  || (c =? 0x2028) || (c =? 0x2029) || (c =? 0x202F) || (c =? 0x205F)
  || (c =? 0x3000).

Fixpoint lstrip (s : str) : str :=
  match s with
  | c :: s' => if isspace c then lstrip s' else s
  | [] => []
  end.

(** [s.strip()] *)
Definition strip (s : str) : str := rev (lstrip (rev (lstrip s))).

(** [s.startswith(p)] *)
Fixpoint startswith (p s : str) : bool :=
  match p, s with
  | [], _ => true
  | a :: p', b :: s' => (a =? b) && startswith p' s'
  | _ :: _, [] => false
  end.

(** [needle in hay] *)
Fixpoint contains (needle hay : str) : bool :=
  startswith needle hay
  || match hay with
     | [] => false
     | _ :: hay' => contains needle hay'
     end.

(** [str(n)] for a non-negative [int] *)
Definition of_nat (n : nat) : str :=
  lit (NilZero.string_of_uint (Nat.to_uint n)).

End PyStr.

Definition str := PyStr.str.
Definition py := PyStr.lit.

(** Exceptions are a class and a message; a call returns or raises. *)
Inductive exn :=
| ValueError (msg : str)
| KeyError (msg : str)
| SystemExit (status : Z)
| OtherError (cls : str) (msg : str).   (* raised by a library *)

Inductive result (A : Type) :=
| Ok (a : A)
| Raise (e : exn).
Arguments Ok {A} a.
Arguments Raise {A} e.

(* ===================================================================== *)
(** ** The [re] patterns of [GetNvrEncparam] *)
(* ===================================================================== *)

Module Re.

Import PyStr.
Local Open Scope N_scope.

(** What one pattern position accepts. *)
Inductive cset :=
| Lit (c : char)                     (* a literal character *)
| Any                                (* [.] without DOTALL *)
| Ranges (rs : list (char * char)).  (* [[a-bc-d]] *)

(** A pattern is a sequence of nodes; quantifiers apply to one position,
    which is all the two patterns of the program need. [Open] and [Close]
    are the parentheses of group 1. *)
Inductive node :=
| One (cs : cset)
| Plus (greedy : bool) (cs : cset)   (* [cs+] and [cs+?] *)
| Opt (cs : cset)                    (* [cs?] *)
| Open
| Close.

(** [re.IGNORECASE] on a [str] pattern compares lower-cased code points
    ([_sre.unicode_tolower]) and adds the case-fix equivalents of the
    pattern's characters. Both patterns hold ASCII characters only, so
    only the code points whose lower case is an ASCII letter matter:
    A-Z, U+0130 (to i) and U+212A (to k). *)
Definition tolower (c : char) : char :=
  if (0x41 <=? c) && (c <=? 0x5A) then c + 0x20
  else if c =? 0x130 then 0x69
  else if c =? 0x212A then 0x6B
  else c.

(** [re._casefix]: the other lower-case forms of i and s. *)
Definition casefix (c : char) : list char :=
  if c =? 0x69 then [0x131] else if c =? 0x73 then [0x17F] else [].

Definition in_range (c : char) (r : char * char) : bool :=
  (fst r <=? c) && (c <=? snd r).

(** Is [c] the lower case, or a case-fix equivalent of the lower case,
    of a code point between [lo] and [hi]? Decided over ASCII ranges. *)
Definition in_range_ci (c : char) (r : char * char) : bool :=
  existsb (fun x => (tolower x =? c) || existsb (N.eqb c) (casefix (tolower x)))
          (map (fun k => fst r + N.of_nat k)
               (seq 0 (N.to_nat (snd r + 1 - fst r)))).

Definition accepts (ignorecase : bool) (cs : cset) (c : char) : bool :=
  match cs with
  | Lit x =>
    if ignorecase
    then (tolower c =? tolower x) || existsb (N.eqb (tolower c)) (casefix (tolower x))
    else c =? x
  | Any => negb (c =? 0x0A)
  | Ranges rs =>
    if ignorecase then existsb (in_range_ci (tolower c)) rs
    else existsb (in_range c) rs
  end.

(** Matcher state: the text of group 1 while it is open (latest code
    point first) and once it is closed. *)
Record mstate := { cur : option str; grp : option str }.

Definition start_state : mstate := {| cur := None; grp := None |}.

Definition consume (c : char) (st : mstate) : mstate :=
  match cur st with
  | Some acc => {| cur := Some (c :: acc); grp := grp st |}
  | None => st
  end.

Definition orelse {A} (a b : option A) : option A :=
  match a with Some _ => a | None => b end.

(** The repetitions of [cs+] after the first: [cont] matches what
    follows the quantifier. Greedy takes another code point first and
    falls back to [cont]; lazy tries [cont] first. *)
Fixpoint more (accept : char -> bool) (greedy : bool)
         (cont : str -> mstate -> option (mstate * str))
         (s : str) (st : mstate) : option (mstate * str) :=
  match s with
  | c :: s' =>
    if greedy then
      if accept c
      then orelse (more accept greedy cont s' (consume c st)) (cont s st)
      else cont s st
    else
      orelse (cont s st)
             (if accept c then more accept greedy cont s' (consume c st) else None)
  | [] => cont s st
  end.

(** Backtracking match of [p] at the head of [s]: the state at the end
    and the text left over. *)
Fixpoint run (ic : bool) (p : list node) (s : str) (st : mstate)
  : option (mstate * str) :=
  match p with
  | [] => Some (st, s)
  | One cs :: p' =>
    match s with
    | c :: s' => if accepts ic cs c then run ic p' s' (consume c st) else None
    | [] => None
    end
  | Opt cs :: p' =>
    match s with
    | c :: s' =>
      if accepts ic cs c
      then orelse (run ic p' s' (consume c st)) (run ic p' s st)
      else run ic p' s st
    | [] => run ic p' s st
    end
  | Plus greedy cs :: p' =>
    match s with
    | c :: s' =>
      if accepts ic cs c
      then more (accepts ic cs) greedy (run ic p') s' (consume c st)
      else None
    | [] => None
    end
  | Open :: p' => run ic p' s {| cur := Some []; grp := grp st |}
  | Close :: p' =>
    run ic p' s {| cur := None; grp := option_map (@rev char) (cur st) |}
  end.

(** A match object: where the match starts and [m.group(1)] ([None] when
    the group took no part). *)
Record Match := { m_start : nat; group1 : option str }.

(** [pattern.search(s)]: the match at the leftmost position that has one. *)
Fixpoint search_from (ic : bool) (p : list node) (pos : nat) (s : str)
  : option Match :=
  match run ic p s start_state with
  | Some (st, _) => Some {| m_start := pos; group1 := grp st |}
  | None =>
    match s with
    | [] => None
    | _ :: s' => search_from ic p (S pos) s'
    end
  end.

Definition search (ic : bool) (p : list node) (s : str) : option Match :=
  search_from ic p 0 s.

Definition lits (s : str) : list node := map (fun c => One (Lit c)) s.

End Re.

(* ===================================================================== *)
(** ** pandas frames, as far as the program uses them *)
(* ===================================================================== *)

Module Pandas.

(** pandas is a library the program calls; what follows is the
    behaviour of pandas 2.x on the calls of the program:
    - [key in columns] is membership for a flat [Index]; on a
      [MultiIndex] a string is a partial key and is looked up in the
      outermost level;
    - [df[key]] is a column (a [Series]) when exactly one column carries
      the label, and a frame when several do or when the label heads
      columns of a [MultiIndex] with labels below; [set_index] builds
      the row index from [df[key]] and raises when that is a frame;
    - [Index.intersection] keeps the order of the left operand and
      drops repetitions; [df.loc[labels]] returns every row of each
      label; [reindex] fills the rows it does not find with [NaN] and
      raises on repeated row labels;
    - [pd.concat(axis=1)] of frames with equal row labels joins their
      rows position by position. *)

(** A cell or a row label: text, a number, or missing. The program moves
    cells and compares row labels with metric names; it never computes
    with a number. *)
Inductive cell :=
| Text (s : str)
| Num (z : Z)
| NaN.

Definition cell_eq_dec (a b : cell) : {a = b} + {a <> b}.
Proof.
  decide equality; [apply (list_eq_dec N.eq_dec) | apply Z.eq_dec].
Defined.

Definition cell_eqb (a b : cell) : bool :=
  if cell_eq_dec a b then true else false.

Definition cells_eqb (a b : list cell) : bool :=
  if list_eq_dec cell_eq_dec a b then true else false.

(** The column header: a flat [Index] of labels, or a [MultiIndex] of
    [nlevels] levels whose entries are tuples of labels. *)
Inductive Columns :=
| Index (labels : list str)
| MultiIndex (nlevels : nat) (tuples : list (list str)).

(** A frame over a header of type [C]: [Columns] for a parsed table,
    [list str] once [df.columns = [...]] has stored a list of strings.
    Every row is kept with its row label, so a frame has as many labels
    as rows. *)
Record DataFrame (C : Type) := {
  columns : C;
  index_name : option str;
  rows : list (cell * list cell)
}.

(** [df.index], the row labels. *)
Definition index {C} (df : DataFrame C) : list cell := map fst (rows df).

Definition ncols (c : Columns) : nat :=
  match c with
  | Index ls => length ls
  | MultiIndex _ ts => length ts
  end.

(** [MultiIndex.droplevel(0)]: one level must stay; one level left is a
    flat [Index]. *)
Definition droplevel0 (nlevels : nat) (tuples : list (list str))
  : result Columns :=
  match nlevels with
  | 0 | 1 =>
    Raise (ValueError (py "Cannot remove 1 levels from an index with 1 levels: at least one level must be left."))
  | 2 => Ok (Index (map (fun t => nth 1 t []) tuples))
  | S n => Ok (MultiIndex n (map (@tl str) tuples))
  end.

Definition heads (k : str) (t : list str) : bool :=
  match t with
  | a :: _ => PyStr.eqb k a
  | [] => false
  end.

(** [key in columns]. On a [MultiIndex] a string key is looked up in the
    outermost level ([MultiIndex.get_loc] of a partial key). *)
Definition has_key (c : Columns) (k : str) : bool :=
  match c with
  | Index ls => existsb (PyStr.eqb k) ls
  | MultiIndex _ ts => existsb (heads k) ts
  end.

Fixpoint positions_from {A} (f : A -> bool) (i : nat) (l : list A) : list nat :=
  match l with
  | [] => []
  | x :: t => if f x then i :: positions_from f (S i) t
              else positions_from f (S i) t
  end.

Definition positions {A} (f : A -> bool) (l : list A) : list nat :=
  positions_from f 0 l.

Fixpoint remove_nth {A} (j : nat) (l : list A) : list A :=
  match l, j with
  | [], _ => []
  | _ :: t, O => t
  | x :: t, S j' => x :: remove_nth j' t
  end.

Definition not_one_dimensional : exn :=
  ValueError (py "Index data must be 1-dimensional").

(** Column [j] becomes the row label and leaves the row. *)
Definition key_rows (j : nat) (rs : list (cell * list cell))
  : list (cell * list cell) :=
  map (fun r => (nth j (snd r) NaN, remove_nth j (snd r))) rs.

(** The frame after [df.set_index(k, inplace=True)]. [df[k]] must be one
    column: with the label repeated it is a frame, and so it is under a
    [MultiIndex] unless the one column headed by [k] has empty labels
    below; pandas then refuses to build the index. *)
Definition set_index (df : DataFrame Columns) (k : str)
  : result (DataFrame Columns) :=
  let keyed j c :=
    Ok {| columns := c; index_name := Some k; rows := key_rows j (rows df) |} in
  let missing :=
    Raise (KeyError (py "None of ['" ++ k ++ py "'] are in the columns")) in
  match columns df with
  | Index ls =>
    match positions (PyStr.eqb k) ls with
    | [] => missing
    | [j] => keyed j (Index (remove_nth j ls))
    | _ => Raise not_one_dimensional
    end
  | MultiIndex n ts =>
    match positions (heads k) ts with
    | [] => missing
    | [j] =>
      if forallb (PyStr.eqb []) (tl (nth j ts []))
      then keyed j (MultiIndex n (remove_nth j ts))
      else Raise not_one_dimensional
    | _ => Raise not_one_dimensional
    end
  end.

(** [Index.unique()]: first occurrences, in order. *)
Fixpoint unique (l : list cell) : list cell :=
  match l with
  | [] => []
  | x :: t => x :: filter (fun y => negb (cell_eqb x y)) (unique t)
  end.

Fixpoint is_unique (l : list cell) : bool :=
  match l with
  | [] => true
  | x :: t => negb (existsb (cell_eqb x) t) && is_unique t
  end.

Definition is_metric (metrics : list str) (l : cell) : bool :=
  match l with
  | Text s => existsb (PyStr.eqb s) metrics
  | _ => false
  end.

(** [idx.intersection(metrics)]: the labels of [idx] that are metrics,
    each once, in the order of [idx]. *)
Definition intersection (idx : list cell) (metrics : list str) : list cell :=
  unique (filter (is_metric metrics) idx).

(** The rows carrying label [l]. *)
Definition rows_of {C} (df : DataFrame C) (l : cell) : list (cell * list cell) :=
  filter (fun r => cell_eqb l (fst r)) (rows df).

(** [df.loc[labels]]: for each label in turn, every row that carries
    it; a label no row carries is a [KeyError]. *)
Definition loc (df : DataFrame Columns) (labels : list cell)
  : result (DataFrame Columns) :=
  if forallb (fun l => existsb (cell_eqb l) (index df)) labels then
    Ok {| columns := columns df;
          index_name := index_name df;
          rows := flat_map (rows_of df) labels |}
  else Raise (KeyError (py "not in index")).

Definition nan_row (n : nat) : list cell := repeat NaN n.

(** The row labelled [l], or [n] missing cells when there is none. *)
Definition row_or_nan {C} (df : DataFrame C) (n : nat) (l : cell) : list cell :=
  match rows_of df l with
  | r :: _ => snd r
  | [] => nan_row n
  end.

(** [df.reindex(target)]: one row per target label, in target order, all
    [NaN] where the frame has no such row. Row labels that repeat cannot
    be reindexed, unless the index already equals the target. *)
Definition reindex (df : DataFrame Columns) (target : list cell)
  : result (DataFrame Columns) :=
  if cells_eqb (index df) target then Ok df
  else if is_unique (index df) then
    Ok {| columns := columns df;
          index_name := index_name df;
          rows := map (fun l => (l, row_or_nan df (ncols (columns df)) l)) target |}
  else Raise (ValueError (py "cannot reindex on an axis with duplicate labels")).

(** What [for col in df.columns] yields. *)
Inductive label :=
| Flat (s : str)
| Tuple (t : list str).

Definition labels_of (c : Columns) : list label :=
  match c with
  | Index ls => map Flat ls
  | MultiIndex _ ts => map Tuple ts
  end.

(** [df.columns = names] with a list of strings. *)
Definition set_columns (df : DataFrame Columns) (names : list str)
  : result (DataFrame (list str)) :=
  if Nat.eqb (length names) (ncols (columns df)) then
    Ok {| columns := names; index_name := index_name df; rows := rows df |}
  else
    Raise (ValueError (py "Length mismatch: Expected axis has "
                       ++ PyStr.of_nat (ncols (columns df))
                       ++ py " elements, new values have "
                       ++ PyStr.of_nat (length names) ++ py " elements")).

(** The rows of [df] laid out on the row labels [idx] of a concatenation. *)
Definition align (df : DataFrame (list str)) (idx : list cell)
  : result (list (list cell)) :=
  if cells_eqb (index df) idx then Ok (map snd (rows df))
  else if is_unique (index df)
  then Ok (map (row_or_nan df (length (columns df))) idx)
  else Raise (OtherError (py "InvalidIndexError")
                         (py "Reindexing only valid with uniquely valued Index objects")).

(** [pd.concat([a, b], axis=1)] of two frames with flat headers: the
    columns of [a], then those of [b], on the union of the row labels
    (the labels of [a] themselves when both frames have the same). *)
Definition concat_axis1 (a b : DataFrame (list str))
  : result (DataFrame (list str)) :=
  let idx := if cells_eqb (index a) (index b) then index a
             else unique (index a ++ index b) in
  match align a idx, align b idx with
  | Ok ra, Ok rb =>
    Ok {| columns := columns a ++ columns b;
          index_name :=
            match index_name a, index_name b with
            | Some x, Some y => if PyStr.eqb x y then Some x else None
            | _, _ => None
            end;
          rows := combine idx (map (fun r => fst r ++ snd r) (combine ra rb)) |}
  | Raise e, _ => Raise e
  | _, Raise e => Raise e
  end.

End Pandas.

(* ===================================================================== *)
(** ** The program over its environment *)
(* ===================================================================== *)

Import Pandas.

(** One [requests.get(url, params=..., headers=..., timeout=...)]. *)
Record Request := {
  url : str;
  params : list (str * option str);
  headers : list (str * str);
  timeout : N
}.

(** What a run does to the outside world, in order. *)
Inductive event :=
| EvGet (rq : Request)
| EvReadHtml (raw : str)
| EvPrint (line : str)
| EvMakedirs (path : str)
| EvToCsv (path : str) (df : DataFrame (list str)) (encoding : str).

(** The collaborators that are not part of the repository: the remote
    service behind [requests.get] (its answer may depend on everything
    that happened before; it returns [resp.text] or raises), the HTML
    table parser [pd.read_html], [str()] of a tuple of strings, and the
    file system behind [os.makedirs(path, exist_ok=True)] and
    [df.to_csv(path, encoding=...)], which return or raise depending on
    what happened before. *)
Record Env := {
  http_get : list event -> Request -> result str;
  read_html : str -> result (list (DataFrame Columns));
  str_of_tuple : list str -> str;
  makedirs : list event -> str -> result unit;
  to_csv : list event -> str -> DataFrame (list str) -> str -> result unit
}.

(** Computations: the trace so far in, a value or an exception and the
    extended trace out. *)
Definition M (A : Type) : Type := list event -> result A * list event.

Definition ret {A} (a : A) : M A := fun tr => (Ok a, tr).

Definition raise {A} (e : exn) : M A := fun tr => (Raise e, tr).

Definition bind {A B} (c : M A) (k : A -> M B) : M B :=
  fun tr =>
    match c tr with
    | (Ok a, tr') => k a tr'
    | (Raise e, tr') => (Raise e, tr')
    end.

Definition lift {A} (r : result A) : M A := fun tr => (r, tr).

Definition emit (ev : event) : M unit := fun tr => (Ok tt, tr ++ [ev]).

Notation "x <- c ;; k" := (bind c (fun x => k))
  (at level 61, c at next level, right associativity).
Notation "c ;;; k" := (bind c (fun _ => k))
  (at level 61, right associativity).

Definition requests_get (E : Env) (rq : Request) : M str :=
  fun tr => (http_get E tr rq, tr ++ [EvGet rq]).

Definition pd_read_html (E : Env) (raw : str) : M (list (DataFrame Columns)) :=
  fun tr => (read_html E raw, tr ++ [EvReadHtml raw]).

(** [os.makedirs(path, exist_ok=True)] and [df.to_csv(path,
    encoding=encoding)]: the call is recorded, whether it returns or
    raises. *)
Definition os_makedirs (E : Env) (path : str) : M unit :=
  fun tr => (makedirs E tr path, tr ++ [EvMakedirs path]).

Definition df_to_csv (E : Env) (df : DataFrame (list str)) (path encoding : str)
  : M unit :=
  fun tr => (to_csv E tr path df encoding, tr ++ [EvToCsv path df encoding]).

Definition print (line : str) : M unit := emit (EvPrint line).

(** *** [GetNvrEncparam] *)

Definition user_agent : str :=
  py "Mozilla/5.0 (Macintosh; Intel Mac OS X 10_15_7) AppleWebKit/537.36 (KHTML, like Gecko) Chrome/114.0.0.0 Safari/537.36".

Definition portal_url (code : str) : str :=
  py "https://navercomp.wisereport.co.kr/v2/company/c1010001.aspx?cmp_cd=" ++ code.

Definition portal_request (code : str) : Request :=
  {| url := portal_url code;
     params := [];
     headers := [(py "User-Agent", user_agent)];
     timeout := 10%N |}.

Definition quote : PyStr.char := 0x27%N.

(** [r"encparam: '(.+?)'"] *)
Definition re_enc : list Re.node :=
  Re.lits (py "encparam: '")
  ++ [Re.Open; Re.Plus false Re.Any; Re.Close; Re.One (Re.Lit quote)].

Definition alnum : Re.cset :=
  Re.Ranges [(0x41, 0x5A); (0x61, 0x7A); (0x30, 0x39)]%N.

(** [r"id: '([A-Za-z0-9]+)' ?"] *)
Definition re_id : list Re.node :=
  Re.lits (py "id: '")
  ++ [Re.Open; Re.Plus true alnum; Re.Close;
      Re.One (Re.Lit quote); Re.Opt (Re.Lit 0x20%N)].

Definition msg_extraction (code : str) : str :=
  py "[GetNvrEncparam] encparam 또는 id를 찾을 수 없습니다. code=" ++ code.

(** Lines 26-35: both patterns searched in the page, each on its own. *)
Definition extract_tokens (code html : str) : result (option str * option str) :=
  let m_enc := Re.search true re_enc html in
  let m_id := Re.search true re_id html in
  match m_enc, m_id with
  | Some m_enc, Some m_id => Ok (Re.group1 m_enc, Re.group1 m_id)
  | _, _ => Raise (ValueError (msg_extraction code))
  end.

Definition GetNvrEncparam (E : Env) (code : str) : M (option str * option str) :=
  html <- requests_get E (portal_request code) ;;
  lift (extract_tokens code html).

(** *** [GetNvrFin] *)

Definition ajax_url : str :=
  py "https://navercomp.wisereport.co.kr/v2/company/ajax/cF1001.aspx".

Definition ajax_request (code freq_typ : str) (encparam encid : option str)
  : Request :=
  {| url := ajax_url;
     params := [(py "cmp_cd", Some code);
                (py "fin_typ", Some (py "0"));
                (py "freq_typ", Some freq_typ);
                (py "extY", Some (py "0"));
                (py "extQ", Some (py "0"));
                (py "encparam", encparam);
                (py "id", encid)];
     headers := [(py "User-Agent", user_agent);
                 (py "Referer", portal_url code);
                 (py "Accept", py "text/html,application/xhtml+xml,application/xml;q=0.9,*/*;q=0.8");
                 (py "Accept-Language", py "en-US,en;q=0.5")];
     timeout := 10%N |}.

Definition key_column : str := py "주요재무정보".

Definition msg_empty (code freq_typ : str) : str :=
  py "[GetNvrFin] AJAX 응답이 비어 있습니다. code=" ++ code
  ++ py ", freq_typ=" ++ freq_typ.

Definition msg_table_count (n : nat) : str :=
  py "[GetNvrFin] 테이블을 파싱할 수 없습니다. (tables count="
  ++ PyStr.of_nat n ++ py ")".

Definition msg_missing_key : str :=
  py "[GetNvrFin] '주요재무정보' 컬럼을 찾을 수 없습니다.".

(** [not raw_html or raw_html.strip() == ""] *)
Definition blank (raw_html : str) : bool :=
  match raw_html with
  | [] => true
  | _ => PyStr.eqb (PyStr.strip raw_html) []
  end.

(** Lines 81-82: a [MultiIndex] header loses its outermost level. *)
Definition collapse_header (fs : DataFrame Columns) : result (DataFrame Columns) :=
  match columns fs with
  | MultiIndex n ts =>
    match droplevel0 n ts with
    | Ok c => Ok {| columns := c; index_name := index_name fs; rows := rows fs |}
    | Raise e => Raise e
    end
  | Index _ => Ok fs
  end.

(** Lines 81-88 on [fs = tables[1]]. *)
Definition key_second_table (fs : DataFrame Columns)
  : result (DataFrame Columns) :=
  match collapse_header fs with
  | Raise e => Raise e
  | Ok fs =>
    if negb (has_key (columns fs) key_column)
    then Raise (ValueError msg_missing_key)
    else set_index fs key_column
  end.

(** Lines 76-88: from the raw answer to the keyed table. *)
Definition normalize (E : Env) (raw_html : str) : M (DataFrame Columns) :=
  tables <- pd_read_html E raw_html ;;
  if Nat.ltb (length tables) 2
  then raise (ValueError (msg_table_count (length tables)))
  else
    match nth_error tables 1 with
    | Some fs => lift (key_second_table fs)
    | None => raise (OtherError (py "IndexError") (py "list index out of range"))
    end.

Definition GetNvrFin (E : Env) (code freq_typ : str) : M (DataFrame Columns) :=
  tokens <- GetNvrEncparam E code ;;
  raw_html <- requests_get E (ajax_request code freq_typ (fst tokens) (snd tokens)) ;;
  if blank raw_html then raise (ValueError (msg_empty code freq_typ))
  else normalize E raw_html.

(** *** [main] *)

(** Lines 107-108 (and 110-111): the rows of the requested metrics, in
    the requested order. *)
Definition select (df : DataFrame Columns) (metrics : list str)
  : result (DataFrame Columns) :=
  let available := intersection (index df) metrics in
  match loc df available with
  | Ok sel => reindex sel (map Text metrics)
  | Raise e => Raise e
  end.

Definition format_label (E : Env) (l : label) : str :=
  match l with
  | Flat s => s
  | Tuple t => str_of_tuple E t
  end.

(** Lines 114 and 115: [df.columns = [f"<tag>{col}" for col in df.columns]],
    as the frame reads afterwards. In [main] the frame assigned to is
    the one [reindex] has just returned and nothing else holds it; the
    assignment in place is followed in [assign_prefixed] below. *)
Definition prefix_columns (E : Env) (tag : str) (df : DataFrame Columns)
  : result (DataFrame (list str)) :=
  set_columns df (map (fun col => tag ++ format_label E col)
                      (labels_of (columns df))).

(** Lines 113-118 on the two selected tables: prefix, then merge. *)
Definition merge (E : Env) (df_all_sel df_qtr_sel : DataFrame Columns)
  : result (DataFrame (list str)) :=
  match prefix_columns E (py "Y_") df_all_sel with
  | Raise e => Raise e
  | Ok df_all_sel =>
    match prefix_columns E (py "Q_") df_qtr_sel with
    | Raise e => Raise e
    | Ok df_qtr_sel => concat_axis1 df_all_sel df_qtr_sel
    end
  end.

(** Lines 107-118 for a metrics list: select, prefix, merge. *)
Definition select_prefix_merge (E : Env) (metrics : list str)
           (df_all df_qtr : DataFrame Columns) : result (DataFrame (list str)) :=
  match select df_all metrics with
  | Raise e => Raise e
  | Ok df_all_sel =>
    match select df_qtr metrics with
    | Raise e => Raise e
    | Ok df_qtr_sel => merge E df_all_sel df_qtr_sel
    end
  end.

(** *** Frames as objects

    Lines 114-115 assign to [df.columns]: the frame object is renamed in
    place, and whoever holds it sees the new names afterwards. To follow
    this, frames live in a store and a variable holds the address of its
    frame. [None] stands for an address without a frame, which no Python
    variable holds. *)

Definition ref := nat.

Definition Store := list (DataFrame Columns).

Definition deref (s : Store) (r : ref) : option (DataFrame Columns) :=
  nth_error s r.

Fixpoint update (s : Store) (r : ref) (df : DataFrame Columns) : Store :=
  match s, r with
  | [], _ => []
  | _ :: t, O => df :: t
  | x :: t, S r' => x :: update t r' df
  end.

(** A new object gets the next free address. *)
Definition alloc (s : Store) (df : DataFrame Columns) : ref * Store :=
  (length s, s ++ [df]).

(** A frame that has been given a list of names has a flat header. *)
Definition renamed (d : DataFrame (list str)) : DataFrame Columns :=
  {| columns := Index (columns d);
     index_name := index_name d;
     rows := rows d |}.

Definition flat (df : DataFrame Columns) : option (DataFrame (list str)) :=
  match columns df with
  | Index ls =>
    Some {| columns := ls; index_name := index_name df; rows := rows df |}
  | MultiIndex _ _ => None
  end.

(** Line 114 (and 115) on the frame at [r]:
    [df.columns = [f"<tag>{col}" for col in df.columns]]. The names are
    read off the frame as it is at that moment, and the frame itself is
    changed. *)
Definition assign_prefixed (E : Env) (tag : str) (r : ref) (s : Store)
  : option (result unit * Store) :=
  match deref s r with
  | None => None
  | Some df =>
    match prefix_columns E tag df with
    | Ok d => Some (Ok tt, update s r (renamed d))
    | Raise e => Some (Raise e, s)
    end
  end.

(** Lines 113-118 on the frames at [r_all] and [r_qtr]: both are
    renamed, then [pd.concat] reads them as they are by then and
    builds a new frame. (Both have just been given a list of names, so
    both headers are flat at line 118.) *)
Definition merge_in_place (E : Env) (r_all r_qtr : ref) (s : Store)
  : option (result (DataFrame (list str)) * Store) :=
  match assign_prefixed E (py "Y_") r_all s with
  | None => None
  | Some (Raise e, s1) => Some (Raise e, s1)
  | Some (Ok _, s1) =>
    match assign_prefixed E (py "Q_") r_qtr s1 with
    | None => None
    | Some (Raise e, s2) => Some (Raise e, s2)
    | Some (Ok _, s2) =>
      match deref s2 r_all, deref s2 r_qtr with
      | Some df_all_sel, Some df_qtr_sel =>
        match flat df_all_sel, flat df_qtr_sel with
        | Some a, Some q => Some (concat_axis1 a q, s2)
        | _, _ => None
        end
      | _, _ => None
      end
    end
  end.

(** Lines 107-108 (and 110-111) on the table at [r]: [loc] and
    [reindex] build a new frame and leave the table they read as it
    is. *)
Definition select_new (ms : list str) (r : ref) (s : Store)
  : option (result ref * Store) :=
  match deref s r with
  | None => None
  | Some df =>
    match select df ms with
    | Ok sel => Some (Ok (fst (alloc s sel)), snd (alloc s sel))
    | Raise e => Some (Raise e, s)
    end
  end.

(** Lines 107-118 on the two fetched tables at [r_all] and [r_qtr]. *)
Definition select_merge_in_place (E : Env) (ms : list str)
           (r_all r_qtr : ref) (s : Store)
  : option (result (DataFrame (list str)) * Store) :=
  match select_new ms r_all s with
  | None => None
  | Some (Raise e, s1) => Some (Raise e, s1)
  | Some (Ok r_all_sel, s1) =>
    match select_new ms r_qtr s1 with
    | None => None
    | Some (Raise e, s2) => Some (Raise e, s2)
    | Some (Ok r_qtr_sel, s2) => merge_in_place E r_all_sel r_qtr_sel s2
    end
  end.

Definition metrics : list str :=
  [py "매출액"; py "영업이익"; py "당기순이익"; py "영업이익률";
   py "PER(배)"; py "PBR(배)"].

(** [os.path.join(a, b)] on POSIX, for a directory name [a] without a
    trailing slash. *)
Definition path_join (a b : str) : str :=
  if PyStr.startswith (py "/") b then b else a ++ py "/" ++ b.

(** Lines 120-128: create the directory, write the file, report. *)
Definition save (E : Env) (code : str) (df_merged : DataFrame (list str))
  : M unit :=
  let output_dir := py "output" in
  os_makedirs E output_dir ;;;
  let output_path := path_join output_dir (code ++ py ".csv") in
  df_to_csv E df_merged output_path (py "utf-8-sig") ;;;
  print (py "✓ 저장 완료: " ++ output_path).

Definition main (E : Env) (argv : list str) : M unit :=
  if negb (Nat.eqb (length argv) 2) then
    print (py "사용법: python financial_summary.py <종목코드>") ;;;
    print (py "예시: python financial_summary.py 095660") ;;;
    raise (SystemExit 1%Z)
  else
    let code := PyStr.strip (nth 1 argv []) in
    df_all <- GetNvrFin E code (py "Y") ;;
    df_qtr <- GetNvrFin E code (py "Q") ;;
    df_merged <- lift (select_prefix_merge E metrics df_all df_qtr) ;;
    save E code df_merged.

(* ===================================================================== *)
(** ** Sample environments *)
(* ===================================================================== *)

Definition sample_code : str := py "095660".

Definition sample_argv : list str := [py "financial_summary.py"; sample_code].

(** A table as the parser leaves it: rows labelled 0, 1, ... *)
Definition parsed (c : Columns) (body : list (list cell)) : DataFrame Columns :=
  {| columns := c;
     index_name := None;
     rows := combine (map (fun i => Num (Z.of_nat i)) (seq 0 (length body))) body |}.

Definition banner : DataFrame Columns :=
  parsed (Index [py "종목"]) [[Text sample_code]].

(** The annual view, under a two-level header. *)
Definition annual_table : DataFrame Columns :=
  parsed (MultiIndex 2 [[key_column; key_column];
                        [py "연간"; py "2022/12"];
                        [py "연간"; py "2023/12"]])
         [[Text (py "매출액"); Num 100; Num 120];
          [Text (py "자산총계"); Num 900; Num 950];
          [Text (py "영업이익"); Num 10; Num 12]].

(** The quarterly view, under a flat header and in another row order. *)
Definition quarterly_table : DataFrame Columns :=
  parsed (Index [key_column; py "2023/09"; py "2023/12"])
         [[Text (py "PER(배)"); Num 7; Num 8];
          [Text (py "영업이익"); Num 3; Num 4];
          [Text (py "매출액"); Num 30; Num 31]].

Definition page (encparam encid : str) : str :=
  py "<script>var o = { encparam: '" ++ encparam ++ py "', id: '"
  ++ encid ++ py "' };</script>".

Definition freq_of (rq : Request) : str :=
  match nth_error (params rq) 2 with
  | Some (_, Some f) => f
  | _ => []
  end.

Definition data_body (rq : Request) : str :=
  py "<table></table><table>" ++ freq_of rq ++ py "</table>".

(** A service that answers the portal request with [pages n] after [n]
    earlier events and the data request with [answer], a parser that
    reads [parse] off a body, and a file system that accepts every
    directory and every file. *)
Definition env_of (pages : nat -> str) (answer : Request -> result str)
           (parse : str -> result (list (DataFrame Columns))) : Env :=
  {| http_get := fun tr rq =>
       if PyStr.eqb (url rq) ajax_url then answer rq else Ok (pages (length tr));
     read_html := parse;
     str_of_tuple := fun t => concat t;
     makedirs := fun _ _ => Ok tt;
     to_csv := fun _ _ _ _ => Ok tt |}.

Definition first_page : str := page (py "tok1==") (py "S1").

(** The portal hands out fresh tokens on every visit; the data endpoint
    answers with a body naming the requested view. *)
Definition sample_env : Env :=
  env_of (fun n => match n with
                   | O => first_page
                   | _ => page (py "tok2==") (py "S2")
                   end)
         (fun rq => Ok (data_body rq))
         (fun raw => if PyStr.contains (py "<table>Y") raw
                     then Ok [banner; annual_table]
                     else Ok [banner; quarterly_table]).

(** The data endpoint's answer holds [tables]. *)
Definition env_with (tables : list (DataFrame Columns)) : Env :=
  env_of (fun _ => first_page) (fun rq => Ok (data_body rq)) (fun _ => Ok tables).

(** A body of the data endpoint, as [sample_env] answers for the annual
    view. *)
Definition sample_raw : str := py "<table></table><table>Y</table>".

(** The trace [sample_env] is left with after one run. *)
Definition first_run_trace : list event :=
  snd (main sample_env sample_argv []).

(** The data endpoint answers with white space: a space, a line feed and
    an ideographic space. *)
Definition blank_env : Env :=
  env_of (fun _ => first_page) (fun _ => Ok [0x20; 0x0A; 0x3000]%N)
         (fun _ => Ok [banner; annual_table]).

Definition timed_out_message : str :=
  py "HTTPSConnectionPool(host='navercomp.wisereport.co.kr', port=443): Read timed out. (read timeout=10)".

Definition timed_out : exn :=
  OtherError (py "requests.exceptions.ReadTimeout") timed_out_message.

(** The data endpoint does not answer in time. *)
Definition slow_env : Env :=
  env_of (fun _ => first_page) (fun _ => Raise timed_out)
         (fun _ => Ok [banner; annual_table]).

(** A page with the identifier first, far from the parameter, and the
    markers in other letter cases. *)
Definition shuffled_page : str :=
  py "ID: 'XYZ9' <p>far away</p> EncParam: 'abc123=='".

Definition shuffled_env : Env :=
  env_of (fun _ => shuffled_page) (fun rq => Ok (data_body rq))
         (fun _ => Ok [banner; annual_table]).

(** Two columns share the inner label of the key column. *)
Definition twin_key_table : DataFrame Columns :=
  parsed (MultiIndex 2 [[py "연간"; key_column]; [py "분기"; key_column];
                        [py "연간"; py "2023/12"]])
         [[Text (py "매출액"); Text (py "매출액"); Num 120]].

(** A three-level header with the key name at the middle level. *)
Definition deep_table : DataFrame Columns :=
  parsed (MultiIndex 3 [[py "재무"; key_column; py "항목"];
                        [py "재무"; py "연간"; py "2023/12"]])
         [[Text (py "매출액"); Num 120]].

(** A three-level header with the key name at the innermost level only. *)
Definition deep_table_inner : DataFrame Columns :=
  parsed (MultiIndex 3 [[py "재무"; py "항목"; key_column];
                        [py "재무"; py "연간"; py "2023/12"]])
         [[Text (py "매출액"); Num 120]].

(** A table that holds metric B, then metric A, and no metric C. *)
Definition table_BA : DataFrame Columns :=
  {| columns := Index [py "2023"];
     index_name := Some (py "Metric");
     rows := [(Text (py "B"), [Num 2]); (Text (py "A"), [Num 1])] |}.

(** A parsed table in which the requested metric "매출액" stands twice. *)
Definition repeated_metric_table : DataFrame Columns :=
  parsed (Index [key_column; py "2023/12"])
         [[Text (py "매출액"); Num 120];
          [Text (py "영업이익"); Num 12];
          [Text (py "매출액"); Num 121]].

(** The spec's end-to-end tables: the annual view holds Revenue only,
    the quarterly view OperatingProfit only. *)
Definition revenue_only (v : cell) : DataFrame Columns :=
  {| columns := Index [py "2023"];
     index_name := Some key_column;
     rows := [(Text (py "Revenue"), [v])] |}.

Definition profit_only (v : cell) : DataFrame Columns :=
  {| columns := Index [py "2023Q4"];
     index_name := Some key_column;
     rows := [(Text (py "OperatingProfit"), [v])] |}.

(** A page that spells the second marker with a dotless i, holds the
    Kelvin sign and a long s in the identifier, and a quote inside the
    quoted parameter. *)
Definition folded_page : str :=
  [0x131]%N ++ py "D: '" ++ [0x212A; 0x17F]%N ++ py "' EncParam: 'a'b'".

Definition folded_env : Env :=
  env_of (fun _ => folded_page) (fun rq => Ok (data_body rq))
         (fun _ => Ok [banner; annual_table]).

(** An argument that is an absolute path. *)
Definition slash_code : str := py "/tmp/x".

(** An argument with white space around the code. *)
Definition padded_code : str := [0x20; 0x09]%N ++ sample_code ++ [0x0A]%N.

(** A keyed table in which a row that is no requested metric stands
    twice. *)
Definition repeated_other_table : DataFrame Columns :=
  {| columns := Index [py "2023/12"];
     index_name := Some key_column;
     rows := [(Text (py "자산총계"), [Num 950]);
              (Text (py "매출액"), [Num 120]);
              (Text (py "자산총계"), [Num 951])] |}.

(** A second table with the key column and no row at all. *)
Definition empty_table : DataFrame Columns :=
  parsed (Index [key_column; py "2023/12"]) [].

(** The two tables of the end-to-end scenario after the selection: both
    projected onto Revenue and OperatingProfit. *)
Definition projected_annual : DataFrame Columns :=
  {| columns := Index [py "2023"];
     index_name := Some key_column;
     rows := [(Text (py "Revenue"), [Text (py "100")]);
              (Text (py "OperatingProfit"), [NaN])] |}.

Definition projected_quarterly : DataFrame Columns :=
  {| columns := Index [py "2023Q4"];
     index_name := Some key_column;
     rows := [(Text (py "Revenue"), [NaN]);
              (Text (py "OperatingProfit"), [Text (py "10")])] |}.

(** The two projected tables as two frame objects. *)
Definition two_frames : Store := [projected_annual; projected_quarterly].

(** A file system without the directory [output/a]: [to_csv] refuses a
    path below [output] that holds another slash. *)
Definition no_such_directory : exn :=
  OtherError (py "OSError")
             (py "Cannot save file into a non-existent directory: 'output/a'").

Definition flat_directory_env (tables : list (DataFrame Columns)) : Env :=
  {| http_get := http_get (env_with tables);
     read_html := read_html (env_with tables);
     str_of_tuple := str_of_tuple (env_with tables);
     makedirs := fun _ _ => Ok tt;
     to_csv := fun _ path _ _ =>
       if PyStr.contains (py "/") (skipn 7 path)
       then Raise no_such_directory else Ok tt |}.

(* ===================================================================== *)
(** ** Notions used in the statements *)
(* ===================================================================== *)

(** [b] is [a] up to the case of its letters. *)
Definition same_ignoring_case (a b : str) : Prop :=
  map Re.tolower a = map Re.tolower b.

(** A token for the first pattern: not empty, on one line, no quote. *)
Definition plain_token (t : str) : Prop :=
  t <> [] /\ Forall (fun c => c <> quote /\ c <> 0x0A%N) t.

Definition ascii_alnum (c : PyStr.char) : bool :=
  ((0x30 <=? c) && (c <=? 0x39) || (0x41 <=? c) && (c <=? 0x5A)
   || (0x61 <=? c) && (c <=? 0x7A))%N.

(** A token for the second pattern: not empty, ASCII letters and digits. *)
Definition alnum_token (t : str) : Prop :=
  t <> [] /\ Forall (fun c => ascii_alnum c = true) t.

(** Pattern [p] matches at no position of [html] before [i]. *)
Definition no_match_before (p : list Re.node) (html : str) (i : nat) : Prop :=
  forall j, j < i -> Re.run true p (skipn j html) Re.start_state = None.

(** The matcher has group 1 open and the group has taken a code point. *)
Definition taking (st : Re.mstate) : Prop :=
  exists acc, Re.cur st = Some acc /\ acc <> [].

(** The labels a single-level header has, and those a two-level header
    is left with once its outer level is dropped. *)
Definition collapsed (c : Columns) : option (list str) :=
  match c with
  | Index ls => Some ls
  | MultiIndex 2 ts => Some (map (fun t => nth 1 t []) ts)
  | MultiIndex _ _ => None
  end.

(** The labels the key check of line 84 looks at: those of a flat
    header, and the second-level labels of a multi-level header (its
    outermost labels once the outer level is dropped). *)
Definition labels_after_drop (c : Columns) : option (list str) :=
  match c with
  | Index ls => Some ls
  | MultiIndex (S (S _)) ts => Some (map (fun t => nth 1 t []) ts)
  | MultiIndex _ _ => None
  end.

(** The row the selection gives a requested metric. *)
Definition selected_row (df : DataFrame Columns) (m : str) : cell * list cell :=
  (Text m, row_or_nan df (ncols (columns df)) (Text m)).

(** The events of a fetch: requests and parser calls. *)
Definition fetch_event (ev : event) : Prop :=
  match ev with
  | EvGet _ | EvReadHtml _ => True
  | _ => False
  end.

(** The events of one successful fetch: the portal request, the data
    request with the tokens of that call, the parser call. *)
Definition fetch_events (code f : str) (toks : option str * option str)
           (raw : str) : list event :=
  [EvGet (portal_request code);
   EvGet (ajax_request code f (fst toks) (snd toks));
   EvReadHtml raw].

(** The events of lines 120-128 when the directory and the file can be
    written. *)
Definition closing_events (code : str) (merged : DataFrame (list str))
  : list event :=
  let output_path := path_join (py "output") (code ++ py ".csv") in
  [EvMakedirs (py "output");
   EvToCsv output_path merged (py "utf-8-sig");
   EvPrint (py "✓ 저장 완료: " ++ output_path)].

Definition usage_lines : list event :=
  [EvPrint (py "사용법: python financial_summary.py <종목코드>");
   EvPrint (py "예시: python financial_summary.py 095660")].

(** The frames a run hands to [to_csv]. *)
Definition written (tr : list event) : list (DataFrame (list str)) :=
  flat_map (fun ev => match ev with
                      | EvToCsv _ df _ => [df]
                      | _ => []
                      end) tr.

(** How often a trace visits the portal page of [code]. *)
Definition portal_visits (code : str) (tr : list event) : nat :=
  length (filter (fun ev => match ev with
                            | EvGet rq => PyStr.eqb (url rq) (portal_url code)
                            | _ => false
                            end) tr).

(** The token pairs a trace sends to the data endpoint, in order. *)
Definition tokens_sent (tr : list event) : list (option str * option str) :=
  flat_map (fun ev => match ev with
                      | EvGet rq =>
                        if PyStr.eqb (url rq) ajax_url
                        then match skipn 5 (params rq) with
                             | [(_, encparam); (_, encid)] => [(encparam, encid)]
                             | _ => []
                             end
                        else []
                      | _ => []
                      end) tr.

(** The error kinds of the spec. *)
Inductive error_kind :=
| TransportError
| ExtractionError
| EmptyResponseError
| TableCountError
| MissingKeyColumnError.

(** [arises E code f tr kind e evs]: a fetch of view [f] for [code],
    started after trace [tr], meets the condition of error kind [kind];
    [e] is the exception of that kind and [evs] the events up to the
    failing stage. *)
Inductive arises (E : Env) (code f : str) (tr : list event)
  : error_kind -> exn -> list event -> Prop :=
| portal_down e :
    http_get E tr (portal_request code) = Raise e ->
    arises E code f tr TransportError e [EvGet (portal_request code)]
| no_tokens page :
    http_get E tr (portal_request code) = Ok page ->
    Re.search true re_enc page = None \/ Re.search true re_id page = None ->
    arises E code f tr ExtractionError (ValueError (msg_extraction code))
           [EvGet (portal_request code)]
| data_down page toks e :
    http_get E tr (portal_request code) = Ok page ->
    extract_tokens code page = Ok toks ->
    http_get E (tr ++ [EvGet (portal_request code)])
             (ajax_request code f (fst toks) (snd toks)) = Raise e ->
    arises E code f tr TransportError e
           [EvGet (portal_request code);
            EvGet (ajax_request code f (fst toks) (snd toks))]
| empty_body page toks raw :
    http_get E tr (portal_request code) = Ok page ->
    extract_tokens code page = Ok toks ->
    http_get E (tr ++ [EvGet (portal_request code)])
             (ajax_request code f (fst toks) (snd toks)) = Ok raw ->
    Forall (fun c => PyStr.isspace c = true) raw ->
    arises E code f tr EmptyResponseError (ValueError (msg_empty code f))
           [EvGet (portal_request code);
            EvGet (ajax_request code f (fst toks) (snd toks))]
| few_tables page toks raw tables :
    http_get E tr (portal_request code) = Ok page ->
    extract_tokens code page = Ok toks ->
    http_get E (tr ++ [EvGet (portal_request code)])
             (ajax_request code f (fst toks) (snd toks)) = Ok raw ->
    ~ Forall (fun c => PyStr.isspace c = true) raw ->
    read_html E raw = Ok tables ->
    length tables < 2 ->
    arises E code f tr TableCountError
           (ValueError (msg_table_count (length tables)))
           (fetch_events code f toks raw)
| no_key_column page toks raw tables fs L :
    http_get E tr (portal_request code) = Ok page ->
    extract_tokens code page = Ok toks ->
    http_get E (tr ++ [EvGet (portal_request code)])
             (ajax_request code f (fst toks) (snd toks)) = Ok raw ->
    ~ Forall (fun c => PyStr.isspace c = true) raw ->
    read_html E raw = Ok tables ->
    nth_error tables 1 = Some fs ->
    labels_after_drop (columns fs) = Some L ->
    ~ In key_column L ->
    arises E code f tr MissingKeyColumnError (ValueError msg_missing_key)
           (fetch_events code f toks raw).

(** The tag that names the failing function in a diagnostic. *)
Definition stage_tag (k : error_kind) : str :=
  match k with
  | ExtractionError => py "[GetNvrEncparam]"
  | _ => py "[GetNvrFin]"
  end.

(** The code points [[A-Za-z0-9]] accepts under IGNORECASE: the ASCII
    letters and digits, and the four code points whose other case is an
    ASCII letter (dotted capital I, dotless i, long s, Kelvin sign). *)
Definition id_char (c : PyStr.char) : bool :=
  (ascii_alnum c || (c =? 0x130) || (c =? 0x131) || (c =? 0x17F)
   || (c =? 0x212A))%N.

(** The second pattern without its trailing [ ?]. *)
Definition re_id_bare : list Re.node :=
  Re.lits (py "id: '")
  ++ [Re.Open; Re.Plus true alnum; Re.Close; Re.One (Re.Lit quote)].

(** What [droplevel(0)] raises on a [MultiIndex] of a single level. *)
Definition cannot_drop_level : exn :=
  ValueError (py "Cannot remove 1 levels from an index with 1 levels: at least one level must be left.").

(** The requests of a trace, in order. *)
Definition requests (tr : list event) : list Request :=
  flat_map (fun ev => match ev with
                      | EvGet rq => [rq]
                      | _ => []
                      end) tr.

(** The row of metric [m] in a merged table: its annual cells, then its
    quarterly cells, missing values where a view has no such row. *)
Definition merged_row (a q : DataFrame Columns) (m : str) : cell * list cell :=
  (Text m, row_or_nan a (ncols (columns a)) (Text m)
           ++ row_or_nan q (ncols (columns q)) (Text m)).

(** No requested metric stands more than once among the row labels. *)
Definition metrics_once (df : DataFrame Columns) (ms : list str) : Prop :=
  forall m, In m ms -> count_occ cell_eq_dec (index df) (Text m) <= 1.

(** The names lines 114-115 give the columns of a frame. *)
Definition prefixed_names (E : Env) (tag : str) (df : DataFrame Columns)
  : list str :=
  map (fun col => tag ++ format_label E col) (labels_of (columns df)).

(** The frame after the assignment of line 114 or 115. *)
Definition prefixed (E : Env) (tag : str) (df : DataFrame Columns)
  : DataFrame Columns :=
  {| columns := Index (prefixed_names E tag df);
     index_name := index_name df;
     rows := rows df |}.

(** Two frames with the same row labels side by side, under the given
    column names. *)
Definition side_by_side (names_a names_q : list str) (a q : DataFrame Columns)
  : DataFrame (list str) :=
  {| columns := names_a ++ names_q;
     index_name := match index_name a, index_name q with
                   | Some x, Some y => if PyStr.eqb x y then Some x else None
                   | _, _ => None
                   end;
     rows := map (fun p => (fst (fst p), snd (fst p) ++ snd (snd p)))
                 (combine (rows a) (rows q)) |}.

(* ===================================================================== *)
(** ** Facts about strings *)
(* ===================================================================== *)

Unset Implicit Arguments.

(** Closed goals are settled by running the definitions. *)
Ltac by_running := vm_compute; reflexivity.

Section StrFacts.

Lemma str_eqb_eq (a b : str) : PyStr.eqb a b = true <-> a = b.
Proof.
  unfold PyStr.eqb. destruct (list_eq_dec N.eq_dec a b); split; congruence.
Qed.

Lemma str_eqb_refl (a : str) : PyStr.eqb a a = true.
Proof. now apply str_eqb_eq. Qed.

Lemma str_eqb_neq (a b : str) : PyStr.eqb a b = false <-> a <> b.
Proof.
  unfold PyStr.eqb. destruct (list_eq_dec N.eq_dec a b); split; congruence.
Qed.

Lemma lstrip_spaces (s : str) :
  forallb PyStr.isspace s = true -> PyStr.lstrip s = [].
Proof.
  induction s as [|c s IH]; simpl; [reflexivity|].
  intros H. apply andb_true_iff in H as [Hc Hs]. rewrite Hc. now apply IH.
Qed.

Lemma lstrip_nil (s : str) :
  PyStr.lstrip s = [] -> forallb PyStr.isspace s = true.
Proof.
  induction s as [|c s IH]; simpl; [reflexivity|].
  destruct (PyStr.isspace c); [exact IH | discriminate].
Qed.

(** What [lstrip] returns is empty or starts with a code point that is
    no white space. *)
Lemma lstrip_head (s : str) :
  match PyStr.lstrip s with
  | [] => True
  | c :: _ => PyStr.isspace c = false
  end.
Proof.
  induction s as [|c s IH]; simpl; [exact I|].
  destruct (PyStr.isspace c) eqn:Hc; [exact IH | exact Hc].
Qed.

Lemma lstrip_app_nonspace (s : str) (c : PyStr.char) :
  PyStr.isspace c = false -> PyStr.lstrip (s ++ [c]) <> [].
Proof.
  intros Hc. induction s as [|d s IH]; simpl.
  - rewrite Hc. discriminate.
  - destruct (PyStr.isspace d); [exact IH | discriminate].
Qed.

(** [s.strip()] is empty exactly when [s] holds white space only. *)
Lemma strip_nil_iff (s : str) :
  PyStr.strip s = [] <-> forallb PyStr.isspace s = true.
Proof.
  unfold PyStr.strip. split.
  - intros H. apply lstrip_nil.
    pose proof (lstrip_head s) as Hh.
    destruct (PyStr.lstrip s) as [|c t] eqn:Hl; [reflexivity|].
    exfalso. apply (f_equal (@rev _)) in H. rewrite rev_involutive in H.
    simpl in H. revert H. apply lstrip_app_nonspace. exact Hh.
  - intros H. now rewrite (lstrip_spaces s H).
Qed.

(** The guard of line 73 holds exactly for the bodies made of white
    space, the empty one included. *)
Lemma blank_iff (raw : str) :
  blank raw = true <-> Forall (fun c => PyStr.isspace c = true) raw.
Proof.
  rewrite Forall_forall, <- forallb_forall.
  unfold blank. destruct raw as [|c t]; [easy|].
  now rewrite str_eqb_eq, strip_nil_iff.
Qed.

Lemma startswith_app (p s : str) : PyStr.startswith p (p ++ s) = true.
Proof.
  induction p as [|a p IH]; simpl; [reflexivity|].
  now rewrite N.eqb_refl.
Qed.

Lemma contains_startswith (x s : str) :
  PyStr.startswith x s = true -> PyStr.contains x s = true.
Proof. intros H. destruct s; simpl in *; now rewrite H. Qed.

(** A string contains each of its segments. *)
Lemma contains_app (x a b : str) : PyStr.contains x (a ++ x ++ b) = true.
Proof.
  induction a as [|c a IH]; simpl.
  - apply contains_startswith, startswith_app.
  - rewrite IH. apply orb_true_r.
Qed.

Lemma contains_suffix (x a : str) : PyStr.contains x (a ++ x) = true.
Proof.
  pose proof (contains_app x a []) as H. now rewrite app_nil_r in H.
Qed.

End StrFacts.

(* ===================================================================== *)
(** ** How the two fetch functions run *)
(* ===================================================================== *)

Section Runs.

Variable E : Env.

Lemma GetNvrEncparam_run (code : str) (tr : list event) :
  GetNvrEncparam E code tr =
  (match http_get E tr (portal_request code) with
   | Ok html => extract_tokens code html
   | Raise e => Raise e
   end,
   tr ++ [EvGet (portal_request code)]).
Proof.
  unfold GetNvrEncparam, bind, requests_get, lift.
  destruct (http_get E tr (portal_request code)); reflexivity.
Qed.

(** The trace of a token extraction grows by the portal request alone. *)
Lemma GetNvrEncparam_trace (code : str) (tr tr1 : list event) r :
  GetNvrEncparam E code tr = (r, tr1) ->
  tr1 = tr ++ [EvGet (portal_request code)].
Proof. rewrite GetNvrEncparam_run. congruence. Qed.

Lemma GetNvrFin_after_tokens (code f : str) (tr tr1 : list event) toks :
  GetNvrEncparam E code tr = (Ok toks, tr1) ->
  GetNvrFin E code f tr =
  let rq := ajax_request code f (fst toks) (snd toks) in
  match http_get E tr1 rq with
  | Raise e => (Raise e, tr1 ++ [EvGet rq])
  | Ok raw =>
    if blank raw then (Raise (ValueError (msg_empty code f)), tr1 ++ [EvGet rq])
    else normalize E raw (tr1 ++ [EvGet rq])
  end.
Proof.
  intros H. unfold GetNvrFin, bind at 1. rewrite H.
  unfold bind at 1, requests_get. cbv zeta.
  destruct (http_get E tr1 _) as [raw|e]; [|reflexivity].
  destruct (blank raw); reflexivity.
Qed.

Lemma GetNvrFin_no_tokens (code f : str) (tr tr1 : list event) e :
  GetNvrEncparam E code tr = (Raise e, tr1) ->
  GetNvrFin E code f tr = (Raise e, tr1).
Proof. intros H. unfold GetNvrFin, bind at 1. now rewrite H. Qed.

Lemma normalize_run (raw : str) (tr : list event) :
  normalize E raw tr =
  (match read_html E raw with
   | Raise e => Raise e
   | Ok tables =>
     if Nat.ltb (length tables) 2
     then Raise (ValueError (msg_table_count (length tables)))
     else match nth_error tables 1 with
          | Some fs => key_second_table fs
          | None => Raise (OtherError (py "IndexError") (py "list index out of range"))
          end
   end,
   tr ++ [EvReadHtml raw]).
Proof.
  unfold normalize, bind, pd_read_html.
  destruct (read_html E raw) as [tables|e]; [|reflexivity].
  destruct (Nat.ltb (length tables) 2); [reflexivity|].
  destruct (nth_error tables 1); reflexivity.
Qed.

End Runs.

(* ===================================================================== *)
(** ** The empty-response guard *)
(* ===================================================================== *)

(** C8. Whenever the data endpoint answers with an empty body or with
    white space only, [GetNvrFin] raises the empty-response [ValueError]
    (with the entity code and the frequency in its message) right after
    the data request: the events of the call are the portal request and
    the data request, and the HTML parser is never invoked. *)
Theorem C8_blank_response_raises_before_parsing
        (E : Env) (code f : str) (tr tr1 : list event) toks (raw : str) :
  GetNvrEncparam E code tr = (Ok toks, tr1) ->
  http_get E tr1 (ajax_request code f (fst toks) (snd toks)) = Ok raw ->
  Forall (fun c => PyStr.isspace c = true) raw ->
  GetNvrFin E code f tr =
    (Raise (ValueError (msg_empty code f)),
     tr ++ [EvGet (portal_request code);
            EvGet (ajax_request code f (fst toks) (snd toks))])
  /\ forall body, ~ In (EvReadHtml body) (skipn (length tr) (snd (GetNvrFin E code f tr))).
Proof.
  intros Htok Hget Hblank.
  assert (Hrun : GetNvrFin E code f tr =
    (Raise (ValueError (msg_empty code f)),
     tr ++ [EvGet (portal_request code);
            EvGet (ajax_request code f (fst toks) (snd toks))])).
  { rewrite (GetNvrFin_after_tokens E code f tr tr1 toks Htok). cbv zeta. rewrite Hget.
    apply blank_iff in Hblank. rewrite Hblank.
    rewrite (GetNvrEncparam_trace E code tr tr1 _ Htok), <- app_assoc. reflexivity. }
  split; [exact Hrun|].
  intros body Hin. rewrite Hrun in Hin. cbn [snd] in Hin.
  rewrite skipn_app, skipn_all, Nat.sub_diag in Hin. simpl in Hin.
  destruct Hin as [H|[H|[]]]; discriminate.
Qed.

Lemma C8_blank_response_witness :
  GetNvrFin blank_env sample_code (py "Y") [] =
    (Raise (ValueError (msg_empty sample_code (py "Y"))),
     [EvGet (portal_request sample_code);
      EvGet (ajax_request sample_code (py "Y") (Some (py "tok1==")) (Some (py "S1")))])
  /\ forall body, ~ In (EvReadHtml body)
                      (skipn 0 (snd (GetNvrFin blank_env sample_code (py "Y") []))).
Proof.
  apply (C8_blank_response_raises_before_parsing
           blank_env sample_code (py "Y") []
           [EvGet (portal_request sample_code)]
           (Some (py "tok1=="), Some (py "S1")) [0x20; 0x0A; 0x3000]%N).
  - by_running.
  - by_running.
  - repeat constructor.
Defined.

(* ===================================================================== *)
(** ** The matcher on the two patterns *)
(* ===================================================================== *)

Section ReFacts.

Import Re.

Lemma consume_closed (c : PyStr.char) (st : mstate) :
  cur st = None -> consume c st = st.
Proof. unfold consume. now intros ->. Qed.

(** A run of literals in front of a pattern: with no group open it eats
    as many code points, each accepted by its literal. *)
Lemma run_lits_inv (ic : bool) (l : str) (p : list node) :
  forall (s : str) (st : mstate) r,
    cur st = None ->
    run ic (lits l ++ p) s st = Some r ->
    exists s1 s2,
      s = s1 ++ s2
      /\ Forall2 (fun x c => accepts ic (Lit x) c = true) l s1
      /\ run ic p s2 st = Some r.
Proof.
  induction l as [|x l IH]; intros s st r Hcur H.
  - exists [], s. repeat split; [constructor | exact H].
  - cbn [lits map app run] in H.
    destruct s as [|c s]; [discriminate|].
    destruct (accepts ic (Lit x) c) eqn:Hc; [|discriminate].
    rewrite (consume_closed c st Hcur) in H.
    destruct (IH s st r Hcur H) as (s1 & s2 & -> & Hall & Hrun).
    exists (c :: s1), s2. repeat split; [constructor; assumption | exact Hrun].
Qed.

Lemma run_lits (ic : bool) (l : str) (p : list node) :
  forall (s1 s2 : str) (st : mstate),
    cur st = None ->
    Forall2 (fun x c => accepts ic (Lit x) c = true) l s1 ->
    run ic (lits l ++ p) (s1 ++ s2) st = run ic p s2 st.
Proof.
  induction l as [|x l IH]; intros s1 s2 st Hcur Hall; inversion Hall; subst.
  - reflexivity.
  - cbn [lits map app run]. rewrite H1.
    rewrite (consume_closed _ st Hcur). now apply IH.
Qed.

(** Case-insensitive literals accept every spelling of the text. *)
Lemma lits_accept_ignoring_case (l s1 : str) :
  same_ignoring_case s1 l ->
  Forall2 (fun x c => accepts true (Lit x) c = true) l s1.
Proof.
  unfold same_ignoring_case. revert s1.
  induction l as [|x l IH]; intros [|c s1] H; try discriminate; constructor.
  - cbn [map] in H. injection H as Hc _.
    cbn [accepts]. rewrite Hc, N.eqb_refl. reflexivity.
  - apply IH. cbn [map] in H. now injection H.
Qed.

Lemma tolower_quote (c : PyStr.char) : (tolower c =? quote)%N = (c =? quote)%N.
Proof.
  unfold tolower, quote.
  destruct (N.leb_spec 0x41 c), (N.leb_spec c 0x5A); cbn [andb];
    destruct (N.eqb_spec c 0x130), (N.eqb_spec c 0x212A);
    repeat match goal with
           | |- context [(?a =? ?b)%N] => destruct (N.eqb_spec a b)
           end; try reflexivity; lia.
Qed.

(** The closing quote is matched by a quote and by nothing else. *)
Lemma accepts_quote (c : PyStr.char) :
  accepts true (Lit quote) c = (c =? quote)%N.
Proof.
  cbn [accepts]. change (tolower quote) with quote.
  rewrite tolower_quote. change (casefix quote) with (@nil PyStr.char).
  cbn [existsb]. apply orb_false_r.
Qed.

Lemma taking_consume (c : PyStr.char) (st : mstate) :
  taking st -> taking (consume c st).
Proof.
  intros (acc & Hc & _). unfold consume. rewrite Hc.
  exists (c :: acc). split; [reflexivity | discriminate].
Qed.

(** Whatever holds of every way out of the loop holds of the loop. *)
Lemma more_inv (accept : PyStr.char -> bool) (greedy : bool) cont
      (Q : mstate * str -> Prop) :
  (forall s st r, taking st -> cont s st = Some r -> Q r) ->
  forall s st r, taking st -> more accept greedy cont s st = Some r -> Q r.
Proof.
  intros Hcont. induction s as [|c s IH]; intros st r Ht H.
  - exact (Hcont _ _ _ Ht H).
  - cbn [more] in H. destruct greedy.
    + destruct (accept c).
      * destruct (more accept true cont s (consume c st)) eqn:Hm.
        -- cbn [orelse] in H. injection H as <-.
           exact (IH _ _ (taking_consume c st Ht) Hm).
        -- cbn [orelse] in H. exact (Hcont _ _ _ Ht H).
      * exact (Hcont _ _ _ Ht H).
    + destruct (cont (c :: s) st) eqn:Hk.
      * cbn [orelse] in H. injection H as <-. exact (Hcont _ _ _ Ht Hk).
      * cbn [orelse] in H. destruct (accept c); [|discriminate].
        exact (IH _ _ (taking_consume c st Ht) H).
Qed.

(** Nodes outside the group leave its text alone. *)
Lemma run_outside_group (ic : bool) (p : list node) :
  Forall (fun n => match n with One _ | Opt _ => True | _ => False end) p ->
  forall s st r, cur st = None -> run ic p s st = Some r ->
                 fst r = st.
Proof.
  induction 1 as [|n p Hn Hp IH]; intros s st r Hcur H.
  - cbn in H. now injection H as <-.
  - destruct n; try contradiction; cbn [run] in H.
    + destruct s as [|c s]; [discriminate|].
      destruct (accepts ic cs c); [|discriminate].
      rewrite (consume_closed c st Hcur) in H. eauto.
    + destruct s as [|c s]; [eauto|].
      destruct (accepts ic cs c); [|eauto].
      rewrite (consume_closed c st Hcur) in H.
      destruct (run ic p s st) eqn:Hr; cbn [orelse] in H; [|eauto].
      injection H as <-. eauto.
Qed.

(** Closing the group after it has taken something yields a non-empty
    group 1, whatever follows. *)
Lemma run_close_nonempty (ic : bool) (p : list node) :
  Forall (fun n => match n with One _ | Opt _ => True | _ => False end) p ->
  forall s st r, taking st -> run ic (Close :: p) s st = Some r ->
                 exists g, grp (fst r) = Some g /\ g <> [].
Proof.
  intros Hp s st r (acc & Hacc & Hne) H. cbn [run] in H.
  apply (run_outside_group ic p Hp) in H; [|reflexivity].
  rewrite H, Hacc. cbn. exists (rev acc). split; [reflexivity|].
  intros Hr. apply Hne. apply (f_equal (@rev _)) in Hr.
  now rewrite rev_involutive in Hr.
Qed.

(** Group 1 of a match of [(cs+)] or [(cs+?)] followed by nodes outside
    the group is never empty. *)
Lemma run_group_nonempty (ic greedy : bool) (cs : cset) (p : list node) :
  Forall (fun n => match n with One _ | Opt _ => True | _ => False end) p ->
  forall s st r,
    run ic (Open :: Plus greedy cs :: Close :: p) s st = Some r ->
    exists g, grp (fst r) = Some g /\ g <> [].
Proof.
  intros Hp s st r H. cbn [run] in H.
  destruct s as [|c s]; [discriminate|].
  destruct (accepts ic cs c); [|discriminate].
  refine (more_inv _ _ _ (fun r => exists g, grp (fst r) = Some g /\ g <> [])
                   _ _ _ _ _ H).
  - intros s' st' r' Ht Hr. exact (run_close_nonempty ic p Hp s' st' r' Ht Hr).
  - exists [c]. split; [reflexivity | discriminate].
Qed.

Lemma re_enc_group_nonempty (s : str) r :
  run true re_enc s start_state = Some r ->
  exists g, grp (fst r) = Some g /\ g <> [].
Proof.
  intros H. unfold re_enc in H.
  apply run_lits_inv in H; [|reflexivity].
  destruct H as (s1 & s2 & _ & _ & H).
  revert H. apply run_group_nonempty. repeat constructor.
Qed.

Lemma re_id_group_nonempty (s : str) r :
  run true re_id s start_state = Some r ->
  exists g, grp (fst r) = Some g /\ g <> [].
Proof.
  intros H. unfold re_id in H.
  apply run_lits_inv in H; [|reflexivity].
  destruct H as (s1 & s2 & _ & _ & H).
  revert H. apply run_group_nonempty. repeat constructor.
Qed.

(** [search] returns the match at the first position that has one. *)
Lemma search_from_inv (ic : bool) (p : list node) :
  forall (s : str) (pos : nat) m,
    search_from ic p pos s = Some m ->
    exists i st rest,
      i <= length s
      /\ run ic p (skipn i s) start_state = Some (st, rest)
      /\ (forall j, j < i -> run ic p (skipn j s) start_state = None)
      /\ m = {| m_start := pos + i; group1 := grp st |}.
Proof.
  induction s as [|c s IH]; intros pos m H; cbn [search_from] in H.
  - destruct (run ic p [] start_state) as [[st rest]|] eqn:Hr; [|discriminate].
    injection H as <-. exists 0, st, rest.
    repeat split; [lia | exact Hr | lia | now rewrite Nat.add_0_r].
  - destruct (run ic p (c :: s) start_state) as [[st rest]|] eqn:Hr.
    + injection H as <-. exists 0, st, rest.
      repeat split; [lia | exact Hr | lia | now rewrite Nat.add_0_r].
    + destruct (IH _ _ H) as (i & st & rest & Hi & Hrun & Hbefore & ->).
      exists (S i), st, rest. repeat split.
      * cbn. lia.
      * exact Hrun.
      * intros [|j] Hj; [exact Hr | apply Hbefore; lia].
      * f_equal. lia.
Qed.

Lemma search_from_first (ic : bool) (p : list node) :
  forall (s : str) (pos i : nat) st rest,
    i <= length s ->
    run ic p (skipn i s) start_state = Some (st, rest) ->
    (forall j, j < i -> run ic p (skipn j s) start_state = None) ->
    search_from ic p pos s = Some {| m_start := pos + i; group1 := grp st |}.
Proof.
  induction s as [|c s IH]; intros pos i st rest Hi Hrun Hbefore.
  - assert (i = 0) as -> by (cbn in Hi; lia).
    cbn in Hrun. cbn [search_from]. rewrite Hrun. now rewrite Nat.add_0_r.
  - destruct i as [|i].
    + cbn in Hrun. cbn [search_from]. rewrite Hrun. now rewrite Nat.add_0_r.
    + assert (H0 : run ic p (c :: s) start_state = None)
        by (apply (Hbefore 0); lia).
      cbn [search_from]. rewrite H0.
      rewrite (IH (S pos) i st rest).
      * f_equal. f_equal. lia.
      * cbn in Hi. lia.
      * exact Hrun.
      * intros j Hj. apply (Hbefore (S j)). lia.
Qed.

End ReFacts.

(* ===================================================================== *)
(** ** Token extraction *)
(* ===================================================================== *)

Section Extraction.

Import Re.

Lemma extract_tokens_nonempty (code html : str) (encparam encid : option str) :
  extract_tokens code html = Ok (encparam, encid) ->
  exists e i, encparam = Some e /\ encid = Some i /\ e <> [] /\ i <> [].
Proof.
  unfold extract_tokens, search. intros H.
  destruct (search_from true re_enc 0 html) as [m_enc|] eqn:He; [|discriminate].
  destruct (search_from true re_id 0 html) as [m_id|] eqn:Hi; [|discriminate].
  injection H as <- <-.
  apply search_from_inv in He as (i1 & st1 & r1 & _ & Hr1 & _ & ->).
  apply search_from_inv in Hi as (i2 & st2 & r2 & _ & Hr2 & _ & ->).
  apply re_enc_group_nonempty in Hr1 as (e & He & Hne).
  apply re_id_group_nonempty in Hr2 as (i & Hi & Hni).
  exists e, i. cbn in *. auto.
Qed.

Lemma run_open_plus (ic greedy : bool) (cs : cset) (p : list node)
      (c : PyStr.char) (s : str) (st : mstate) :
  run ic (Open :: Plus greedy cs :: p) (c :: s) st
  = if accepts ic cs c
    then more (accepts ic cs) greedy (run ic p) s
              (consume c {| cur := Some []; grp := grp st |})
    else None.
Proof. reflexivity. Qed.

(** The lazy loop of the first pattern stops at the first quote. *)
Lemma more_lazy_to_quote (t : str) :
  forall (acc post : str) (st : mstate),
    cur st = Some acc ->
    Forall (fun c => c <> quote /\ c <> 0x0A%N) t ->
    more (accepts true Any) false (run true [Close; One (Lit quote)])
         (t ++ quote :: post) st
    = Some ({| cur := None; grp := Some (rev acc ++ t) |}, post).
Proof.
  induction t as [|c t IH]; intros acc post st Hcur Hall.
  - cbn [app more run]. rewrite accepts_quote, N.eqb_refl.
    cbn [orelse consume cur]. rewrite Hcur, app_nil_r. reflexivity.
  - inversion Hall as [|? ? [Hq Hn] Hall']; subst.
    cbn [app more run]. rewrite accepts_quote.
    destruct (N.eqb_spec c quote) as [|_]; [contradiction|].
    cbn [orelse accepts].
    destruct (N.eqb_spec c 0x0A%N) as [|_]; [contradiction|].
    cbn [negb]. rewrite (IH (c :: acc) post).
    + cbn [rev]. now rewrite <- app_assoc.
    + unfold consume. now rewrite Hcur.
    + exact Hall'.
Qed.

(** At a spelling of the first marker, the first pattern captures the
    token up to the closing quote. *)
Lemma run_re_enc_token (marker t post : str) :
  same_ignoring_case marker (py "encparam: '") ->
  plain_token t ->
  run true re_enc (marker ++ t ++ quote :: post) start_state
  = Some ({| cur := None; grp := Some t |}, post).
Proof.
  intros Hm [Hne Hall]. unfold re_enc.
  rewrite run_lits; [|reflexivity | now apply lits_accept_ignoring_case].
  destruct t as [|c t]; [contradiction|].
  inversion Hall as [|? ? [Hq Hn] Hall']; subst.
  cbn [app]. rewrite run_open_plus. cbn [accepts].
  destruct (N.eqb_spec c 0x0A%N) as [|_]; [contradiction|].
  cbn [negb]. now rewrite (more_lazy_to_quote t [c] post).
Qed.

Lemma accepts_alnum_table :
  forallb (fun x => implb (ascii_alnum x) (accepts true alnum x))
          (map N.of_nat (seq 0 128)) = true.
Proof. by_running. Qed.

Lemma accepts_alnum (c : PyStr.char) :
  ascii_alnum c = true -> accepts true alnum c = true.
Proof.
  intros H.
  assert (Hlt : (c < 128)%N).
  { unfold ascii_alnum in H.
    repeat match type of H with
           | (_ || _) = true => apply orb_true_iff in H as [H|H]
           | (_ && _) = true => apply andb_true_iff in H as [_ H]
           end; apply N.leb_le in H; lia. }
  pose proof accepts_alnum_table as T. rewrite forallb_forall in T.
  specialize (T c). rewrite H in T. apply T.
  apply in_map_iff. exists (N.to_nat c). split; [apply N2Nat.id|].
  apply in_seq. lia.
Qed.

Lemma run_after_group (s : str) (acc : str) (st : mstate) :
  cur st = Some acc ->
  exists rest,
    run true [Close; One (Lit quote); Opt (Lit 0x20%N)] (quote :: s) st
    = Some ({| cur := None; grp := Some (rev acc) |}, rest).
Proof.
  intros Hcur. cbn [run]. rewrite accepts_quote, N.eqb_refl.
  cbn [consume cur]. rewrite Hcur. cbn [option_map].
  destruct s as [|c s]; [eexists; reflexivity|].
  destruct (accepts true (Lit 0x20%N) c); cbn [orelse consume cur];
    eexists; reflexivity.
Qed.

(** The greedy loop of the second pattern takes every letter and digit
    up to the closing quote. *)
Lemma more_greedy_to_quote (t : str) :
  forall (acc post : str) (st : mstate),
    cur st = Some acc ->
    Forall (fun c => ascii_alnum c = true) t ->
    exists rest,
      more (accepts true alnum) true
           (run true [Close; One (Lit quote); Opt (Lit 0x20%N)])
           (t ++ quote :: post) st
      = Some ({| cur := None; grp := Some (rev acc ++ t) |}, rest).
Proof.
  induction t as [|c t IH]; intros acc post st Hcur Hall.
  - cbn [app more].
    replace (accepts true alnum quote) with false by by_running.
    rewrite app_nil_r. now apply run_after_group.
  - inversion Hall as [|? ? Hc Hall']; subst.
    cbn [app more]. rewrite (accepts_alnum c Hc).
    destruct (IH (c :: acc) post (consume c st)) as (rest & ->).
    + unfold consume. now rewrite Hcur.
    + exact Hall'.
    + exists rest. cbn [orelse rev]. now rewrite <- app_assoc.
Qed.

Lemma run_re_id_token (marker t post : str) :
  same_ignoring_case marker (py "id: '") ->
  alnum_token t ->
  exists rest,
    run true re_id (marker ++ t ++ quote :: post) start_state
    = Some ({| cur := None; grp := Some t |}, rest).
Proof.
  intros Hm [Hne Hall]. unfold re_id.
  rewrite run_lits; [|reflexivity | now apply lits_accept_ignoring_case].
  destruct t as [|c t]; [contradiction|].
  inversion Hall as [|? ? Hc Hall']; subst.
  cbn [app]. rewrite run_open_plus, (accepts_alnum c Hc).
  destruct (more_greedy_to_quote t [c] post
              (consume c {| cur := Some []; grp := grp start_state |}))
    as (rest & ->); [reflexivity | exact Hall' |].
  now exists rest.
Qed.

Lemma skipn_cons_lt {A} (l : list A) (i : nat) (x : A) (t : list A) :
  skipn i l = x :: t -> i <= length l.
Proof.
  intros H. destruct (Nat.le_gt_cases i (length l)) as [|Hgt]; [assumption|].
  rewrite skipn_all2 in H by lia. discriminate.
Qed.

(** Each token is the one at the first position where its own pattern
    matches; the two positions are unrelated. *)
Lemma extract_tokens_first_occurrences
      (code html : str) (i_enc i_id : nat)
      (marker_enc token_enc rest_enc marker_id token_id rest_id : str) :
  skipn i_enc html = marker_enc ++ token_enc ++ quote :: rest_enc ->
  same_ignoring_case marker_enc (py "encparam: '") ->
  plain_token token_enc ->
  no_match_before re_enc html i_enc ->
  skipn i_id html = marker_id ++ token_id ++ quote :: rest_id ->
  same_ignoring_case marker_id (py "id: '") ->
  alnum_token token_id ->
  no_match_before re_id html i_id ->
  extract_tokens code html = Ok (Some token_enc, Some token_id).
Proof.
  intros He Hme Hte Hbe Hi Hmi Hti Hbi.
  pose proof (run_re_enc_token marker_enc token_enc rest_enc Hme Hte) as Hr1.
  destruct (run_re_id_token marker_id token_id rest_id Hmi Hti) as (r2 & Hr2).
  rewrite <- He in Hr1. rewrite <- Hi in Hr2.
  assert (Hle1 : i_enc <= length html).
  { destruct Hte as [Hne _]. destruct marker_enc, token_enc;
      try contradiction; eapply skipn_cons_lt; exact He. }
  assert (Hle2 : i_id <= length html).
  { destruct Hti as [Hne _]. destruct marker_id, token_id;
      try contradiction; eapply skipn_cons_lt; exact Hi. }
  unfold extract_tokens, search.
  rewrite (search_from_first true re_enc html 0 i_enc _ _ Hle1 Hr1 Hbe).
  rewrite (search_from_first true re_id html 0 i_id _ _ Hle2 Hr2 Hbi).
  reflexivity.
Qed.

End Extraction.

(** C6. Whenever [GetNvrEncparam] returns, whatever the entity code and
    whatever page the portal sent, both tokens are strings (group 1 took
    part in both matches) and neither is empty. *)
Theorem C6_tokens_nonempty
        (E : Env) (code : str) (tr tr1 : list event) (encparam encid : option str) :
  GetNvrEncparam E code tr = (Ok (encparam, encid), tr1) ->
  exists e i, encparam = Some e /\ encid = Some i /\ e <> [] /\ i <> [].
Proof.
  rewrite GetNvrEncparam_run. intros H.
  destruct (http_get E tr (portal_request code)) as [html|e]; [|discriminate].
  injection H as H _. exact (extract_tokens_nonempty code html _ _ H).
Qed.

Lemma C6_tokens_nonempty_witness :
  exists e i, Some (py "tok1==") = Some e /\ Some (py "S1") = Some i
              /\ e <> [] /\ i <> [].
Proof.
  apply (C6_tokens_nonempty sample_env sample_code []
           [EvGet (portal_request sample_code)]).
  by_running.
Defined.

(** C7. On a page holding [encparam: 'abc123=='] and [id: 'XYZ9'] the
    extraction returns the pair of the two texts, also when the
    identifier comes first, far from the parameter, and the markers are
    spelt in other letter cases. In general, whatever the page: if at
    some position a spelling (in any letter case) of the first marker is
    followed by a token and a quote, and the first pattern matches at no
    earlier position, and likewise for the second marker at a position
    of its own, then [GetNvrEncparam] returns exactly these two tokens.
    Nothing relates the two positions. *)
Theorem C7_token_extraction :
  (forall code,
      extract_tokens code
        (py "<script>var o = { encparam: 'abc123==', id: 'XYZ9' };</script>")
      = Ok (Some (py "abc123=="), Some (py "XYZ9")))
  /\ (forall code,
         extract_tokens code shuffled_page
         = Ok (Some (py "abc123=="), Some (py "XYZ9")))
  /\ (forall (E : Env) (code : str) (tr : list event) (html : str)
             (i_enc i_id : nat)
             (marker_enc token_enc rest_enc marker_id token_id rest_id : str),
         http_get E tr (portal_request code) = Ok html ->
         skipn i_enc html = marker_enc ++ token_enc ++ quote :: rest_enc ->
         same_ignoring_case marker_enc (py "encparam: '") ->
         plain_token token_enc ->
         no_match_before re_enc html i_enc ->
         skipn i_id html = marker_id ++ token_id ++ quote :: rest_id ->
         same_ignoring_case marker_id (py "id: '") ->
         alnum_token token_id ->
         no_match_before re_id html i_id ->
         GetNvrEncparam E code tr
         = (Ok (Some token_enc, Some token_id),
            tr ++ [EvGet (portal_request code)])).
Proof.
  split; [|split].
  - intros code. by_running.
  - intros code. by_running.
  - intros E code tr html i_enc i_id me te re md td rd
           Hget He Hme Hte Hbe Hi Hmi Hti Hbi.
    rewrite GetNvrEncparam_run, Hget.
    now rewrite (extract_tokens_first_occurrences
                   code html i_enc i_id me te re md td rd).
Qed.

Lemma C7_token_extraction_witness :
  GetNvrEncparam shuffled_env sample_code []
  = (Ok (Some (py "abc123=="), Some (py "XYZ9")),
     [] ++ [EvGet (portal_request sample_code)]).
Proof.
  apply (proj2 (proj2 C7_token_extraction)
               shuffled_env sample_code [] shuffled_page 27 0
               (py "EncParam: '") (py "abc123==") []
               (py "ID: '") (py "XYZ9") (py " <p>far away</p> EncParam: 'abc123=='")).
  - reflexivity.
  - by_running.
  - by_running.
  - split; [discriminate|]. vm_compute.
    repeat constructor; discriminate.
  - intros j Hj.
    do 27 (destruct j as [|j]; [by_running|]). lia.
  - by_running.
  - by_running.
  - split; [discriminate|]. repeat constructor.
  - intros j Hj. lia.
Defined.

(* ===================================================================== *)
(** ** Keying the second table *)
(* ===================================================================== *)

Section Keying.

Lemma existsb_str_eqb (k : str) (l : list str) :
  existsb (PyStr.eqb k) l = true <-> In k l.
Proof.
  rewrite existsb_exists. split.
  - intros (x & Hin & Heq). apply str_eqb_eq in Heq. now subst.
  - intros Hin. exists k. split; [assumption | apply str_eqb_refl].
Qed.

Lemma positions_from_none {A} (f : A -> bool) (l : list A) (i : nat) :
  (forall x, In x l -> f x = false) -> positions_from f i l = [].
Proof.
  revert i. induction l as [|x l IH]; intros i H; cbn; [reflexivity|].
  rewrite (H x (or_introl eq_refl)). apply IH. intros y Hy. apply H. now right.
Qed.

(** A label that stands once in a header has one position. *)
Lemma positions_from_once (k : str) (before after : list str) (i : nat) :
  ~ In k before -> ~ In k after ->
  positions_from (PyStr.eqb k) i (before ++ k :: after) = [i + length before].
Proof.
  revert i. induction before as [|x before IH]; intros i Hb Ha; cbn.
  - rewrite str_eqb_refl, Nat.add_0_r. f_equal.
    apply positions_from_none. intros y Hy. apply str_eqb_neq.
    intros ->. contradiction.
  - destruct (PyStr.eqb k x) eqn:Hx.
    + apply str_eqb_eq in Hx. subst. exfalso. apply Hb. now left.
    + rewrite IH; [f_equal; lia | | assumption].
      intros Hin. apply Hb. now right.
Qed.

Lemma positions_once (k : str) (before after : list str) :
  ~ In k before -> ~ In k after ->
  positions (PyStr.eqb k) (before ++ k :: after) = [length before].
Proof. intros Hb Ha. unfold positions. now rewrite positions_from_once. Qed.

Lemma remove_nth_middle {A} (before after : list A) (x : A) :
  remove_nth (length before) (before ++ x :: after) = before ++ after.
Proof. induction before as [|y before IH]; cbn; [reflexivity | now rewrite IH]. Qed.

Lemma missing_key_is_not_pandas :
  not_one_dimensional <> ValueError msg_missing_key.
Proof. intros H. injection H as H. vm_compute in H. discriminate. Qed.

(** [set_index] never raises the missing-key error of line 85. *)
Lemma set_index_not_missing_key (df : DataFrame Columns) :
  set_index df key_column <> Raise (ValueError msg_missing_key).
Proof.
  unfold set_index.
  destruct (columns df) as [ls|n ts].
  - destruct (positions (PyStr.eqb key_column) ls) as [|j [|j' l]];
      first [ discriminate
            | intros H; injection H as H; now apply missing_key_is_not_pandas ].
  - destruct (positions (heads key_column) ts) as [|j [|j' l]];
      try destruct (forallb _ _);
      first [ discriminate
            | intros H; injection H as H; now apply missing_key_is_not_pandas ].
Qed.

(** Lines 84-86 on a flat header. *)
Lemma key_flat_table (fs : DataFrame Columns) (L : list str) :
  columns fs = Index L ->
  (~ In key_column L ->
   (if negb (has_key (columns fs) key_column)
    then Raise (ValueError msg_missing_key)
    else set_index fs key_column) = Raise (ValueError msg_missing_key))
  /\ (forall before after,
         L = before ++ key_column :: after ->
         ~ In key_column before -> ~ In key_column after ->
         (if negb (has_key (columns fs) key_column)
          then Raise (ValueError msg_missing_key)
          else set_index fs key_column)
         = Ok {| columns := Index (before ++ after);
                 index_name := Some key_column;
                 rows := key_rows (length before) (rows fs) |}).
Proof.
  intros Hc. split.
  - intros Hnot. rewrite Hc. cbn [has_key].
    destruct (existsb (PyStr.eqb key_column) L) eqn:Hex; [|reflexivity].
    apply existsb_str_eqb in Hex. contradiction.
  - intros before after -> Hb Ha. rewrite Hc. cbn [has_key].
    replace (existsb (PyStr.eqb key_column) (before ++ key_column :: after))
      with true.
    + cbn [negb]. unfold set_index. rewrite Hc.
      rewrite (positions_once key_column before after Hb Ha).
      now rewrite remove_nth_middle.
    + symmetry. apply existsb_str_eqb. apply in_elt.
Qed.

Lemma key_second_table_collapsed (fs : DataFrame Columns) (L : list str) :
  collapsed (columns fs) = Some L ->
  (~ In key_column L ->
   key_second_table fs = Raise (ValueError msg_missing_key))
  /\ (forall before after,
         L = before ++ key_column :: after ->
         ~ In key_column before -> ~ In key_column after ->
         key_second_table fs
         = Ok {| columns := Index (before ++ after);
                 index_name := Some key_column;
                 rows := key_rows (length before) (rows fs) |}).
Proof.
  intros Hc. unfold key_second_table, collapse_header.
  destruct (columns fs) as [ls|n ts] eqn:Hcols.
  - cbn in Hc. injection Hc as ->. now apply key_flat_table.
  - destruct n as [|[|[|n]]]; try discriminate.
    cbn in Hc. injection Hc as <-. cbn [droplevel0].
    now apply (key_flat_table
                 {| columns := Index (map (fun t => nth 1 t []) ts);
                    index_name := index_name fs; rows := rows fs |}).
Qed.

Lemma heads_tl (k : str) (t : list str) :
  k <> [] -> heads k (tl t) = PyStr.eqb k (nth 1 t []).
Proof.
  intros Hk. destruct t as [|x [|a t]]; cbn; try reflexivity;
    symmetry; now apply str_eqb_neq.
Qed.

Lemma key_column_nonempty : key_column <> [].
Proof. discriminate. Qed.

(** On a header of three levels or more, [key in columns] after the drop
    looks at the second level of the parsed header. *)
Lemma has_key_after_drop (n : nat) (ts : list (list str)) :
  has_key (MultiIndex n (map (@tl str) ts)) key_column = true
  <-> exists t, In t ts /\ nth 1 t [] = key_column.
Proof.
  cbn [has_key]. rewrite existsb_exists. split.
  - intros (t' & Hin & Hh). apply in_map_iff in Hin as (t & <- & Hin).
    rewrite (heads_tl _ _ key_column_nonempty) in Hh.
    apply str_eqb_eq in Hh. eauto.
  - intros (t & Hin & Heq). exists (tl t). split; [now apply in_map|].
    rewrite (heads_tl _ _ key_column_nonempty). now apply str_eqb_eq.
Qed.

(** Lines 81-85: no label the key check looks at is the key column's
    name, so the check fails. *)
Lemma key_second_table_missing (fs : DataFrame Columns) (L : list str) :
  labels_after_drop (columns fs) = Some L ->
  ~ In key_column L ->
  key_second_table fs = Raise (ValueError msg_missing_key).
Proof.
  intros HL Hnot.
  destruct (columns fs) as [ls|n ts] eqn:Hc.
  - apply (key_second_table_collapsed fs L); [now rewrite Hc | assumption].
  - destruct n as [|[|[|n]]]; try discriminate.
    + apply (key_second_table_collapsed fs L); [now rewrite Hc | assumption].
    + cbn in HL. injection HL as <-.
      unfold key_second_table, collapse_header. rewrite Hc.
      cbn [droplevel0 columns].
      destruct (has_key (MultiIndex (S (S n)) (map (@tl str) ts)) key_column)
        eqn:Hhas; [|reflexivity].
      apply has_key_after_drop in Hhas as (t & Hin & Heq).
      exfalso. apply Hnot. rewrite <- Heq.
      now apply (in_map (fun t => nth 1 t [])).
Qed.

End Keying.

Lemma normalize_second_table
      (E : Env) (raw : str) (tr : list event)
      (tables : list (DataFrame Columns)) (fs : DataFrame Columns) :
  read_html E raw = Ok tables ->
  nth_error tables 1 = Some fs ->
  normalize E raw tr = (key_second_table fs, tr ++ [EvReadHtml raw]).
Proof.
  intros Hread Hnth. rewrite normalize_run, Hread, Hnth.
  destruct tables as [|t0 [|t1 tables]]; try discriminate. reflexivity.
Qed.

(** C2 (amended). If none of the labels the key check looks
    at (the labels of a single-level header, the inner labels of a
    two-level header, the second-level labels of a deeper one) is the
    key column's name, normalization raises the missing-key [ValueError]
    of line 85. If the header is single-level, or two-level (its outer
    level is dropped), and the name stands among its labels exactly
    once, normalization succeeds: that column becomes the row index,
    named after it, and leaves the columns. *)
Theorem C2_normalization_by_key_column
        (E : Env) (raw : str) (tr : list event)
        (tables : list (DataFrame Columns)) (fs : DataFrame Columns) :
  read_html E raw = Ok tables ->
  nth_error tables 1 = Some fs ->
  (forall L,
      labels_after_drop (columns fs) = Some L ->
      ~ In key_column L ->
      normalize E raw tr
      = (Raise (ValueError msg_missing_key), tr ++ [EvReadHtml raw]))
  /\ (forall L before after,
         collapsed (columns fs) = Some L ->
         L = before ++ key_column :: after ->
         ~ In key_column before -> ~ In key_column after ->
         normalize E raw tr
         = (Ok {| columns := Index (before ++ after);
                  index_name := Some key_column;
                  rows := key_rows (length before) (rows fs) |},
            tr ++ [EvReadHtml raw])).
Proof.
  intros Hread Hnth.
  rewrite (normalize_second_table E raw tr tables fs Hread Hnth).
  split.
  - intros L HL Hnot. now rewrite (key_second_table_missing fs L HL Hnot).
  - intros L before after Hc HL Hb Ha.
    now rewrite (proj2 (key_second_table_collapsed fs L Hc) before after HL Hb Ha).
Qed.

Lemma C2_normalization_witness :
  normalize (env_with [banner; annual_table]) sample_raw []
  = (Ok {| columns := Index ([] ++ [py "2022/12"; py "2023/12"]);
           index_name := Some key_column;
           rows := key_rows (length (@nil str)) (rows annual_table) |},
     [] ++ [EvReadHtml sample_raw]).
Proof.
  apply (proj2 (C2_normalization_by_key_column
                  (env_with [banner; annual_table]) sample_raw []
                  [banner; annual_table] annual_table eq_refl eq_refl)
               [key_column; py "2022/12"; py "2023/12"]).
  - reflexivity.
  - reflexivity.
  - intros [].
  - vm_compute. intros [H|[H|[]]]; discriminate.
Defined.

(** Against C2 as the spec states it: two columns of a two-level header
    share the key column's name at the inner level: the name is present
    after the collapse, yet normalization raises (pandas cannot build an
    index from the two columns [fs[key]] selects). *)
Lemma C2_counterexample :
  read_html (env_with [banner; twin_key_table]) sample_raw
  = Ok [banner; twin_key_table]
  /\ collapsed (columns twin_key_table)
     = Some [key_column; key_column; py "2023/12"]
  /\ normalize (env_with [banner; twin_key_table]) sample_raw []
     = (Raise (ValueError (py "Index data must be 1-dimensional")),
        [EvReadHtml sample_raw]).
Proof. repeat split; by_running. Qed.

(** C10 (amended). A multi-level header of the second table
    loses exactly its outermost level, whatever its depth; with more
    than two levels it stays multi-level. On such a header the missing-key
    [ValueError] of line 85 is raised when no column carries the key
    column's name at the second level (the outermost after the drop),
    also when the name stands at a deeper level, and it is not raised
    when some column carries the name at the second level. *)
Theorem C10_deep_header_collapse
        (fs : DataFrame Columns) (n : nat) (ts : list (list str)) :
  columns fs = MultiIndex n ts ->
  2 <= n ->
  collapse_header fs
  = Ok {| columns := match n with
                     | 2 => Index (map (fun t => nth 1 t []) ts)
                     | _ => MultiIndex (n - 1) (map (@tl str) ts)
                     end;
          index_name := index_name fs;
          rows := rows fs |}
  /\ (3 <= n ->
      (forall t, In t ts -> nth 1 t [] <> key_column) ->
      key_second_table fs = Raise (ValueError msg_missing_key))
  /\ (3 <= n ->
      (exists t, In t ts /\ nth 1 t [] = key_column) ->
      key_second_table fs <> Raise (ValueError msg_missing_key)).
Proof.
  intros Hc Hn.
  assert (Hcollapse : collapse_header fs
    = Ok {| columns := match n with
                       | 2 => Index (map (fun t => nth 1 t []) ts)
                       | _ => MultiIndex (n - 1) (map (@tl str) ts)
                       end;
            index_name := index_name fs; rows := rows fs |}).
  { unfold collapse_header. rewrite Hc.
    destruct n as [|[|[|n]]]; try lia; reflexivity. }
  split; [exact Hcollapse|].
  split; intros H3 Hkey; unfold key_second_table; rewrite Hcollapse;
    destruct n as [|[|[|n]]]; try lia; cbn [columns Nat.sub].
  - destruct (has_key (MultiIndex (S (S n)) (map (@tl str) ts)) key_column)
      eqn:Hhas; [|reflexivity].
    apply has_key_after_drop in Hhas as (t & Hin & Heq).
    now destruct (Hkey t Hin).
  - apply has_key_after_drop with (n := S (S n)) in Hkey.
    rewrite Hkey. cbn [negb]. apply set_index_not_missing_key.
Qed.

Lemma C10_deep_header_witness :
  key_second_table deep_table_inner = Raise (ValueError msg_missing_key).
Proof.
  refine (proj1 (proj2 (C10_deep_header_collapse deep_table_inner 3 _ eq_refl _)) _ _).
  - lia.
  - lia.
  - intros t [<-|[<-|[]]]; vm_compute; discriminate.
Defined.

(** Against C10 as the spec states it: a three-level header with the key
    column's name at the middle level; the name is present at an inner
    level, and the error raised is not the missing-key one. *)
Lemma C10_counterexample :
  columns deep_table
  = MultiIndex 3 [[py "재무"; key_column; py "항목"];
                  [py "재무"; py "연간"; py "2023/12"]]
  /\ normalize (env_with [banner; deep_table]) sample_raw []
     = (Raise (ValueError (py "Index data must be 1-dimensional")),
        [EvReadHtml sample_raw])
  /\ ValueError (py "Index data must be 1-dimensional")
     <> ValueError msg_missing_key.
Proof.
  repeat split; try by_running.
  exact missing_key_is_not_pandas.
Qed.

(* ===================================================================== *)
(** ** Selecting the metrics *)
(* ===================================================================== *)

Section Selection.

Lemma cell_eqb_eq (a b : cell) : cell_eqb a b = true <-> a = b.
Proof. unfold cell_eqb. destruct (cell_eq_dec a b); split; congruence. Qed.

Lemma cell_eqb_refl (a : cell) : cell_eqb a a = true.
Proof. now apply cell_eqb_eq. Qed.

Lemma cell_eqb_neq (a b : cell) : cell_eqb a b = false <-> a <> b.
Proof. unfold cell_eqb. destruct (cell_eq_dec a b); split; congruence. Qed.

Lemma cells_eqb_eq (a b : list cell) : cells_eqb a b = true <-> a = b.
Proof.
  unfold cells_eqb. destruct (list_eq_dec cell_eq_dec a b); split; congruence.
Qed.

Lemma existsb_cell_eqb (x : cell) (l : list cell) :
  existsb (cell_eqb x) l = true <-> In x l.
Proof.
  rewrite existsb_exists. split.
  - intros (y & Hin & Heq). apply cell_eqb_eq in Heq. now subst.
  - intros Hin. exists x. split; [assumption | apply cell_eqb_refl].
Qed.

Lemma is_unique_NoDup (l : list cell) : is_unique l = true <-> NoDup l.
Proof.
  induction l as [|x l IH]; cbn.
  - split; [constructor | reflexivity].
  - rewrite andb_true_iff, negb_true_iff, IH. split.
    + intros [Hx Hl]. constructor; [|assumption].
      intros Hin. apply existsb_cell_eqb in Hin. congruence.
    + intros H. inversion H as [|? ? Hx Hl]; subst. split; [|assumption].
      destruct (existsb (cell_eqb x) l) eqn:Hex; [|reflexivity].
      apply existsb_cell_eqb in Hex. contradiction.
Qed.

Lemma filter_id {A} (f : A -> bool) (l : list A) :
  (forall x, In x l -> f x = true) -> filter f l = l.
Proof.
  induction l as [|x l IH]; intros H; cbn; [reflexivity|].
  rewrite (H x (or_introl eq_refl)). f_equal. apply IH.
  intros y Hy. apply H. now right.
Qed.

(** Labels that do not repeat are their own [unique()]. *)
Lemma unique_NoDup (l : list cell) : NoDup l -> unique l = l.
Proof.
  induction 1 as [|x l Hx Hl IH]; cbn; [reflexivity|].
  rewrite IH. f_equal. apply filter_id.
  intros y Hy. apply negb_true_iff, cell_eqb_neq. intros ->. contradiction.
Qed.

Lemma NoDup_filter_cells (f : cell -> bool) (l : list cell) :
  NoDup l -> NoDup (filter f l).
Proof.
  induction 1 as [|x l Hx Hl IH]; cbn; [constructor|].
  destruct (f x); [|assumption].
  constructor; [|assumption]. intros Hin. apply filter_In in Hin. tauto.
Qed.

Lemma map_fst_filter (f : cell -> bool) (rs : list (cell * list cell)) :
  map fst (filter (fun r => f (fst r)) rs) = filter f (map fst rs).
Proof.
  induction rs as [|r rs IH]; cbn; [reflexivity|].
  destruct (f (fst r)); cbn; now rewrite IH.
Qed.

Lemma no_rows_with_label (rs : list (cell * list cell)) (l : cell) :
  ~ In l (map fst rs) -> filter (fun x => cell_eqb l (fst x)) rs = [].
Proof.
  intros H. induction rs as [|x rs IH]; cbn; [reflexivity|].
  destruct (cell_eqb l (fst x)) eqn:Hx.
  - apply cell_eqb_eq in Hx. exfalso. apply H. cbn. now left.
  - apply IH. intros Hin. apply H. now right.
Qed.

(** Under row labels that do not repeat, a row is the only one with its
    label. *)
Lemma rows_with_label (rs : list (cell * list cell)) (r : cell * list cell) :
  NoDup (map fst rs) -> In r rs ->
  filter (fun x => cell_eqb (fst r) (fst x)) rs = [r].
Proof.
  induction rs as [|x rs IH]; intros Hnd Hin; [contradiction|].
  cbn in Hnd. inversion Hnd as [|? ? Hx Hrs]; subst. cbn [filter].
  destruct Hin as [->|Hin].
  - rewrite cell_eqb_refl. f_equal. now apply no_rows_with_label.
  - destruct (cell_eqb (fst r) (fst x)) eqn:Hrx.
    + apply cell_eqb_eq in Hrx. exfalso. apply Hx. rewrite <- Hrx.
      now apply in_map.
    + now apply IH.
Qed.

(** [df.loc[...]] of the labels that pass [f] keeps the rows whose label
    passes [f], in the order of the frame. *)
Lemma flat_map_rows_of (all : list (cell * list cell)) (f : cell -> bool) :
  NoDup (map fst all) ->
  forall rs, incl rs all ->
    flat_map (fun l => filter (fun x => cell_eqb l (fst x)) all)
             (filter f (map fst rs))
    = filter (fun r => f (fst r)) rs.
Proof.
  intros Hnd. induction rs as [|r rs IH]; intros Hincl; cbn; [reflexivity|].
  assert (Hrs : incl rs all) by (intros y Hy; apply Hincl; now right).
  destruct (f (fst r)); cbn; [|now apply IH].
  rewrite (rows_with_label all r Hnd (Hincl r (or_introl eq_refl))).
  cbn. f_equal. now apply IH.
Qed.

Lemma is_metric_text (ms : list str) (m : str) :
  In m ms -> is_metric ms (Text m) = true.
Proof.
  intros H. cbn. apply existsb_exists. exists m. split; [assumption|].
  apply str_eqb_refl.
Qed.

Lemma filter_filter_label (f : cell -> bool) (l : cell)
      (rs : list (cell * list cell)) :
  f l = true ->
  filter (fun x => cell_eqb l (fst x)) (filter (fun r => f (fst r)) rs)
  = filter (fun x => cell_eqb l (fst x)) rs.
Proof.
  intros Hf. induction rs as [|r rs IH]; cbn; [reflexivity|].
  destruct (f (fst r)) eqn:Hr; cbn.
  - now rewrite IH.
  - destruct (cell_eqb l (fst r)) eqn:Hl; [|exact IH].
    apply cell_eqb_eq in Hl. congruence.
Qed.

Lemma select_rows (df : DataFrame Columns) (ms : list str) :
  NoDup (index df) ->
  select df ms
  = Ok {| columns := columns df;
          index_name := index_name df;
          rows := map (selected_row df) ms |}.
Proof.
  intros Hnd. unfold select, intersection.
  set (f := is_metric ms).
  rewrite (unique_NoDup _ (NoDup_filter_cells f _ Hnd)).
  unfold loc.
  replace (forallb _ (filter f (index df))) with true.
  2:{ symmetry. apply forallb_forall. intros l Hl.
      apply existsb_cell_eqb. apply filter_In in Hl. tauto. }
  unfold rows_of at 1. unfold index at 1.
  rewrite (flat_map_rows_of (rows df) f Hnd (rows df) (incl_refl _)).
  set (sel := {| columns := columns df; index_name := index_name df;
                 rows := filter (fun r => f (fst r)) (rows df) |}).
  assert (Hsel_index : index sel = filter f (index df))
    by apply map_fst_filter.
  unfold reindex.
  destruct (cells_eqb (index sel) (map Text ms)) eqn:Heq.
  - apply cells_eqb_eq in Heq. f_equal. unfold sel. f_equal.
    change (filter (fun r => f (fst r)) (rows df)) with (rows sel).
    rewrite <- (map_map Text (fun l => (l, row_or_nan df (ncols (columns df)) l))).
    rewrite <- Heq. unfold index. rewrite map_map.
    rewrite <- (map_id (rows sel)) at 1. apply map_ext_in.
    intros r Hr. cbn in Hr. apply filter_In in Hr as [Hr _].
    unfold row_or_nan, rows_of.
    rewrite (rows_with_label (rows df) r Hnd Hr). now destruct r.
  - replace (is_unique (index sel)) with true.
    2:{ symmetry. apply is_unique_NoDup. rewrite Hsel_index.
        now apply NoDup_filter_cells. }
    f_equal. cbn [columns index_name]. f_equal.
    rewrite map_map. apply map_ext_in. intros m Hm.
    unfold selected_row. f_equal. unfold row_or_nan, rows_of. cbn [rows sel].
    now rewrite (filter_filter_label f (Text m) (rows df) (is_metric_text ms m Hm)).
Qed.

Lemma row_or_nan_absent (df : DataFrame Columns) (n : nat) (l : cell) :
  ~ In l (index df) -> row_or_nan df n l = nan_row n.
Proof.
  intros H. unfold row_or_nan, rows_of. now rewrite no_rows_with_label.
Qed.

Lemma row_or_nan_present (df : DataFrame Columns) (n : nat) (l : cell)
      (row : list cell) :
  NoDup (index df) -> In (l, row) (rows df) -> row_or_nan df n l = row.
Proof.
  intros Hnd Hin. unfold row_or_nan, rows_of.
  pose proof (rows_with_label (rows df) (l, row) Hnd Hin) as H.
  cbn [fst] in H. now rewrite H.
Qed.

(** Reordering the rows of a frame whose labels do not repeat changes no
    looked-up row. *)
Lemma row_or_nan_permutation (df df' : DataFrame Columns) (n : nat) (l : cell) :
  NoDup (index df) -> Permutation (rows df') (rows df) ->
  row_or_nan df' n l = row_or_nan df n l.
Proof.
  intros Hnd Hperm.
  assert (Hnd' : NoDup (index df')).
  { unfold index. eapply Permutation_NoDup; [|exact Hnd].
    apply Permutation_map. now symmetry. }
  destruct (in_dec cell_eq_dec l (index df)) as [Hin|Hout].
  - unfold index in Hin. apply in_map_iff in Hin as ([l' row] & Hl & Hin).
    cbn in Hl. subst l'.
    rewrite (row_or_nan_present df n l row Hnd Hin).
    apply row_or_nan_present; [assumption|].
    eapply Permutation_in; [symmetry; exact Hperm | exact Hin].
  - rewrite (row_or_nan_absent df n l Hout).
    apply row_or_nan_absent. intros Hin. apply Hout.
    unfold index in *. eapply Permutation_in; [|exact Hin].
    now apply Permutation_map.
Qed.

End Selection.

(** C3. On a normalized table (its metric names do not repeat) and for
    every list of requested metrics, the selection of lines 107-108
    succeeds and returns one row per requested metric, in the order of
    the request: the table's own row of that metric where it has one,
    a row of missing values, one per column, where it has none. The
    result does not depend on the order of the table's rows. *)
Theorem C3_select_in_requested_order (df : DataFrame Columns) (ms : list str) :
  NoDup (index df) ->
  select df ms
  = Ok {| columns := columns df;
          index_name := index_name df;
          rows := map (selected_row df) ms |}
  /\ (forall m, ~ In (Text m) (index df) ->
                selected_row df m = (Text m, nan_row (ncols (columns df))))
  /\ (forall m row, In (Text m, row) (rows df) ->
                    selected_row df m = (Text m, row))
  /\ (forall df', columns df' = columns df ->
                  index_name df' = index_name df ->
                  Permutation (rows df') (rows df) ->
                  select df' ms = select df ms).
Proof.
  intros Hnd. repeat split.
  - now apply select_rows.
  - intros m Hm. unfold selected_row. now rewrite row_or_nan_absent.
  - intros m row Hin. unfold selected_row.
    now rewrite (row_or_nan_present df _ (Text m) row Hnd Hin).
  - intros df' Hc Hn Hperm.
    assert (Hnd' : NoDup (index df')).
    { unfold index. eapply Permutation_NoDup; [|exact Hnd].
      apply Permutation_map. now symmetry. }
    rewrite (select_rows df ms Hnd), (select_rows df' ms Hnd'), Hc, Hn.
    do 2 f_equal. apply map_ext. intros m. unfold selected_row. rewrite Hc.
    f_equal. now apply row_or_nan_permutation.
Qed.

(** The spec's example: metrics [A, B, C] on a table holding B, then A. *)
Lemma C3_select_witness :
  select table_BA [py "A"; py "B"; py "C"]
  = Ok {| columns := Index [py "2023"];
          index_name := Some (py "Metric");
          rows := [(Text (py "A"), [Num 1]);
                   (Text (py "B"), [Num 2]);
                   (Text (py "C"), [NaN])] |}.
Proof.
  refine (proj1 (C3_select_in_requested_order table_BA
                   [py "A"; py "B"; py "C"] _)).
  apply is_unique_NoDup. reflexivity.
Defined.

(* ===================================================================== *)
(** ** Prefixing and merging *)
(* ===================================================================== *)

Section Merging.

Lemma length_labels_of (c : Columns) : length (labels_of c) = ncols c.
Proof. destruct c; cbn; apply length_map. Qed.

(** Lines 114-115 always succeed: one new name per column. *)
Lemma prefix_columns_ok (E : Env) (tag : str) (df : DataFrame Columns) :
  prefix_columns E tag df
  = Ok {| columns := map (fun col => tag ++ format_label E col)
                         (labels_of (columns df));
          index_name := index_name df;
          rows := rows df |}.
Proof.
  unfold prefix_columns, set_columns.
  now rewrite length_map, length_labels_of, Nat.eqb_refl.
Qed.

(** A selection that succeeds is indexed by the requested metrics and
    keeps the header. *)
Lemma select_shape (df sel : DataFrame Columns) (ms : list str) :
  select df ms = Ok sel ->
  index sel = map Text ms
  /\ columns sel = columns df /\ index_name sel = index_name df.
Proof.
  unfold select, loc.
  destruct (forallb _ _); [|discriminate].
  unfold reindex.
  match goal with |- context [cells_eqb ?a ?b] =>
    destruct (cells_eqb a b) eqn:Heq end.
  - apply cells_eqb_eq in Heq. intros H. injection H as <-. auto.
  - match goal with |- context [is_unique ?a] => destruct (is_unique a) end;
      [|discriminate].
    intros H. injection H as <-. unfold index. cbn [rows columns index_name].
    rewrite map_map. cbn [fst]. now rewrite map_id.
Qed.

Lemma combine_same_labels (ra rb : list (cell * list cell)) :
  map fst ra = map fst rb ->
  combine (map fst ra)
          (map (fun r => fst r ++ snd r) (combine (map snd ra) (map snd rb)))
  = map (fun p => (fst (fst p), snd (fst p) ++ snd (snd p))) (combine ra rb).
Proof.
  revert rb. induction ra as [|x ra IH]; intros [|y rb] H; try discriminate;
    cbn; [reflexivity|].
  cbn in H. injection H as _ H. now rewrite IH.
Qed.

(** Line 118 on two frames with the same row labels: the rows are
    joined position by position and no label moves. *)
Lemma concat_same_index (a b : DataFrame (list str)) :
  index a = index b ->
  concat_axis1 a b
  = Ok {| columns := columns a ++ columns b;
          index_name := match index_name a, index_name b with
                        | Some x, Some y => if PyStr.eqb x y then Some x else None
                        | _, _ => None
                        end;
          rows := map (fun p => (fst (fst p), snd (fst p) ++ snd (snd p)))
                      (combine (rows a) (rows b)) |}.
Proof.
  intros H. unfold concat_axis1, align.
  replace (cells_eqb (index a) (index b)) with true
    by (symmetry; now apply cells_eqb_eq).
  replace (cells_eqb (index a) (index a)) with true
    by (symmetry; now apply cells_eqb_eq).
  replace (cells_eqb (index b) (index a)) with true
    by (symmetry; now apply cells_eqb_eq).
  f_equal. f_equal. now apply combine_same_labels.
Qed.

Lemma prefix_tags_differ (l : str) :
  PyStr.startswith (py "Y_") l = true -> PyStr.startswith (py "Q_") l = false.
Proof.
  change (py "Y_") with [89; 95]%N. change (py "Q_") with [81; 95]%N.
  destruct l as [|c l]; [discriminate|]. cbn [PyStr.startswith].
  destruct (N.eqb_spec 89 c) as [<-|]; [reflexivity | discriminate].
Qed.

End Merging.

(* ===================================================================== *)
(** ** How [main] runs *)
(* ===================================================================== *)

(** Lines 120-128 step by step: a directory that cannot be created
    ends the run before [to_csv], a file that cannot be written ends
    it before the report. *)
Lemma save_run (E : Env) (code : str) (merged : DataFrame (list str))
      (tr : list event) :
  save E code merged tr =
  let output_path := path_join (py "output") (code ++ py ".csv") in
  match makedirs E tr (py "output") with
  | Raise e => (Raise e, tr ++ [EvMakedirs (py "output")])
  | Ok _ =>
    match to_csv E (tr ++ [EvMakedirs (py "output")]) output_path merged
                 (py "utf-8-sig") with
    | Raise e =>
      (Raise e, tr ++ [EvMakedirs (py "output");
                       EvToCsv output_path merged (py "utf-8-sig")])
    | Ok _ => (Ok tt, tr ++ closing_events code merged)
    end
  end.
Proof.
  unfold save, bind, os_makedirs, df_to_csv, print, emit, closing_events.
  cbv zeta.
  destruct (makedirs E tr (py "output")); [|reflexivity].
  destruct (to_csv E _ _ merged _); now rewrite <- !app_assoc.
Qed.

(** Lines 120-128 that return have done the three closing steps. *)
Lemma save_ok (E : Env) (code : str) (merged : DataFrame (list str))
      (tr tr' : list event) :
  save E code merged tr = (Ok tt, tr') ->
  tr' = tr ++ closing_events code merged.
Proof.
  rewrite save_run. cbv zeta.
  destruct (makedirs E tr (py "output")); [|discriminate].
  destruct (to_csv E _ _ merged _); [|discriminate].
  now intros H; injection H as <-.
Qed.

(** Lines 120-128 send nothing and parse nothing. *)
Lemma save_events (E : Env) (code : str) (merged : DataFrame (list str))
      (tr : list event) :
  exists evs,
    snd (save E code merged tr) = tr ++ evs
    /\ requests evs = [].
Proof.
  rewrite save_run. cbv zeta.
  destruct (makedirs E tr (py "output")); [|eexists; split; reflexivity].
  destruct (to_csv E _ _ merged _); eexists; split; reflexivity.
Qed.

Lemma main_run (E : Env) (prog arg : str) (tr : list event) :
  main E [prog; arg] tr =
  let code := PyStr.strip arg in
  match GetNvrFin E code (py "Y") tr with
  | (Raise e, t1) => (Raise e, t1)
  | (Ok df_all, t1) =>
    match GetNvrFin E code (py "Q") t1 with
    | (Raise e, t2) => (Raise e, t2)
    | (Ok df_qtr, t2) =>
      match select_prefix_merge E metrics df_all df_qtr with
      | Raise e => (Raise e, t2)
      | Ok merged => save E code merged t2
      end
    end
  end.
Proof.
  unfold main. cbn [length Nat.eqb negb nth]. cbv zeta.
  unfold bind at 1.
  destruct (GetNvrFin E (PyStr.strip arg) (py "Y") tr) as [[a|e] t1];
    [|reflexivity].
  unfold bind at 1.
  destruct (GetNvrFin E (PyStr.strip arg) (py "Q") t1) as [[q|e] t2];
    [|reflexivity].
  unfold bind at 1, lift.
  now destruct (select_prefix_merge E metrics a q) as [merged|e].
Qed.

(** A fetch adds requests and parser calls to the trace, nothing else. *)
Lemma GetNvrFin_events (E : Env) (code f : str) (tr tr' : list event) r :
  GetNvrFin E code f tr = (r, tr') ->
  exists evs, tr' = tr ++ evs /\ Forall fetch_event evs.
Proof.
  destruct (GetNvrEncparam E code tr) as [[toks|e] tr1] eqn:Htok;
    pose proof (GetNvrEncparam_trace E code tr tr1 _ Htok) as ->.
  - rewrite (GetNvrFin_after_tokens E code f tr _ toks Htok). cbv zeta.
    destruct (http_get E _ _) as [raw|e].
    + destruct (blank raw).
      * intros H. injection H as _ <-. rewrite <- app_assoc.
        eexists. split; [reflexivity|]. repeat constructor.
      * rewrite normalize_run. intros H. injection H as _ <-.
        rewrite <- !app_assoc. eexists. split; [reflexivity|].
        repeat constructor.
    + intros H. injection H as _ <-. rewrite <- app_assoc.
      eexists. split; [reflexivity|]. repeat constructor.
  - rewrite (GetNvrFin_no_tokens E code f tr _ e Htok).
    intros H. injection H as _ <-.
    eexists. split; [reflexivity|]. repeat constructor.
Qed.

Lemma skipn_length_app {A} (l1 l2 : list A) : skipn (length l1) (l1 ++ l2) = l2.
Proof. induction l1; [reflexivity | assumption]. Qed.

Lemma written_fetch_events (evs : list event) :
  Forall fetch_event evs -> written evs = [].
Proof.
  induction 1 as [|ev evs Hev _ IH]; [reflexivity|].
  destruct ev; try contradiction; exact IH.
Qed.

(** C4. The spec's end-to-end scenario, for any two cell values (the
    spec has 100 and 10): with metrics [Revenue, OperatingProfit], an
    annual table holding only Revenue under column 2023 and a quarterly
    table holding only OperatingProfit under column 2023Q4, lines
    107-118 produce the columns Y_2023 and Q_2023Q4 and the rows
    Revenue = [value, missing] and OperatingProfit = [missing, value]. *)
Theorem C4_end_to_end_merge (E : Env) (v_annual v_quarterly : cell) :
  select_prefix_merge E [py "Revenue"; py "OperatingProfit"]
                      (revenue_only v_annual) (profit_only v_quarterly)
  = Ok {| columns := [py "Y_2023"; py "Q_2023Q4"];
          index_name := Some key_column;
          rows := [(Text (py "Revenue"), [v_annual; NaN]);
                   (Text (py "OperatingProfit"), [NaN; v_quarterly])] |}.
Proof. by_running. Qed.

(* ===================================================================== *)
(** ** Renaming in place *)
(* ===================================================================== *)

Section FramesAsObjects.

Lemma deref_update_same (s : Store) (r : ref) (old df : DataFrame Columns) :
  deref s r = Some old -> deref (update s r df) r = Some df.
Proof.
  unfold deref. revert r. induction s as [|x s IH]; intros [|r] H; cbn in *;
    try discriminate; [reflexivity | now apply IH].
Qed.

Lemma deref_update_other (s : Store) (r r' : ref) (df : DataFrame Columns) :
  r <> r' -> deref (update s r df) r' = deref s r'.
Proof.
  unfold deref. revert r r'.
  induction s as [|x s IH]; intros [|r] [|r'] H; cbn; try reflexivity;
    [contradiction | apply IH; congruence].
Qed.

Lemma deref_alloc_old (s : Store) (r : ref) (old df : DataFrame Columns) :
  deref s r = Some old -> deref (s ++ [df]) r = Some old.
Proof.
  unfold deref. intros H. rewrite nth_error_app1; [assumption|].
  apply nth_error_Some. congruence.
Qed.

Lemma deref_alloc_new (s : Store) (df : DataFrame Columns) :
  deref (s ++ [df]) (length s) = Some df.
Proof.
  unfold deref. rewrite nth_error_app2, Nat.sub_diag by lia. reflexivity.
Qed.

Lemma deref_bound (s : Store) (r : ref) (df : DataFrame Columns) :
  deref s r = Some df -> r < length s.
Proof. unfold deref. intros H. apply nth_error_Some. congruence. Qed.

(** Line 114 (or 115) on a frame: the frame at [r] is the renamed one
    afterwards. *)
Lemma assign_prefixed_run (E : Env) (tag : str) (r : ref) (s : Store)
      (df : DataFrame Columns) :
  deref s r = Some df ->
  assign_prefixed E tag r s = Some (Ok tt, update s r (prefixed E tag df)).
Proof.
  intros H. unfold assign_prefixed. rewrite H, prefix_columns_ok. reflexivity.
Qed.

(** Lines 113-118 on two distinct frames: what [main] computes from
    their contents, and both frames renamed. *)
Lemma merge_in_place_run (E : Env) (s : Store) (r_a r_q : ref)
      (a q : DataFrame Columns) :
  deref s r_a = Some a -> deref s r_q = Some q -> r_a <> r_q ->
  merge_in_place E r_a r_q s
  = Some (merge E a q,
          update (update s r_a (prefixed E (py "Y_") a)) r_q
                 (prefixed E (py "Q_") q)).
Proof.
  intros Ha Hq Hne. unfold merge_in_place.
  rewrite (assign_prefixed_run E _ r_a s a Ha).
  assert (Hq1 : deref (update s r_a (prefixed E (py "Y_") a)) r_q = Some q)
    by (now rewrite deref_update_other).
  rewrite (assign_prefixed_run E _ r_q _ q Hq1).
  rewrite (deref_update_same _ r_q q _ Hq1).
  rewrite deref_update_other by congruence.
  rewrite (deref_update_same s r_a a _ Ha).
  unfold merge. rewrite !prefix_columns_ok. reflexivity.
Qed.

(** Lines 113-118 on two frames with the same row labels. *)
Lemma merge_same_index (E : Env) (a q : DataFrame Columns) :
  index a = index q ->
  merge E a q
  = Ok (side_by_side (prefixed_names E (py "Y_") a)
                     (prefixed_names E (py "Q_") q) a q).
Proof.
  intros H. unfold merge. rewrite !prefix_columns_ok.
  now rewrite concat_same_index.
Qed.

(** A frame that has its names already is given its names with the tag
    in front. *)
Lemma prefixed_names_again (E : Env) (tag tag' : str) (df : DataFrame Columns) :
  prefixed_names E tag (prefixed E tag' df)
  = map (app tag) (prefixed_names E tag' df).
Proof.
  unfold prefixed_names at 1. cbn [prefixed columns labels_of].
  rewrite map_map. reflexivity.
Qed.

Lemma prefixed_names_tagged (E : Env) (tag : str) (df : DataFrame Columns) :
  Forall (fun l => PyStr.startswith tag l = true) (prefixed_names E tag df).
Proof.
  apply Forall_forall. intros l Hl. apply in_map_iff in Hl as (c & <- & _).
  apply startswith_app.
Qed.

(** A name with a tag in front is another name. *)
Lemma tagged_names_differ (ys qs : list str) (ty tq : str) :
  ty <> [] -> tq <> [] -> ys ++ qs <> [] ->
  map (app ty) ys ++ map (app tq) qs <> ys ++ qs.
Proof.
  intros Hy Hq Hne H.
  assert (Hlen : forall (t l : str), t <> [] -> t ++ l <> l).
  { intros t l Ht Heq. apply (f_equal (@length _)) in Heq.
    rewrite length_app in Heq. destruct t; [contradiction | cbn in Heq; lia]. }
  destruct ys as [|y ys]; cbn in H.
  - destruct qs as [|x qs]; [contradiction|]. cbn in H.
    injection H as H _. exact (Hlen tq x Hq H).
  - injection H as H _. exact (Hlen ty y Hy H).
Qed.

(** Lines 107-118 on two fetched tables: what [main] computes from
    their contents; the two tables are as before. *)
Lemma select_merge_in_place_run (E : Env) (ms : list str) (s : Store)
      (r_all r_qtr : ref) (df_all df_qtr : DataFrame Columns) :
  deref s r_all = Some df_all -> deref s r_qtr = Some df_qtr ->
  exists s1,
    select_merge_in_place E ms r_all r_qtr s
    = Some (select_prefix_merge E ms df_all df_qtr, s1)
    /\ deref s1 r_all = Some df_all /\ deref s1 r_qtr = Some df_qtr.
Proof.
  intros Ha Hq. unfold select_merge_in_place, select_new, select_prefix_merge.
  rewrite Ha. destruct (select df_all ms) as [sa|e]; [|now exists s].
  cbn [alloc fst snd].
  rewrite (deref_alloc_old s r_qtr df_qtr sa Hq).
  destruct (select df_qtr ms) as [sq|e].
  - cbn [alloc fst snd]. rewrite length_app. cbn [length].
    pose proof (deref_bound s r_all df_all Ha) as Hba.
    pose proof (deref_bound s r_qtr df_qtr Hq) as Hbq.
    rewrite (merge_in_place_run E _ (length s) (length s + 1) sa sq).
    + eexists. split; [reflexivity|].
      rewrite !deref_update_other by lia.
      split; apply deref_alloc_old; now apply deref_alloc_old.
    + apply deref_alloc_old, deref_alloc_new.
    + replace (length s + 1) with (length (s ++ [sa]))
        by (rewrite length_app; reflexivity).
      apply deref_alloc_new.
    + lia.
  - exists (s ++ [sa]). repeat split; now apply deref_alloc_old.
Qed.

End FramesAsObjects.

(** C9 (amended). The merge step on two projected tables held in two
    distinct frames with the same row labels (what the selection
    returns) produces a table: the columns of the annual frame, each
    with [Y_] in front, followed by those of the quarterly frame, each
    with [Q_] in front, the rows joined label by label; no name starts
    with both tags, and the table depends on the contents of the two
    frames only, not on where they are held. The step renames its two
    frames in place: run again on the same two frames it puts the tags
    in front a second time, and the second table differs from the first
    as soon as there is a column. Selection and merge together, from
    the two fetched tables, can be run again with the same result: the
    selection builds new frames and the fetched tables are left as they
    were; and whenever both selections succeed the merge succeeds. *)
Theorem C9_merge_renames_in_place :
  (forall (E : Env) (s : Store) (r_a r_q : ref) (a q : DataFrame Columns),
      deref s r_a = Some a -> deref s r_q = Some q -> r_a <> r_q ->
      index a = index q ->
      let ys := prefixed_names E (py "Y_") a in
      let qs := prefixed_names E (py "Q_") q in
      let s' := update (update s r_a (prefixed E (py "Y_") a)) r_q
                       (prefixed E (py "Q_") q) in
      merge_in_place E r_a r_q s = Some (Ok (side_by_side ys qs a q), s')
      /\ merge E a q = Ok (side_by_side ys qs a q)
      /\ Forall (fun l => PyStr.startswith (py "Y_") l = true) ys
      /\ Forall (fun l => PyStr.startswith (py "Q_") l = true) qs
      /\ (forall l, PyStr.startswith (py "Y_") l = true ->
                    PyStr.startswith (py "Q_") l = false)
      /\ (forall (t : Store) (r_a' r_q' : ref),
             deref t r_a' = Some a -> deref t r_q' = Some q -> r_a' <> r_q' ->
             option_map fst (merge_in_place E r_a' r_q' t)
             = Some (Ok (side_by_side ys qs a q)))
      /\ (exists s'',
             merge_in_place E r_a r_q s'
             = Some (Ok (side_by_side (map (app (py "Y_")) ys)
                                      (map (app (py "Q_")) qs) a q), s''))
      /\ (ys ++ qs <> [] ->
          side_by_side (map (app (py "Y_")) ys) (map (app (py "Q_")) qs) a q
          <> side_by_side ys qs a q))
  /\ (forall (E : Env) (ms : list str) (s : Store) (r_all r_qtr : ref)
             (df_all df_qtr : DataFrame Columns),
         deref s r_all = Some df_all -> deref s r_qtr = Some df_qtr ->
         (exists s1 s2,
             select_merge_in_place E ms r_all r_qtr s
             = Some (select_prefix_merge E ms df_all df_qtr, s1)
             /\ deref s1 r_all = Some df_all /\ deref s1 r_qtr = Some df_qtr
             /\ select_merge_in_place E ms r_all r_qtr s1
                = Some (select_prefix_merge E ms df_all df_qtr, s2))
         /\ (forall sa sq,
                select df_all ms = Ok sa -> select df_qtr ms = Ok sq ->
                select_prefix_merge E ms df_all df_qtr
                = Ok (side_by_side (prefixed_names E (py "Y_") sa)
                                   (prefixed_names E (py "Q_") sq) sa sq))).
Proof.
  split.
  - intros E s r_a r_q a q Ha Hq Hne Hidx ys qs s'.
    pose proof (merge_same_index E a q Hidx) as Hm. fold ys qs in Hm.
    repeat split.
    + unfold s'. now rewrite (merge_in_place_run E s r_a r_q a q Ha Hq Hne), Hm.
    + exact Hm.
    + apply prefixed_names_tagged.
    + apply prefixed_names_tagged.
    + exact prefix_tags_differ.
    + intros t r_a' r_q' Ha' Hq' Hne'.
      now rewrite (merge_in_place_run E t r_a' r_q' a q Ha' Hq' Hne'), Hm.
    + assert (Hq1 : deref s' r_q = Some (prefixed E (py "Q_") q)).
      { unfold s'. apply (deref_update_same _ r_q q).
        now rewrite deref_update_other. }
      assert (Ha1 : deref s' r_a = Some (prefixed E (py "Y_") a)).
      { unfold s'. rewrite deref_update_other by congruence.
        now apply (deref_update_same s r_a a). }
      eexists.
      rewrite (merge_in_place_run E s' r_a r_q _ _ Ha1 Hq1 Hne).
      rewrite (merge_same_index E (prefixed E (py "Y_") a)
                                (prefixed E (py "Q_") q) Hidx).
      rewrite !prefixed_names_again.
      reflexivity.
    + intros Hne' H. apply (f_equal (@columns _)) in H. cbn [side_by_side columns] in H.
      revert H. apply tagged_names_differ; [discriminate | discriminate | exact Hne'].
  - intros E ms s r_all r_qtr df_all df_qtr Ha Hq. split.
    + destruct (select_merge_in_place_run E ms s r_all r_qtr df_all df_qtr Ha Hq)
        as (s1 & Hrun & Ha1 & Hq1).
      destruct (select_merge_in_place_run E ms s1 r_all r_qtr df_all df_qtr Ha1 Hq1)
        as (s2 & Hrun2 & _).
      now exists s1, s2.
    + intros sa sq Hsa Hsq. unfold select_prefix_merge. rewrite Hsa, Hsq.
      apply merge_same_index.
      destruct (select_shape df_all sa ms Hsa) as (-> & _).
      now destruct (select_shape df_qtr sq ms Hsq) as (-> & _).
Qed.

(** The end-to-end scenario of the spec, with its two projected tables
    in two frames, and with its two tables as fetched. *)
Lemma C9_merge_witness :
  (let ys := prefixed_names sample_env (py "Y_") projected_annual in
   let qs := prefixed_names sample_env (py "Q_") projected_quarterly in
   let s' := update (update two_frames 0 (prefixed sample_env (py "Y_")
                                                   projected_annual))
                    1 (prefixed sample_env (py "Q_") projected_quarterly) in
   merge_in_place sample_env 0 1 two_frames
   = Some (Ok (side_by_side ys qs projected_annual projected_quarterly), s')
   /\ merge sample_env projected_annual projected_quarterly
      = Ok (side_by_side ys qs projected_annual projected_quarterly)
   /\ Forall (fun l => PyStr.startswith (py "Y_") l = true) ys
   /\ Forall (fun l => PyStr.startswith (py "Q_") l = true) qs
   /\ (forall l, PyStr.startswith (py "Y_") l = true ->
                 PyStr.startswith (py "Q_") l = false)
   /\ (forall (t : Store) (r_a' r_q' : ref),
          deref t r_a' = Some projected_annual ->
          deref t r_q' = Some projected_quarterly -> r_a' <> r_q' ->
          option_map fst (merge_in_place sample_env r_a' r_q' t)
          = Some (Ok (side_by_side ys qs projected_annual projected_quarterly)))
   /\ (exists s'',
          merge_in_place sample_env 0 1 s'
          = Some (Ok (side_by_side (map (app (py "Y_")) ys)
                                   (map (app (py "Q_")) qs)
                                   projected_annual projected_quarterly), s''))
   /\ (ys ++ qs <> [] ->
       side_by_side (map (app (py "Y_")) ys) (map (app (py "Q_")) qs)
                    projected_annual projected_quarterly
       <> side_by_side ys qs projected_annual projected_quarterly))
  /\ ((exists s1 s2,
          select_merge_in_place sample_env [py "Revenue"; py "OperatingProfit"]
                                0 1
                                [revenue_only (Text (py "100"));
                                 profit_only (Text (py "10"))]
          = Some (select_prefix_merge sample_env
                    [py "Revenue"; py "OperatingProfit"]
                    (revenue_only (Text (py "100")))
                    (profit_only (Text (py "10"))), s1)
          /\ deref s1 0 = Some (revenue_only (Text (py "100")))
          /\ deref s1 1 = Some (profit_only (Text (py "10")))
          /\ select_merge_in_place sample_env
               [py "Revenue"; py "OperatingProfit"] 0 1 s1
             = Some (select_prefix_merge sample_env
                       [py "Revenue"; py "OperatingProfit"]
                       (revenue_only (Text (py "100")))
                       (profit_only (Text (py "10"))), s2))
      /\ (forall sa sq,
             select (revenue_only (Text (py "100")))
                    [py "Revenue"; py "OperatingProfit"] = Ok sa ->
             select (profit_only (Text (py "10")))
                    [py "Revenue"; py "OperatingProfit"] = Ok sq ->
             select_prefix_merge sample_env
               [py "Revenue"; py "OperatingProfit"]
               (revenue_only (Text (py "100"))) (profit_only (Text (py "10")))
             = Ok (side_by_side (prefixed_names sample_env (py "Y_") sa)
                                (prefixed_names sample_env (py "Q_") sq)
                                sa sq))).
Proof.
  split.
  - apply (proj1 C9_merge_renames_in_place sample_env two_frames 0 1
                 projected_annual projected_quarterly).
    + reflexivity.
    + reflexivity.
    + discriminate.
    + reflexivity.
  - apply (proj2 C9_merge_renames_in_place sample_env
                 [py "Revenue"; py "OperatingProfit"]
                 [revenue_only (Text (py "100")); profit_only (Text (py "10"))]
                 0 1).
    + reflexivity.
    + reflexivity.
Defined.

(** Against C9 as the spec states it: the two projected tables of the
    spec's scenario in two frames. The merge step gives the columns
    [Y_2023] and [Q_2023Q4] and leaves the two frames under these
    names; the merge step run again on the same two frames gives the
    columns [Y_Y_2023] and [Q_Q_2023Q4]. *)
Lemma C9_counterexample :
  merge_in_place sample_env 0 1 two_frames
  = Some (Ok {| columns := [py "Y_2023"; py "Q_2023Q4"];
                index_name := Some key_column;
                rows := [(Text (py "Revenue"), [Text (py "100"); NaN]);
                         (Text (py "OperatingProfit"), [NaN; Text (py "10")])] |},
          [{| columns := Index [py "Y_2023"];
              index_name := Some key_column;
              rows := rows projected_annual |};
           {| columns := Index [py "Q_2023Q4"];
              index_name := Some key_column;
              rows := rows projected_quarterly |}])
  /\ merge_in_place sample_env 0 1
       [{| columns := Index [py "Y_2023"];
           index_name := Some key_column;
           rows := rows projected_annual |};
        {| columns := Index [py "Q_2023Q4"];
           index_name := Some key_column;
           rows := rows projected_quarterly |}]
     = Some (Ok {| columns := [py "Y_Y_2023"; py "Q_Q_2023Q4"];
                   index_name := Some key_column;
                   rows := [(Text (py "Revenue"), [Text (py "100"); NaN]);
                            (Text (py "OperatingProfit"),
                             [NaN; Text (py "10")])] |},
             [{| columns := Index [py "Y_Y_2023"];
                 index_name := Some key_column;
                 rows := rows projected_annual |};
              {| columns := Index [py "Q_Q_2023Q4"];
                 index_name := Some key_column;
                 rows := rows projected_quarterly |}])
  /\ [py "Y_Y_2023"; py "Q_Q_2023Q4"] <> [py "Y_2023"; py "Q_2023Q4"].
Proof. repeat split; try by_running. intros H. vm_compute in H. discriminate. Qed.

(* ===================================================================== *)
(** ** Failures *)
(* ===================================================================== *)

Section Failures.

Variable E : Env.

Lemma not_blank (raw : str) :
  ~ Forall (fun c => PyStr.isspace c = true) raw -> blank raw = false.
Proof.
  intros H. destruct (blank raw) eqn:Hb; [|reflexivity].
  apply blank_iff in Hb. contradiction.
Qed.

Lemma extract_tokens_absent (code page : str) :
  Re.search true re_enc page = None \/ Re.search true re_id page = None ->
  extract_tokens code page = Raise (ValueError (msg_extraction code)).
Proof.
  unfold extract_tokens. intros [H|H]; rewrite H; [reflexivity|].
  now destruct (Re.search true re_enc page).
Qed.

Lemma GetNvrEncparam_ok (code page : str) (tr : list event) r :
  http_get E tr (portal_request code) = Ok page ->
  extract_tokens code page = r ->
  GetNvrEncparam E code tr = (r, tr ++ [EvGet (portal_request code)]).
Proof. intros Hget Hext. now rewrite GetNvrEncparam_run, Hget, Hext. Qed.

(** Each error kind ends the fetch with its exception, right after the
    failing stage. *)
Lemma arises_raises (code f : str) (tr : list event)
      (k : error_kind) (e : exn) (evs : list event) :
  arises E code f tr k e evs ->
  GetNvrFin E code f tr = (Raise e, tr ++ evs).
Proof.
  intros H. destruct H as
      [e Hget | page Hget Habs | page toks e Hget Hext Hajax
       | page toks raw Hget Hext Hajax Hblank
       | page toks raw tables Hget Hext Hajax Hblank Hread Hlen
       | page toks raw tables fs L Hget Hext Hajax Hblank Hread Hnth Hc Hnot].
  - apply GetNvrFin_no_tokens. now rewrite GetNvrEncparam_run, Hget.
  - apply GetNvrFin_no_tokens.
    apply (GetNvrEncparam_ok code page tr _ Hget).
    now apply extract_tokens_absent.
  - rewrite (GetNvrFin_after_tokens E code f tr _ toks
               (GetNvrEncparam_ok code page tr _ Hget Hext)).
    cbv zeta. rewrite Hajax. now rewrite <- app_assoc.
  - rewrite (GetNvrFin_after_tokens E code f tr _ toks
               (GetNvrEncparam_ok code page tr _ Hget Hext)).
    cbv zeta. rewrite Hajax. apply blank_iff in Hblank. rewrite Hblank.
    now rewrite <- app_assoc.
  - rewrite (GetNvrFin_after_tokens E code f tr _ toks
               (GetNvrEncparam_ok code page tr _ Hget Hext)).
    cbv zeta. rewrite Hajax, (not_blank raw Hblank), normalize_run, Hread.
    apply Nat.ltb_lt in Hlen. rewrite Hlen.
    unfold fetch_events. now rewrite <- !app_assoc.
  - rewrite (GetNvrFin_after_tokens E code f tr _ toks
               (GetNvrEncparam_ok code page tr _ Hget Hext)).
    cbv zeta. rewrite Hajax, (not_blank raw Hblank).
    rewrite (normalize_second_table E raw _ tables fs Hread Hnth).
    rewrite (key_second_table_missing fs L Hc Hnot).
    unfold fetch_events. now rewrite <- !app_assoc.
Qed.

(** The events of an error kind are requests and parser calls. *)
Lemma arises_fetch_events (code f : str) (tr : list event)
      (k : error_kind) (e : exn) (evs : list event) :
  arises E code f tr k e evs -> Forall fetch_event evs.
Proof. intros H. destruct H; repeat constructor. Qed.

(** A run in which one of the five error kinds arises, in the annual or
    in the quarterly fetch, ends with its exception; it has sent
    requests and called the parser, and nothing else. *)
Lemma main_raise_events (prog arg f : str) (tr tr0 : list event)
      (k : error_kind) (e : exn) (evs : list event) :
  (f = py "Y" /\ tr0 = tr
   \/ f = py "Q"
      /\ exists df_all,
          GetNvrFin E (PyStr.strip arg) (py "Y") tr = (Ok df_all, tr0)) ->
  arises E (PyStr.strip arg) f tr0 k e evs ->
  exists new,
    main E [prog; arg] tr = (Raise e, tr ++ new)
    /\ Forall fetch_event new /\ written new = [].
Proof.
  intros Hwhere H.
  pose proof (arises_fetch_events _ _ _ _ _ _ H) as Hev.
  pose proof (arises_raises _ _ _ _ _ _ H) as Hrun.
  rewrite main_run. cbv zeta.
  destruct Hwhere as [[-> ->]|[-> (a & Ha)]].
  - rewrite Hrun. exists evs.
    repeat split; [assumption | now apply written_fetch_events].
  - rewrite Ha, Hrun.
    destruct (GetNvrFin_events E _ _ _ _ _ Ha) as (ev1 & -> & Hev1).
    exists (ev1 ++ evs). rewrite app_assoc.
    repeat split; [now apply Forall_app|].
    apply written_fetch_events. now apply Forall_app.
Qed.

(** The diagnostics of the four [ValueError]s of the source. *)
Lemma diagnostics (code f : str) (tr : list event)
      (k : error_kind) (e : exn) (evs : list event) :
  arises E code f tr k e evs ->
  k <> TransportError ->
  exists msg,
    e = ValueError msg
    /\ PyStr.contains (stage_tag k) msg = true
    /\ (k = ExtractionError \/ k = EmptyResponseError ->
        PyStr.contains code msg = true).
Proof.
  intros H Hk. destruct H; try contradiction; eexists;
    (split; [reflexivity|]); split;
      try (apply contains_startswith; by_running);
      try (intros [?|?]; discriminate).
  - intros _. apply contains_suffix.
  - intros _. apply contains_app.
Qed.

End Failures.

(** C5 (amended). An exception of any of the five error kinds
    ends the fetch it arises in, and with it the run, at once and
    unchanged: [main] ends with that very exception, whether it arises
    in the annual or in the quarterly fetch, and the trace holds nothing
    after the failing request or parser call. A run in which one of the
    five kinds arises has written nothing: it has sent requests and
    called the parser, and nothing else. The diagnostics of the four
    [ValueError]s carry the tag of the function that failed; those of
    the extraction error and of the empty-response error also carry the
    entity code. A transport error is the HTTP client's own exception. *)
Theorem C5_errors_propagate :
  (forall E code f tr k e evs,
      arises E code f tr k e evs ->
      GetNvrFin E code f tr = (Raise e, tr ++ evs))
  /\ (forall E prog arg tr k e evs,
         arises E (PyStr.strip arg) (py "Y") tr k e evs ->
         main E [prog; arg] tr = (Raise e, tr ++ evs))
  /\ (forall E prog arg tr df_all tr1 k e evs,
         GetNvrFin E (PyStr.strip arg) (py "Y") tr = (Ok df_all, tr1) ->
         arises E (PyStr.strip arg) (py "Q") tr1 k e evs ->
         main E [prog; arg] tr = (Raise e, tr1 ++ evs))
  /\ (forall E prog arg f tr tr0 k e evs,
         (f = py "Y" /\ tr0 = tr
          \/ f = py "Q"
             /\ exists df_all,
                 GetNvrFin E (PyStr.strip arg) (py "Y") tr = (Ok df_all, tr0)) ->
         arises E (PyStr.strip arg) f tr0 k e evs ->
         exists new,
           main E [prog; arg] tr = (Raise e, tr ++ new)
           /\ Forall fetch_event new /\ written new = [])
  /\ (forall E code f tr k e evs,
         arises E code f tr k e evs ->
         k <> TransportError ->
         exists msg,
           e = ValueError msg
           /\ PyStr.contains (stage_tag k) msg = true
           /\ (k = ExtractionError \/ k = EmptyResponseError ->
               PyStr.contains code msg = true)).
Proof.
  repeat split.
  - intros E code f tr k e evs H. exact (arises_raises E code f tr k e evs H).
  - intros E prog arg tr k e evs H. rewrite main_run. cbv zeta.
    now rewrite (arises_raises E _ _ _ _ _ _ H).
  - intros E prog arg tr a tr1 k e evs Ha H. rewrite main_run. cbv zeta.
    now rewrite Ha, (arises_raises E _ _ _ _ _ _ H).
  - intros E prog arg f tr tr0 k e evs Hwhere H.
    exact (main_raise_events E prog arg f tr tr0 k e evs Hwhere H).
  - intros E code f tr k e evs H Hk. exact (diagnostics E code f tr k e evs H Hk).
Qed.

(** The data endpoint times out during the annual fetch: the run ends
    with the client's exception after the two requests. *)
Lemma C5_errors_propagate_witness :
  main slow_env sample_argv []
  = (Raise timed_out,
     [] ++ [EvGet (portal_request sample_code);
            EvGet (ajax_request sample_code (py "Y")
                                (Some (py "tok1==")) (Some (py "S1")))]).
Proof.
  apply (proj1 (proj2 C5_errors_propagate)
               slow_env (py "financial_summary.py") sample_code []
               TransportError).
  apply (@data_down slow_env (PyStr.strip sample_code) (py "Y") []
                   first_page (Some (py "tok1=="), Some (py "S1")) timed_out).
  - reflexivity.
  - by_running.
  - reflexivity.
Defined.

(** Against C5 as the spec states it, the table-count error and the
    missing-key error: with one table in the answer the run ends with a
    diagnostic that names the failing function and the table count, and
    with a second table that lacks the key column with one that names
    the function and the column; neither holds the entity code. When the
    data endpoint times out, the run ends with the HTTP client's own
    exception, which names neither the code nor the function. *)
Lemma C5_counterexample :
  fst (main (env_with [banner]) sample_argv [])
  = Raise (ValueError (msg_table_count 1))
  /\ msg_table_count 1 = py "[GetNvrFin] 테이블을 파싱할 수 없습니다. (tables count=1)"
  /\ PyStr.contains sample_code (msg_table_count 1) = false
  /\ fst (main (env_with [banner; banner]) sample_argv [])
     = Raise (ValueError msg_missing_key)
  /\ PyStr.contains sample_code msg_missing_key = false
  /\ fst (main slow_env sample_argv []) = Raise timed_out
  /\ PyStr.contains sample_code timed_out_message = false
  /\ PyStr.contains (py "[GetNvrFin]") timed_out_message = false.
Proof. repeat split; by_running. Qed.

(* ===================================================================== *)
(** ** One extraction per fetch *)
(* ===================================================================== *)

Section Orchestration.

Variable E : Env.

Lemma GetNvrFin_ok_inv (code f : str) (tr tr' : list event)
      (df : DataFrame Columns) :
  GetNvrFin E code f tr = (Ok df, tr') ->
  exists page toks raw,
    http_get E tr (portal_request code) = Ok page
    /\ extract_tokens code page = Ok toks
    /\ http_get E (tr ++ [EvGet (portal_request code)])
                (ajax_request code f (fst toks) (snd toks)) = Ok raw
    /\ tr' = tr ++ fetch_events code f toks raw.
Proof.
  destruct (GetNvrEncparam E code tr) as [[toks|e] tr1] eqn:Htok.
  - pose proof Htok as Hrun. rewrite GetNvrEncparam_run in Hrun.
    destruct (http_get E tr (portal_request code)) as [page|] eqn:Hget;
      [|discriminate].
    injection Hrun as Hext Htr. subst tr1.
    rewrite (GetNvrFin_after_tokens E code f tr _ toks Htok). cbv zeta.
    destruct (http_get E (tr ++ _) _) as [raw|] eqn:Hajax; [|discriminate].
    destruct (blank raw); [discriminate|].
    rewrite normalize_run. intros H. injection H as _ <-.
    exists page, toks, raw. unfold fetch_events.
    now rewrite <- !app_assoc.
  - rewrite (GetNvrFin_no_tokens E code f tr _ e Htok). discriminate.
Qed.

Lemma ajax_is_not_portal (code : str) :
  PyStr.eqb ajax_url (portal_url code) = false.
Proof.
  apply str_eqb_neq. intros H. vm_compute in H. discriminate.
Qed.

Lemma portal_is_not_ajax (code : str) :
  PyStr.eqb (portal_url code) ajax_url = false.
Proof.
  apply str_eqb_neq. intros H. vm_compute in H. discriminate.
Qed.

Lemma fetch_events_visits (code f : str) toks (raw : str) :
  portal_visits code (fetch_events code f toks raw) = 1.
Proof.
  unfold portal_visits, fetch_events. cbn [filter url portal_request ajax_request].
  now rewrite str_eqb_refl, ajax_is_not_portal.
Qed.

Lemma fetch_events_tokens (code f : str) toks (raw : str) :
  tokens_sent (fetch_events code f toks raw) = [toks].
Proof.
  unfold tokens_sent, fetch_events.
  cbn [flat_map url portal_request ajax_request params skipn app].
  rewrite str_eqb_refl, portal_is_not_ajax. now destruct toks.
Qed.

End Orchestration.

(** C1 (amended). In a run of [main] that succeeds, each of
    the two table fetches (annual, then quarterly) visits the portal
    page itself and extracts its own tokens from the page it got, right
    before its data request: the run visits the portal twice, and each
    data request carries the tokens of its own fetch. *)
Theorem C1_one_extraction_per_fetch
        (E : Env) (prog arg : str) (tr tr' : list event) :
  main E [prog; arg] tr = (Ok tt, tr') ->
  let code := PyStr.strip arg in
  exists page1 toks1 raw1 page2 toks2 raw2 merged,
    let tr1 := tr ++ fetch_events code (py "Y") toks1 raw1 in
    http_get E tr (portal_request code) = Ok page1
    /\ extract_tokens code page1 = Ok toks1
    /\ http_get E tr1 (portal_request code) = Ok page2
    /\ extract_tokens code page2 = Ok toks2
    /\ tr' = tr1 ++ fetch_events code (py "Q") toks2 raw2
                 ++ closing_events code merged
    /\ portal_visits code (skipn (length tr) tr') = 2
    /\ tokens_sent (skipn (length tr) tr') = [toks1; toks2].
Proof.
  rewrite main_run. cbv zeta.
  destruct (GetNvrFin E (PyStr.strip arg) (py "Y") tr) as [[a|e1] t1] eqn:H1;
    [|discriminate].
  destruct (GetNvrFin_ok_inv E _ _ _ _ _ H1)
    as (page1 & toks1 & raw1 & Hg1 & Hx1 & _ & ->).
  destruct (GetNvrFin E (PyStr.strip arg) (py "Q") _) as [[q|e2] t2] eqn:H2;
    [|discriminate].
  destruct (GetNvrFin_ok_inv E _ _ _ _ _ H2)
    as (page2 & toks2 & raw2 & Hg2 & Hx2 & _ & ->).
  destruct (select_prefix_merge E metrics a q) as [merged|]; [|discriminate].
  intros H. apply save_ok in H. subst tr'.
  exists page1, toks1, raw1, page2, toks2, raw2, merged. cbv zeta.
  repeat split; try assumption.
  - now rewrite <- !app_assoc.
  - rewrite <- !app_assoc, skipn_length_app.
    unfold portal_visits. rewrite !filter_app, !length_app.
    change (length (filter _ (fetch_events ?c ?f ?t ?r)))
      with (portal_visits c (fetch_events c f t r)).
    fold (portal_visits (PyStr.strip arg) (fetch_events (PyStr.strip arg) (py "Y") toks1 raw1)).
    fold (portal_visits (PyStr.strip arg) (fetch_events (PyStr.strip arg) (py "Q") toks2 raw2)).
    rewrite !fetch_events_visits. reflexivity.
  - rewrite <- !app_assoc, skipn_length_app.
    unfold tokens_sent. rewrite !flat_map_app.
    fold (tokens_sent (fetch_events (PyStr.strip arg) (py "Y") toks1 raw1)).
    fold (tokens_sent (fetch_events (PyStr.strip arg) (py "Q") toks2 raw2)).
    now rewrite !fetch_events_tokens.
Qed.

Lemma C1_one_extraction_witness :
  let code := PyStr.strip sample_code in
  exists page1 toks1 raw1 page2 toks2 raw2 merged,
    let tr1 := [] ++ fetch_events code (py "Y") toks1 raw1 in
    http_get sample_env [] (portal_request code) = Ok page1
    /\ extract_tokens code page1 = Ok toks1
    /\ http_get sample_env tr1 (portal_request code) = Ok page2
    /\ extract_tokens code page2 = Ok toks2
    /\ first_run_trace
       = tr1 ++ fetch_events code (py "Q") toks2 raw2
             ++ closing_events code merged
    /\ portal_visits code (skipn (length (@nil event)) first_run_trace) = 2
    /\ tokens_sent (skipn (length (@nil event)) first_run_trace) = [toks1; toks2].
Proof.
  apply (C1_one_extraction_per_fetch
           sample_env (py "financial_summary.py") sample_code []
           first_run_trace).
  by_running.
Defined.

(** Against C1 as the spec states it: the portal hands out fresh tokens
    on every visit; one run visits the portal twice, and the two data
    requests carry different token pairs. *)
Lemma C1_counterexample :
  fst (main sample_env sample_argv []) = Ok tt
  /\ portal_visits sample_code (snd (main sample_env sample_argv [])) = 2
  /\ tokens_sent (snd (main sample_env sample_argv []))
     = [(Some (py "tok1=="), Some (py "S1"));
        (Some (py "tok2=="), Some (py "S2"))].
Proof. repeat split; by_running. Qed.

(* ===================================================================== *)
(** ** Further properties of the program *)
(* ===================================================================== *)

(** Lines 93-96: with any number of arguments other than one, [main]
    prints the two usage lines and exits with status 1; it sends no
    request. *)
Theorem main_usage (E : Env) (argv : list str) (tr : list event) :
  length argv <> 2 ->
  main E argv tr = (Raise (SystemExit 1), tr ++ usage_lines).
Proof.
  intros H. unfold main.
  destruct (Nat.eqb_spec (length argv) 2) as [|_]; [contradiction|].
  cbn [negb]. unfold bind, print, emit, raise, usage_lines.
  now rewrite <- app_assoc.
Qed.

Lemma main_usage_witness :
  main sample_env [py "financial_summary.py"] []
  = (Raise (SystemExit 1), [] ++ usage_lines).
Proof. apply main_usage. discriminate. Defined.

(** Lines 73-76: a body that holds anything but white space goes to the
    parser. *)
Theorem nonblank_response_is_parsed
        (E : Env) (code f : str) (tr tr1 : list event) toks (raw : str) :
  GetNvrEncparam E code tr = (Ok toks, tr1) ->
  http_get E tr1 (ajax_request code f (fst toks) (snd toks)) = Ok raw ->
  ~ Forall (fun c => PyStr.isspace c = true) raw ->
  snd (GetNvrFin E code f tr)
  = tr ++ fetch_events code f toks raw.
Proof.
  intros Htok Hget Hblank.
  rewrite (GetNvrFin_after_tokens E code f tr tr1 toks Htok). cbv zeta.
  rewrite Hget, (not_blank raw Hblank), normalize_run. cbn [snd].
  rewrite (GetNvrEncparam_trace E code tr tr1 _ Htok).
  unfold fetch_events. now rewrite <- !app_assoc.
Qed.

Lemma nonblank_response_witness :
  snd (GetNvrFin sample_env sample_code (py "Y") [])
  = [] ++ fetch_events sample_code (py "Y")
                       (Some (py "tok1=="), Some (py "S1")) sample_raw.
Proof.
  apply (nonblank_response_is_parsed
           sample_env sample_code (py "Y") []
           [EvGet (portal_request sample_code)]
           (Some (py "tok1=="), Some (py "S1")) sample_raw).
  - by_running.
  - by_running.
  - intros H. inversion H as [|c l Hc _]. vm_compute in Hc. discriminate.
Defined.

Section RepeatedLabels.

Lemma in_unique (x : cell) (l : list cell) : In x (unique l) <-> In x l.
Proof.
  induction l as [|y l IH]; cbn; [reflexivity|].
  rewrite filter_In, IH, negb_true_iff, cell_eqb_neq.
  destruct (cell_eq_dec y x) as [->|Hne]; intuition congruence.
Qed.

Lemma NoDup_map_Text (ms : list str) : NoDup ms -> NoDup (map Text ms).
Proof.
  induction 1 as [|m ms Hm Hms IH]; cbn; constructor; [|assumption].
  intros Hin. apply in_map_iff in Hin as (m' & Heq & Hin).
  injection Heq as ->. contradiction.
Qed.

Lemma count_occ_rows (rs : list (cell * list cell)) (l : cell) :
  count_occ cell_eq_dec (map fst (filter (fun r => cell_eqb l (fst r)) rs)) l
  = count_occ cell_eq_dec (map fst rs) l.
Proof.
  induction rs as [|r rs IH]; cbn; [reflexivity|].
  unfold cell_eqb at 1.
  destruct (cell_eq_dec l (fst r)) as [->|Hne]; cbn.
  - destruct (cell_eq_dec (fst r) (fst r)); [now rewrite IH | contradiction].
  - destruct (cell_eq_dec (fst r) l); [congruence | exact IH].
Qed.

Lemma count_occ_flat_map (rs : list (cell * list cell)) (l : cell)
      (labels : list cell) :
  In l labels ->
  count_occ cell_eq_dec (map fst rs) l
  <= count_occ cell_eq_dec
       (map fst (flat_map (fun k => filter (fun r => cell_eqb k (fst r)) rs)
                          labels)) l.
Proof.
  induction labels as [|k labels IH]; intros Hin; [contradiction|].
  cbn [flat_map]. rewrite map_app, count_occ_app.
  destruct Hin as [->|Hin].
  - rewrite count_occ_rows. lia.
  - specialize (IH Hin). lia.
Qed.

(** Lines 107-108 on a table in which a requested metric stands more
    than once: for a request without repetitions, [reindex] refuses. *)
Lemma select_repeated (df : DataFrame Columns) (ms : list str) (m : str) :
  NoDup ms -> In m ms ->
  2 <= count_occ cell_eq_dec (index df) (Text m) ->
  select df ms
  = Raise (ValueError (py "cannot reindex on an axis with duplicate labels")).
Proof.
  intros Hnd Hm Hcount. unfold select, intersection, loc.
  set (avail := unique (filter (is_metric ms) (index df))).
  replace (forallb _ avail) with true.
  2:{ symmetry. apply forallb_forall. intros l Hl. apply existsb_cell_eqb.
      apply in_unique, filter_In in Hl. tauto. }
  assert (Havail : In (Text m) avail).
  { apply in_unique, filter_In. split.
    - apply (count_occ_In cell_eq_dec). lia.
    - now apply is_metric_text. }
  set (sel := {| columns := columns df; index_name := index_name df;
                 rows := flat_map (rows_of df) avail |}).
  assert (Hsel : 2 <= count_occ cell_eq_dec (index sel) (Text m)).
  { pose proof (count_occ_flat_map (rows df) (Text m) avail Havail) as H.
    unfold index in *. cbn [rows sel]. unfold rows_of. lia. }
  assert (Hdup : ~ NoDup (index sel)).
  { intros H. rewrite (NoDup_count_occ cell_eq_dec) in H.
    specialize (H (Text m)). lia. }
  unfold reindex.
  destruct (cells_eqb (index sel) (map Text ms)) eqn:Heq.
  - apply cells_eqb_eq in Heq. exfalso. apply Hdup. rewrite Heq.
    now apply NoDup_map_Text.
  - destruct (is_unique (index sel)) eqn:Hu; [|reflexivity].
    apply is_unique_NoDup in Hu. contradiction.
Qed.

End RepeatedLabels.

(** Lines 101-111: when a requested metric stands more than once in a
    fetched table, the run ends with the [ValueError] of [reindex] and
    writes nothing. *)
Theorem main_repeated_metric
        (E : Env) (prog arg : str) (tr tr1 tr2 : list event)
        (df_all df_qtr : DataFrame Columns) (m : str) :
  GetNvrFin E (PyStr.strip arg) (py "Y") tr = (Ok df_all, tr1) ->
  GetNvrFin E (PyStr.strip arg) (py "Q") tr1 = (Ok df_qtr, tr2) ->
  In m metrics ->
  2 <= count_occ cell_eq_dec (index df_all) (Text m) ->
  main E [prog; arg] tr
  = (Raise (ValueError (py "cannot reindex on an axis with duplicate labels")),
     tr2).
Proof.
  intros Ha Hq Hm Hcount. rewrite main_run. cbv zeta. rewrite Ha, Hq.
  unfold select_prefix_merge.
  rewrite (select_repeated df_all metrics m); [reflexivity | | assumption..].
  unfold metrics. repeat constructor; cbn; intuition discriminate.
Qed.

Lemma main_repeated_metric_witness :
  main (env_with [banner; repeated_metric_table]) sample_argv []
  = (Raise (ValueError (py "cannot reindex on an axis with duplicate labels")),
     fetch_events sample_code (py "Y") (Some (py "tok1=="), Some (py "S1"))
                  sample_raw
     ++ fetch_events sample_code (py "Q") (Some (py "tok1=="), Some (py "S1"))
                     (py "<table></table><table>Q</table>")).
Proof.
  eapply (main_repeated_metric
            (env_with [banner; repeated_metric_table])
            (py "financial_summary.py") sample_code []
            _ _ _ _ (py "매출액")).
  - by_running.
  - by_running.
  - left. reflexivity.
  - vm_compute. lia.
Defined.

(** Lines 120-128: a run that succeeds creates the directory, hands one
    frame to [to_csv] under [output/<code>.csv] (for a code that does not
    start with a slash) with the encoding [utf-8-sig], and prints that
    path; before that it has only fetched. *)
Theorem main_success_output
        (E : Env) (prog arg : str) (tr tr' : list event) :
  main E [prog; arg] tr = (Ok tt, tr') ->
  PyStr.startswith (py "/") (PyStr.strip arg) = false ->
  exists fetched merged,
    Forall fetch_event fetched
    /\ tr' = tr ++ fetched
                ++ [EvMakedirs (py "output");
                    EvToCsv (py "output/" ++ PyStr.strip arg ++ py ".csv")
                            merged (py "utf-8-sig");
                    EvPrint (py "✓ 저장 완료: output/" ++ PyStr.strip arg
                             ++ py ".csv")].
Proof.
  rewrite main_run. cbv zeta. intros H Hslash.
  destruct (GetNvrFin E (PyStr.strip arg) (py "Y") tr) as [[a|e1] t1] eqn:H1;
    [|discriminate].
  destruct (GetNvrFin_events E _ _ _ _ _ H1) as (ev1 & -> & Hev1).
  destruct (GetNvrFin E (PyStr.strip arg) (py "Q") _) as [[q|e2] t2] eqn:H2;
    [|discriminate].
  destruct (GetNvrFin_events E _ _ _ _ _ H2) as (ev2 & -> & Hev2).
  destruct (select_prefix_merge E metrics a q) as [merged|]; [|discriminate].
  apply save_ok in H. subst tr'. exists (ev1 ++ ev2), merged.
  split; [now apply Forall_app|].
  rewrite <- !app_assoc. do 3 f_equal.
  unfold closing_events, path_join.
  replace (PyStr.startswith (py "/") (PyStr.strip arg ++ py ".csv")) with false.
  - reflexivity.
  - destruct (PyStr.strip arg) as [|c code]; [reflexivity|].
    symmetry. change (py "/") with [47%N] in *. cbn [PyStr.startswith app] in *.
    destruct (47 =? c)%N; [discriminate | reflexivity].
Qed.

Lemma main_success_output_witness :
  exists fetched merged,
    Forall fetch_event fetched
    /\ first_run_trace
       = [] ++ fetched
            ++ [EvMakedirs (py "output");
                EvToCsv (py "output/" ++ PyStr.strip sample_code ++ py ".csv")
                        merged (py "utf-8-sig");
                EvPrint (py "✓ 저장 완료: output/" ++ PyStr.strip sample_code
                         ++ py ".csv")].
Proof.
  apply (main_success_output sample_env (py "financial_summary.py")
                             sample_code [] first_run_trace).
  - by_running.
  - by_running.
Defined.

(* ===================================================================== *)
(** ** The argument of [main] and the requests of a run *)
(* ===================================================================== *)

Section StripFacts.

Lemma lstrip_app_spaces (pre s : str) :
  Forall (fun c => PyStr.isspace c = true) pre ->
  PyStr.lstrip (pre ++ s) = PyStr.lstrip s.
Proof.
  induction 1 as [|c pre Hc _ IH]; cbn; [reflexivity|]. now rewrite Hc.
Qed.

Lemma lstrip_app_kept (s p : str) :
  PyStr.lstrip s <> [] -> PyStr.lstrip (s ++ p) = PyStr.lstrip s ++ p.
Proof.
  induction s as [|c s IH]; cbn; [congruence|].
  destruct (PyStr.isspace c); [exact IH | reflexivity].
Qed.

Lemma Forall_isspace_forallb (s : str) :
  Forall (fun c => PyStr.isspace c = true) s <-> forallb PyStr.isspace s = true.
Proof. now rewrite Forall_forall, <- forallb_forall. Qed.

(** White space around a string does not change what [strip] returns. *)
Lemma strip_padding (pre s post : str) :
  Forall (fun c => PyStr.isspace c = true) pre ->
  Forall (fun c => PyStr.isspace c = true) post ->
  PyStr.strip (pre ++ s ++ post) = PyStr.strip s.
Proof.
  intros Hpre Hpost. unfold PyStr.strip.
  rewrite (lstrip_app_spaces pre _ Hpre).
  destruct (PyStr.lstrip s) as [|c t] eqn:Hs.
  - apply lstrip_nil, Forall_isspace_forallb in Hs.
    assert (H : PyStr.lstrip (s ++ post) = []).
    { apply lstrip_spaces, Forall_isspace_forallb, Forall_app. now split. }
    now rewrite H.
  - rewrite lstrip_app_kept by (rewrite Hs; discriminate).
    rewrite Hs, rev_app_distr.
    now rewrite (lstrip_app_spaces (rev post)) by (now apply Forall_rev).
Qed.

End StripFacts.

Section Traces.

Variable E : Env.

(** The events of a fetch are the first one, two or three of: the
    portal request, the data request, the parser call; all three when
    the fetch returns. *)
Lemma GetNvrFin_trace_shape (code f : str) (tr tr' : list event) r :
  GetNvrFin E code f tr = (r, tr') ->
  exists toks raw n,
    1 <= n <= 3
    /\ tr' = tr ++ firstn n (fetch_events code f toks raw)
    /\ (forall df, r = Ok df -> n = 3).
Proof.
  destruct (GetNvrEncparam E code tr) as [[toks|e] tr1] eqn:Htok;
    pose proof (GetNvrEncparam_trace E code tr tr1 _ Htok) as ->.
  - rewrite (GetNvrFin_after_tokens E code f tr _ toks Htok). cbv zeta.
    destruct (http_get E _ _) as [raw|e].
    + destruct (blank raw).
      * intros H. injection H as <- <-. exists toks, raw, 2.
        repeat split; [lia | lia | now rewrite <- app_assoc | discriminate].
      * rewrite normalize_run. intros H. injection H as _ <-.
        exists toks, raw, 3.
        repeat split; [lia | lia | now rewrite <- !app_assoc].
    + intros H. injection H as <- <-. exists toks, [], 2.
      repeat split; [lia | lia | now rewrite <- app_assoc | discriminate].
  - rewrite (GetNvrFin_no_tokens E code f tr _ e Htok).
    intros H. injection H as <- <-. exists (None, None), [], 1.
    repeat split; [lia | lia | discriminate].
Qed.

Lemma requests_app (t1 t2 : list event) :
  requests (t1 ++ t2) = requests t1 ++ requests t2.
Proof. apply flat_map_app. Qed.

End Traces.

(** Lines 98-102: a run with one argument sends between one and four
    requests, always in the order portal page, annual data, portal
    page, quarterly data, all for the stripped argument; it stops short
    only when it fails, never asks for another view and contacts no
    other address. *)
Theorem main_requests (E : Env) (prog arg : str) (tr : list event) :
  let code := PyStr.strip arg in
  let sent := requests (skipn (length tr) (snd (main E [prog; arg] tr))) in
  exists toks_y toks_q rest,
    [portal_request code;
     ajax_request code (py "Y") (fst toks_y) (snd toks_y);
     portal_request code;
     ajax_request code (py "Q") (fst toks_q) (snd toks_q)] = sent ++ rest
    /\ sent <> []
    /\ (fst (main E [prog; arg] tr) = Ok tt -> rest = []).
Proof.
  cbv zeta. rewrite main_run. cbv zeta.
  destruct (GetNvrFin E (PyStr.strip arg) (py "Y") tr) as [[a|e1] t1] eqn:H1;
    destruct (GetNvrFin_trace_shape E _ _ _ _ _ H1)
      as (ty & raw1 & n1 & Hn1 & -> & Hok1).
  - rewrite (Hok1 a eq_refl). clear Hok1 Hn1.
    change (firstn 3 (fetch_events ?c ?f ?t ?r)) with (fetch_events c f t r).
    destruct (GetNvrFin E (PyStr.strip arg) (py "Q") _) as [[q|e2] t2] eqn:H2;
      destruct (GetNvrFin_trace_shape E _ _ _ _ _ H2)
        as (tq & raw2 & n2 & Hn2 & -> & Hok2).
    + rewrite (Hok2 q eq_refl).
      exists ty, tq, [].
      destruct (select_prefix_merge E metrics a q) as [merged|e].
      * match goal with
        | |- context [save E ?c ?m ?t] =>
          destruct (save_events E c m t) as (evs & Hs & Hr)
        end.
        rewrite Hs, <- !app_assoc, skipn_length_app, !requests_app, Hr.
        repeat split; discriminate.
      * cbn [fst snd].
        rewrite <- !app_assoc, skipn_length_app, !requests_app.
        repeat split; discriminate.
    + exists ty, tq. cbn [fst snd].
      rewrite <- !app_assoc, skipn_length_app, !requests_app.
      destruct n2 as [|[|[|[|n2]]]]; try lia; cbn;
        eexists; repeat split; discriminate.
  - exists ty, (None, None). cbn [fst snd]. rewrite skipn_length_app.
    destruct n1 as [|[|[|[|n1]]]]; try lia; cbn;
      eexists; repeat split; discriminate.
Qed.

(** Line 98: white space around the argument is dropped before
    anything is done with it, and the program's own name plays no part:
    the runs on [arg] and on [arg] with white space around it are the
    same. *)
Theorem main_ignores_surrounding_space
        (E : Env) (prog prog' pre arg post : str) (tr : list event) :
  Forall (fun c => PyStr.isspace c = true) pre ->
  Forall (fun c => PyStr.isspace c = true) post ->
  main E [prog; pre ++ arg ++ post] tr = main E [prog'; arg] tr.
Proof.
  intros Hpre Hpost. rewrite !main_run. cbv zeta.
  now rewrite (strip_padding pre arg post Hpre Hpost).
Qed.

Lemma main_ignores_surrounding_space_witness :
  main sample_env [py "financial_summary.py"; padded_code] []
  = main sample_env [py "python"; sample_code] [].
Proof.
  apply (main_ignores_surrounding_space
           sample_env (py "financial_summary.py") (py "python")
           [0x20; 0x09]%N sample_code [0x0A]%N []).
  - repeat constructor.
  - repeat constructor.
Defined.

(** A run that succeeds has fetched, then done the three closing steps. *)
Lemma main_ok_trace (E : Env) (prog arg : str) (tr tr' : list event) :
  main E [prog; arg] tr = (Ok tt, tr') ->
  exists fetched merged,
    Forall fetch_event fetched
    /\ tr' = tr ++ fetched ++ closing_events (PyStr.strip arg) merged.
Proof.
  rewrite main_run. cbv zeta. intros H.
  destruct (GetNvrFin E (PyStr.strip arg) (py "Y") tr) as [[a|e1] t1] eqn:H1;
    [|discriminate].
  destruct (GetNvrFin_events E _ _ _ _ _ H1) as (ev1 & -> & Hev1).
  destruct (GetNvrFin E (PyStr.strip arg) (py "Q") _) as [[q|e2] t2] eqn:H2;
    [|discriminate].
  destruct (GetNvrFin_events E _ _ _ _ _ H2) as (ev2 & -> & Hev2).
  destruct (select_prefix_merge E metrics a q) as [merged|]; [|discriminate].
  apply save_ok in H. subst tr'. exists (ev1 ++ ev2), merged.
  split; [now apply Forall_app | now rewrite <- !app_assoc].
Qed.

(** A run with one argument starts with the portal request for the
    stripped argument. *)
Lemma main_first_event (E : Env) (prog arg : str) (tr : list event) :
  exists evs,
    snd (main E [prog; arg] tr)
    = tr ++ EvGet (portal_request (PyStr.strip arg)) :: evs.
Proof.
  rewrite main_run. cbv zeta.
  destruct (GetNvrFin E (PyStr.strip arg) (py "Y") tr) as [r1 t1] eqn:H1.
  destruct (GetNvrFin_trace_shape E _ _ _ _ _ H1)
    as (ty & raw1 & n1 & Hn1 & -> & _).
  destruct n1 as [|n1]; [lia|]. cbn [firstn fetch_events].
  destruct r1 as [a|e1]; [|eexists; reflexivity].
  destruct (GetNvrFin E (PyStr.strip arg) (py "Q") _) as [[q|e2] t2] eqn:H2;
    destruct (GetNvrFin_events E _ _ _ _ _ H2) as (ev2 & -> & _).
  - destruct (select_prefix_merge E metrics a q) as [merged|e].
    + match goal with
      | |- context [save E ?c ?m ?t] =>
        destruct (save_events E c m t) as (evs & Hs & _)
      end.
      rewrite Hs, <- ?app_assoc. cbn [app]. eexists; reflexivity.
    + cbn [snd]. rewrite <- ?app_assoc. cbn [app]. eexists; reflexivity.
  - cbn [snd]. rewrite <- ?app_assoc. cbn [app]. eexists; reflexivity.
Qed.

(** Lines 93-101, 125: only the number of arguments is checked. With an
    argument that is empty or white space the entity code is empty: the
    run asks the portal for the page of no company, and a run that
    succeeds writes [output/.csv]. *)
Theorem main_blank_argument (E : Env) (prog arg : str) (tr : list event) :
  Forall (fun c => PyStr.isspace c = true) arg ->
  (exists evs,
      snd (main E [prog; arg] tr) = tr ++ EvGet (portal_request []) :: evs)
  /\ url (portal_request [])
     = py "https://navercomp.wisereport.co.kr/v2/company/c1010001.aspx?cmp_cd="
  /\ (forall tr',
         main E [prog; arg] tr = (Ok tt, tr') ->
         exists fetched merged,
           tr' = tr ++ fetched
                    ++ [EvMakedirs (py "output");
                        EvToCsv (py "output/.csv") merged (py "utf-8-sig");
                        EvPrint (py "✓ 저장 완료: output/.csv")]).
Proof.
  intros Hblank.
  assert (Hcode : PyStr.strip arg = []).
  { apply strip_nil_iff. now apply Forall_isspace_forallb. }
  split; [|split].
  - rewrite <- Hcode. apply main_first_event.
  - by_running.
  - intros tr' H.
    destruct (main_ok_trace E prog arg tr tr' H) as (fetched & merged & _ & ->).
    exists fetched, merged. now rewrite Hcode.
Qed.

Lemma main_blank_argument_witness :
  (exists evs,
      snd (main sample_env [py "financial_summary.py"; [0x20; 0x3000]%N] [])
      = [] ++ EvGet (portal_request []) :: evs)
  /\ url (portal_request [])
     = py "https://navercomp.wisereport.co.kr/v2/company/c1010001.aspx?cmp_cd="
  /\ (forall tr',
         main sample_env [py "financial_summary.py"; [0x20; 0x3000]%N] []
         = (Ok tt, tr') ->
         exists fetched merged,
           tr' = [] ++ fetched
                    ++ [EvMakedirs (py "output");
                        EvToCsv (py "output/.csv") merged (py "utf-8-sig");
                        EvPrint (py "✓ 저장 완료: output/.csv")]).
Proof.
  apply (main_blank_argument sample_env (py "financial_summary.py")
                             [0x20; 0x3000]%N []).
  repeat constructor.
Defined.

(** Lines 121-128: [os.path.join] drops [output] when the file name is
    an absolute path. For an entity code that starts with a slash a run
    that succeeds still creates the directory [output], but hands the
    frame to [to_csv] under [<code>.csv] itself, outside that
    directory. *)
Theorem main_absolute_code
        (E : Env) (prog arg : str) (tr tr' : list event) :
  main E [prog; arg] tr = (Ok tt, tr') ->
  PyStr.startswith (py "/") (PyStr.strip arg) = true ->
  exists fetched merged,
    Forall fetch_event fetched
    /\ tr' = tr ++ fetched
                ++ [EvMakedirs (py "output");
                    EvToCsv (PyStr.strip arg ++ py ".csv") merged (py "utf-8-sig");
                    EvPrint (py "✓ 저장 완료: " ++ PyStr.strip arg ++ py ".csv")].
Proof.
  intros H Hslash.
  destruct (main_ok_trace E prog arg tr tr' H) as (fetched & merged & Hf & ->).
  exists fetched, merged. split; [assumption|].
  unfold closing_events, path_join.
  replace (PyStr.startswith (py "/") (PyStr.strip arg ++ py ".csv")) with true.
  - reflexivity.
  - destruct (PyStr.strip arg) as [|c code]; [discriminate|].
    symmetry. change (py "/") with [47%N] in *. cbn [PyStr.startswith app] in *.
    destruct (47 =? c)%N; [reflexivity | discriminate].
Qed.

Lemma main_absolute_code_witness :
  exists fetched merged,
    Forall fetch_event fetched
    /\ snd (main (env_with [banner; annual_table])
                 [py "financial_summary.py"; slash_code] [])
       = [] ++ fetched
            ++ [EvMakedirs (py "output");
                EvToCsv (py "/tmp/x.csv") merged (py "utf-8-sig");
                EvPrint (py "✓ 저장 완료: /tmp/x.csv")].
Proof.
  apply (main_absolute_code (env_with [banner; annual_table])
                            (py "financial_summary.py") slash_code []).
  - by_running.
  - by_running.
Defined.

(* ===================================================================== *)
(** ** Every outcome of a fetch *)
(* ===================================================================== *)

Section KeyingInversion.

Lemma positions_from_nil_inv {A} (f : A -> bool) (l : list A) (i : nat) :
  positions_from f i l = [] -> existsb f l = false.
Proof.
  revert i. induction l as [|x l IH]; intros i H; cbn in *; [reflexivity|].
  destruct (f x); [discriminate | exact (IH _ H)].
Qed.

(** A predicate with a single position in a list: what stands there
    passes it, nothing else does, and removing it leaves nothing that
    passes. *)
Lemma positions_from_single {A} (f : A -> bool) (l : list A) :
  forall i j,
    positions_from f i l = [j] ->
    exists k x,
      j = i + k
      /\ nth_error l k = Some x /\ f x = true
      /\ (forall k' y, nth_error l k' = Some y -> f y = true -> k' = k)
      /\ existsb f (remove_nth k l) = false
      /\ S (length (remove_nth k l)) = length l.
Proof.
  induction l as [|x l IH]; intros i j H; cbn in H; [discriminate|].
  destruct (f x) eqn:Hx.
  - injection H as <- Hrest. apply positions_from_nil_inv in Hrest.
    exists 0, x. repeat split; try assumption; [lia|].
    intros [|k'] y Hy Hfy; [reflexivity|]. cbn in Hy.
    apply nth_error_In in Hy.
    assert (existsb f l = true) by (apply existsb_exists; eauto).
    congruence.
  - destruct (IH _ _ H) as (k & y & -> & Hnth & Hfy & Huniq & Hnone & Hlen).
    exists (S k), y. repeat split; try assumption.
    + lia.
    + intros [|k'] z Hz Hfz; cbn in Hz.
      * injection Hz as <-. congruence.
      * f_equal. exact (Huniq _ _ Hz Hfz).
    + cbn. now rewrite Hx.
    + cbn. now rewrite Hlen.
Qed.

Lemma positions_single {A} (f : A -> bool) (l : list A) (j : nat) :
  positions f l = [j] ->
  exists x,
    nth_error l j = Some x /\ f x = true
    /\ (forall k' y, nth_error l k' = Some y -> f y = true -> k' = j)
    /\ existsb f (remove_nth j l) = false
    /\ S (length (remove_nth j l)) = length l.
Proof.
  intros H. apply positions_from_single in H as (k & x & -> & H).
  now exists x.
Qed.

(** What lines 84-86 can raise on a flat header. *)
Lemma key_flat_raise (fs : DataFrame Columns) (L : list str) (e : exn) :
  columns fs = Index L ->
  (if negb (has_key (columns fs) key_column)
   then Raise (ValueError msg_missing_key)
   else set_index fs key_column) = Raise e ->
  (e = ValueError msg_missing_key /\ ~ In key_column L)
  \/ e = not_one_dimensional.
Proof.
  intros Hc. rewrite Hc. cbn [has_key].
  destruct (existsb (PyStr.eqb key_column) L) eqn:Hex; cbn [negb].
  - unfold set_index. rewrite Hc.
    destruct (positions (PyStr.eqb key_column) L) as [|j [|j' l]] eqn:Hp.
    + apply positions_from_nil_inv in Hp. congruence.
    + discriminate.
    + intros H. injection H as <-. now right.
  - intros H. injection H as <-. left. split; [reflexivity|].
    intros Hin. apply existsb_str_eqb in Hin. congruence.
Qed.

(** What lines 84-86 return on a flat header. *)
Lemma key_flat_ok (fs df : DataFrame Columns) (L : list str) :
  columns fs = Index L ->
  (if negb (has_key (columns fs) key_column)
   then Raise (ValueError msg_missing_key)
   else set_index fs key_column) = Ok df ->
  index_name df = Some key_column
  /\ has_key (columns df) key_column = false
  /\ exists j,
      nth_error L j = Some key_column
      /\ (forall j', nth_error L j' = Some key_column -> j' = j)
      /\ rows df = key_rows j (rows fs)
      /\ S (ncols (columns df)) = length L.
Proof.
  intros Hc. rewrite Hc. cbn [has_key].
  destruct (existsb (PyStr.eqb key_column) L); cbn [negb]; [|discriminate].
  unfold set_index. rewrite Hc.
  destruct (positions (PyStr.eqb key_column) L) as [|j [|j' l]] eqn:Hp;
    try discriminate.
  intros H. injection H as <-. cbn [index_name columns rows has_key ncols].
  apply positions_single in Hp as (x & Hnth & Hx & Huniq & Hnone & Hlen).
  apply str_eqb_eq in Hx. subst x.
  repeat split; [assumption|]. exists j. repeat split; try assumption.
  intros j' Hj'. exact (Huniq j' key_column Hj' (str_eqb_refl _)).
Qed.

Lemma nth_error_map_tl (ts : list (list str)) (j : nat) (x : list str) :
  nth_error (map (@tl str) ts) j = Some x ->
  exists t, nth_error ts j = Some t /\ x = tl t.
Proof.
  rewrite nth_error_map. destruct (nth_error ts j) as [t|]; [|discriminate].
  intros H. injection H as <-. now exists t.
Qed.

(** What lines 81-86 can raise. *)
Lemma key_second_table_raise (fs : DataFrame Columns) (e : exn) :
  key_second_table fs = Raise e ->
  (e = ValueError msg_missing_key
   /\ exists L, labels_after_drop (columns fs) = Some L /\ ~ In key_column L)
  \/ e = not_one_dimensional
  \/ e = cannot_drop_level.
Proof.
  unfold key_second_table, collapse_header.
  destruct (columns fs) as [ls|n ts] eqn:Hc.
  - intros H. destruct (key_flat_raise fs ls e Hc H) as [[-> Hnot]| ->];
      [left; split; [reflexivity | now exists ls] | right; now left].
  - destruct n as [|[|[|n]]]; cbn [droplevel0].
    + intros H. injection H as <-. right. now right.
    + intros H. injection H as <-. right. now right.
    + intros H.
      destruct (key_flat_raise
                  {| columns := Index (map (fun t => nth 1 t []) ts);
                     index_name := index_name fs; rows := rows fs |}
                  _ e eq_refl H) as [[-> Hnot]| ->];
        [left; split; [reflexivity | eexists; split; [reflexivity | exact Hnot]]
        | right; now left].
    + cbn [columns].
      destruct (has_key (MultiIndex (S (S n)) (map (@tl str) ts)) key_column)
        eqn:Hhas; cbn [negb].
      * unfold set_index. cbn [columns].
        destruct (positions (heads key_column) (map (@tl str) ts))
          as [|j [|j' l]] eqn:Hp.
        -- apply positions_from_nil_inv in Hp. cbn [has_key] in Hhas. congruence.
        -- destruct (forallb _ _); [discriminate|].
           intros H. injection H as <-. right. now left.
        -- intros H. injection H as <-. right. now left.
      * intros H. injection H as <-. left. split; [reflexivity|].
        eexists. split; [reflexivity|]. intros Hin.
        apply in_map_iff in Hin as (t & Heq & Hin).
        assert (has_key (MultiIndex (S (S n)) (map (@tl str) ts)) key_column
                = true) by (apply has_key_after_drop; eauto).
        congruence.
Qed.

(** What lines 81-88 return: the table keyed by its only column that
    carries the key column's name where line 84 looks for it. *)
Lemma key_second_table_ok (fs df : DataFrame Columns) :
  key_second_table fs = Ok df ->
  index_name df = Some key_column
  /\ has_key (columns df) key_column = false
  /\ exists L j,
      labels_after_drop (columns fs) = Some L
      /\ nth_error L j = Some key_column
      /\ (forall j', nth_error L j' = Some key_column -> j' = j)
      /\ rows df = key_rows j (rows fs)
      /\ S (ncols (columns df)) = ncols (columns fs).
Proof.
  unfold key_second_table, collapse_header.
  destruct (columns fs) as [ls|n ts] eqn:Hc.
  - intros H. destruct (key_flat_ok fs df ls Hc H) as (Hn & Hk & j & Hj).
    repeat split; try assumption. now exists ls, j.
  - destruct n as [|[|[|n]]]; cbn [droplevel0]; try discriminate.
    + intros H.
      destruct (key_flat_ok
                  {| columns := Index (map (fun t => nth 1 t []) ts);
                     index_name := index_name fs; rows := rows fs |}
                  df _ eq_refl H) as (Hn & Hk & j & Hj1 & Hj2 & Hj3 & Hj4).
      repeat split; try assumption. eexists _, j.
      repeat split; try eassumption; try reflexivity.
      cbn [ncols]. now rewrite length_map in Hj4.
    + cbn [columns].
      destruct (has_key (MultiIndex (S (S n)) (map (@tl str) ts)) key_column);
        cbn [negb]; [|discriminate].
      unfold set_index. cbn [columns rows].
      destruct (positions (heads key_column) (map (@tl str) ts))
        as [|j [|j' l]] eqn:Hp; try discriminate.
      destruct (forallb _ _); [|discriminate].
      intros H. injection H as <-. cbn [index_name columns rows has_key ncols].
      apply positions_single in Hp as (x & Hnth & Hx & Huniq & Hnone & Hlen).
      apply nth_error_map_tl in Hnth as (t & Hnth & ->).
      rewrite (heads_tl _ _ key_column_nonempty) in Hx.
      apply str_eqb_eq in Hx.
      repeat split; [assumption|].
      exists (map (fun t => nth 1 t []) ts), j. repeat split.
      * pose proof (map_nth_error (fun t : list str => nth 1 t []) j ts Hnth)
          as Hm.
        cbn beta in Hm. rewrite <- Hx in Hm. exact Hm.
      * intros j' Hj'.
        destruct (nth_error ts j') as [t'|] eqn:Ht'.
        -- pose proof (map_nth_error (fun t : list str => nth 1 t []) j' ts Ht')
             as Hm. cbn beta in Hm.
           assert (Heq : Some (nth 1 t' []) = Some key_column)
             by (rewrite <- Hm; exact Hj').
           injection Heq as Heq.
           apply (Huniq j' (tl t')).
           ++ exact (map_nth_error (@tl str) j' ts Ht').
           ++ rewrite (heads_tl _ _ key_column_nonempty). now apply str_eqb_eq.
        -- apply nth_error_None in Ht'.
           assert (Hm : nth_error (map (fun t : list str => nth 1 t []) ts) j'
                        = None)
             by (apply nth_error_None; now rewrite length_map).
           exfalso. assert (Heq : @None str = Some key_column)
             by (rewrite <- Hm; exact Hj').
           discriminate.
      * now rewrite length_map in Hlen.
Qed.

End KeyingInversion.

Section FetchOutcomes.

Variable E : Env.

Lemma extract_tokens_raise (code page : str) (e : exn) :
  extract_tokens code page = Raise e ->
  e = ValueError (msg_extraction code)
  /\ (Re.search true re_enc page = None \/ Re.search true re_id page = None).
Proof.
  unfold extract_tokens.
  destruct (Re.search true re_enc page); [|intros H; injection H as <-; auto].
  destruct (Re.search true re_id page); [discriminate|].
  intros H; injection H as <-; auto.
Qed.

Lemma blank_false (raw : str) :
  blank raw = false -> ~ Forall (fun c => PyStr.isspace c = true) raw.
Proof. intros Hb H. apply blank_iff in H. congruence. Qed.

(** A fetch that returns has keyed the second table of the parsed
    answer of the data endpoint. *)
Lemma GetNvrFin_ok_table (code f : str) (tr tr' : list event)
      (df : DataFrame Columns) :
  GetNvrFin E code f tr = (Ok df, tr') ->
  exists toks raw tables fs,
    http_get E (tr ++ [EvGet (portal_request code)])
             (ajax_request code f (fst toks) (snd toks)) = Ok raw
    /\ read_html E raw = Ok tables
    /\ nth_error tables 1 = Some fs
    /\ key_second_table fs = Ok df.
Proof.
  destruct (GetNvrEncparam E code tr) as [[toks|e] tr1] eqn:Htok.
  - pose proof (GetNvrEncparam_trace E code tr tr1 _ Htok) as ->.
    rewrite (GetNvrFin_after_tokens E code f tr _ toks Htok). cbv zeta.
    destruct (http_get E (tr ++ _) _) as [raw|] eqn:Hajax; [|discriminate].
    destruct (blank raw); [discriminate|].
    rewrite normalize_run.
    destruct (read_html E raw) as [tables|] eqn:Hread; [|discriminate].
    destruct (Nat.ltb (length tables) 2); [discriminate|].
    destruct (nth_error tables 1) as [fs|] eqn:Hnth; [|discriminate].
    intros H. injection H as Hk _. now exists toks, raw, tables, fs.
  - rewrite (GetNvrFin_no_tokens E code f tr _ e Htok). discriminate.
Qed.

End FetchOutcomes.

(** Lines 45-88: every way [GetNvrFin] can fail. Either one of the five
    error kinds arises, or the HTML parser raises and its exception
    passes through, or pandas refuses the header of the second table
    (the key column's name heads more than one column, or a column with
    labels below it; or the header is a [MultiIndex] of a single level).
    In the last two cases the fetch has sent both requests and called
    the parser. *)
Theorem GetNvrFin_failures
        (E : Env) (code f : str) (tr tr' : list event) (e : exn) :
  GetNvrFin E code f tr = (Raise e, tr') ->
  (exists k evs, arises E code f tr k e evs /\ tr' = tr ++ evs)
  \/ (exists toks raw,
         tr' = tr ++ fetch_events code f toks raw
         /\ (read_html E raw = Raise e
             \/ e = not_one_dimensional
             \/ e = cannot_drop_level)).
Proof.
  destruct (http_get E tr (portal_request code)) as [page|e0] eqn:Hget.
  - destruct (extract_tokens code page) as [toks|e1] eqn:Hext.
    + rewrite (GetNvrFin_after_tokens E code f tr _ toks
                 (GetNvrEncparam_ok E code page tr _ Hget Hext)). cbv zeta.
      destruct (http_get E (tr ++ _) _) as [raw|e2] eqn:Hajax.
      * destruct (blank raw) eqn:Hb.
        -- intros H. injection H as <- <-. left.
           exists EmptyResponseError. eexists. split.
           ++ apply (@empty_body E code f tr page toks raw Hget Hext Hajax).
              now apply blank_iff.
           ++ now rewrite <- app_assoc.
        -- apply blank_false in Hb. rewrite normalize_run.
           destruct (read_html E raw) as [tables|e3] eqn:Hread.
           ++ destruct (Nat.ltb (length tables) 2) eqn:Hlt.
              ** intros H. injection H as <- <-. left.
                 exists TableCountError. eexists. split.
                 --- apply (@few_tables E code f tr page toks raw tables
                                        Hget Hext Hajax Hb Hread).
                     now apply Nat.ltb_lt.
                 --- unfold fetch_events. now rewrite <- !app_assoc.
              ** destruct (nth_error tables 1) as [fs|] eqn:Hnth.
                 --- intros H. injection H as Hk <-.
                     apply key_second_table_raise in Hk
                       as [[-> (L & HL & Hnot)]|Hp].
                     +++ left. exists MissingKeyColumnError. eexists. split.
                         *** exact (@no_key_column E code f tr page toks raw
                                      tables fs L Hget Hext Hajax Hb Hread
                                      Hnth HL Hnot).
                         *** unfold fetch_events. now rewrite <- !app_assoc.
                     +++ right. exists toks, raw. split; [|now right].
                         unfold fetch_events. now rewrite <- !app_assoc.
                 --- apply nth_error_None in Hnth. apply Nat.ltb_ge in Hlt. lia.
           ++ intros H. injection H as <- <-. right. exists toks, raw.
              split; [|now left].
              unfold fetch_events. now rewrite <- !app_assoc.
      * intros H. injection H as <- <-. left.
        exists TransportError. eexists. split.
        -- exact (@data_down E code f tr page toks e2 Hget Hext Hajax).
        -- now rewrite <- app_assoc.
    + rewrite (GetNvrFin_no_tokens E code f tr _ e1
                 (GetNvrEncparam_ok E code page tr _ Hget Hext)).
      intros H. injection H as <- <-.
      apply extract_tokens_raise in Hext as [-> Habs].
      left. exists ExtractionError. eexists. split; [|reflexivity].
      exact (@no_tokens E code f tr page Hget Habs).
  - rewrite (GetNvrFin_no_tokens E code f tr (tr ++ [EvGet (portal_request code)]) e0).
    + intros H. injection H as <- <-. left.
      exists TransportError. eexists. split; [|reflexivity].
      exact (@portal_down E code f tr e0 Hget).
    + now rewrite GetNvrEncparam_run, Hget.
Qed.

Lemma GetNvrFin_failures_witness :
  (exists k evs,
      arises (env_with [banner; twin_key_table]) sample_code (py "Y") []
             k not_one_dimensional evs
      /\ fetch_events sample_code (py "Y") (Some (py "tok1=="), Some (py "S1"))
                      sample_raw = [] ++ evs)
  \/ (exists toks raw,
         fetch_events sample_code (py "Y") (Some (py "tok1=="), Some (py "S1"))
                      sample_raw
         = [] ++ fetch_events sample_code (py "Y") toks raw
         /\ (read_html (env_with [banner; twin_key_table]) raw
             = Raise not_one_dimensional
             \/ not_one_dimensional = not_one_dimensional
             \/ not_one_dimensional = cannot_drop_level)).
Proof.
  apply (GetNvrFin_failures (env_with [banner; twin_key_table])
                            sample_code (py "Y") []).
  by_running.
Defined.

(** Lines 76-88: whenever [GetNvrFin] returns a table, it is the second
    table of the parsed answer with one column taken out: the only
    column that carries the key column's name among the labels line 84
    looks at. The cells of that column, in the order of the rows, are
    the row labels; the index is named after the key column; the table
    has one column fewer, and none of them is found under the key
    column's name. *)
Theorem GetNvrFin_result_shape
        (E : Env) (code f : str) (tr tr' : list event) (df : DataFrame Columns) :
  GetNvrFin E code f tr = (Ok df, tr') ->
  index_name df = Some key_column
  /\ has_key (columns df) key_column = false
  /\ exists toks raw tables fs L j,
      http_get E (tr ++ [EvGet (portal_request code)])
               (ajax_request code f (fst toks) (snd toks)) = Ok raw
      /\ read_html E raw = Ok tables
      /\ nth_error tables 1 = Some fs
      /\ labels_after_drop (columns fs) = Some L
      /\ nth_error L j = Some key_column
      /\ (forall j', nth_error L j' = Some key_column -> j' = j)
      /\ rows df = key_rows j (rows fs)
      /\ S (ncols (columns df)) = ncols (columns fs).
Proof.
  intros H.
  apply GetNvrFin_ok_table in H
    as (toks & raw & tables & fs & Hajax & Hread & Hnth & Hk).
  apply key_second_table_ok in Hk as (Hn & Hhas & L & j & HL & Hj & Hu & Hr & Hc).
  repeat split; try assumption.
  now exists toks, raw, tables, fs, L, j.
Qed.

Lemma GetNvrFin_result_shape_witness :
  let df := {| columns := Index [py "2022/12"; py "2023/12"];
               index_name := Some key_column;
               rows := [(Text (py "매출액"), [Num 100; Num 120]);
                        (Text (py "자산총계"), [Num 900; Num 950]);
                        (Text (py "영업이익"), [Num 10; Num 12])] |} in
  index_name df = Some key_column
  /\ has_key (columns df) key_column = false
  /\ exists toks raw tables fs L j,
      http_get sample_env ([] ++ [EvGet (portal_request sample_code)])
               (ajax_request sample_code (py "Y") (fst toks) (snd toks)) = Ok raw
      /\ read_html sample_env raw = Ok tables
      /\ nth_error tables 1 = Some fs
      /\ labels_after_drop (columns fs) = Some L
      /\ nth_error L j = Some key_column
      /\ (forall j', nth_error L j' = Some key_column -> j' = j)
      /\ rows df = key_rows j (rows fs)
      /\ S (ncols (columns df)) = ncols (columns fs).
Proof.
  cbv zeta.
  apply (GetNvrFin_result_shape sample_env sample_code (py "Y") []
           (fetch_events sample_code (py "Y")
                         (Some (py "tok1=="), Some (py "S1")) sample_raw)).
  by_running.
Defined.

(* ===================================================================== *)
(** ** The rows of the merged table *)
(* ===================================================================== *)

Section RequestedRows.

Lemma is_metric_inv (ms : list str) (l : cell) :
  is_metric ms l = true -> exists m, l = Text m /\ In m ms.
Proof.
  destruct l as [s| |]; cbn; try discriminate.
  intros H. apply existsb_exists in H as (m & Hin & Heq).
  apply str_eqb_eq in Heq. subst. eauto.
Qed.

Lemma NoDup_filter_once (f : cell -> bool) (l : list cell) :
  (forall x, f x = true -> count_occ cell_eq_dec l x <= 1) ->
  NoDup (filter f l).
Proof.
  induction l as [|y l IH]; intros H; cbn; [constructor|].
  assert (Hl : forall x, f x = true -> count_occ cell_eq_dec l x <= 1).
  { intros x Hx. specialize (H x Hx). cbn in H.
    destruct (cell_eq_dec y x); lia. }
  destruct (f y) eqn:Hy; [|now apply IH].
  constructor; [|now apply IH].
  intros Hin. apply filter_In in Hin as [Hin _].
  apply (count_occ_In cell_eq_dec) in Hin.
  specialize (H y Hy). cbn in H.
  destruct (cell_eq_dec y y); [lia | contradiction].
Qed.

Lemma filter_idem {A} (f : A -> bool) (l : list A) :
  filter f (filter f l) = filter f l.
Proof. apply filter_id. intros x Hx. apply filter_In in Hx. tauto. Qed.

Lemma flat_map_ext_in {A B} (f g : A -> list B) (l : list A) :
  (forall x, In x l -> f x = g x) -> flat_map f l = flat_map g l.
Proof.
  induction l as [|x l IH]; intros H; cbn; [reflexivity|].
  rewrite (H x (or_introl eq_refl)), IH; [reflexivity|].
  intros y Hy. apply H. now right.
Qed.

(** Lines 107-108 look at the rows of the requested metrics only. *)
Lemma select_restrict (df : DataFrame Columns) (ms : list str) :
  select df ms
  = select {| columns := columns df; index_name := index_name df;
              rows := filter (fun r => is_metric ms (fst r)) (rows df) |} ms.
Proof.
  set (f := is_metric ms).
  set (df' := {| columns := columns df; index_name := index_name df;
                 rows := filter (fun r => f (fst r)) (rows df) |}).
  assert (Hidx : index df' = filter f (index df)) by apply map_fst_filter.
  unfold select, intersection. fold f.
  rewrite Hidx, filter_idem.
  set (avail := unique (filter f (index df))).
  assert (Havail : forall l, In l avail -> f l = true /\ In l (index df)).
  { intros l Hl. apply in_unique, filter_In in Hl. tauto. }
  unfold loc.
  replace (forallb (fun l => existsb (cell_eqb l) (index df)) avail) with true.
  2:{ symmetry. apply forallb_forall. intros l Hl. apply existsb_cell_eqb.
      now apply Havail. }
  replace (forallb (fun l => existsb (cell_eqb l) (index df')) avail) with true.
  2:{ symmetry. apply forallb_forall. intros l Hl. apply existsb_cell_eqb.
      rewrite Hidx. apply filter_In. destruct (Havail l Hl). now split. }
  cbn [columns index_name df'].
  replace (flat_map (rows_of df') avail) with (flat_map (rows_of df) avail);
    [reflexivity|].
  apply flat_map_ext_in. intros l Hl. unfold rows_of. cbn [rows df'].
  symmetry. apply filter_filter_label. now apply Havail.
Qed.

(** Rows that are no requested metric may repeat: the selection
    succeeds as soon as no requested metric stands twice. *)
Lemma select_metrics_once (df : DataFrame Columns) (ms : list str) :
  metrics_once df ms ->
  select df ms
  = Ok {| columns := columns df;
          index_name := index_name df;
          rows := map (selected_row df) ms |}.
Proof.
  intros Honce. rewrite select_restrict.
  set (f := is_metric ms).
  set (df' := {| columns := columns df; index_name := index_name df;
                 rows := filter (fun r => f (fst r)) (rows df) |}).
  assert (Hnd : NoDup (index df')).
  { unfold index. cbn [rows df']. rewrite map_fst_filter.
    apply NoDup_filter_once. intros x Hx.
    apply is_metric_inv in Hx as (m & -> & Hm). now apply Honce. }
  rewrite (select_rows df' ms Hnd). cbn [columns index_name df'].
  do 2 f_equal. apply map_ext_in. intros m Hm.
  unfold selected_row, row_or_nan, rows_of. cbn [columns rows df'].
  now rewrite (filter_filter_label f (Text m) (rows df) (is_metric_text ms m Hm)).
Qed.

Lemma combine_selected_rows (a q : DataFrame Columns) (ms : list str) :
  map (fun p => (fst (fst p), snd (fst p) ++ snd (snd p)))
      (combine (map (selected_row a) ms) (map (selected_row q) ms))
  = map (merged_row a q) ms.
Proof. induction ms as [|m ms IH]; cbn; [reflexivity | now rewrite IH]. Qed.

(** Lines 107-118 on two tables in which no requested metric repeats. *)
Lemma select_prefix_merge_rows (E : Env) (ms : list str)
      (a q : DataFrame Columns) :
  metrics_once a ms -> metrics_once q ms ->
  select_prefix_merge E ms a q
  = Ok {| columns := map (fun col => py "Y_" ++ format_label E col)
                         (labels_of (columns a))
                     ++ map (fun col => py "Q_" ++ format_label E col)
                            (labels_of (columns q));
          index_name := match index_name a, index_name q with
                        | Some x, Some y => if PyStr.eqb x y then Some x else None
                        | _, _ => None
                        end;
          rows := map (merged_row a q) ms |}.
Proof.
  intros Ha Hq. unfold select_prefix_merge, merge.
  rewrite (select_metrics_once a ms Ha), (select_metrics_once q ms Hq).
  rewrite !prefix_columns_ok. cbn [columns index_name rows].
  rewrite concat_same_index.
  - cbn [columns index_name rows]. now rewrite combine_selected_rows.
  - unfold index. cbn [rows]. rewrite !map_map. reflexivity.
Qed.

(** The only exception of lines 107-108 is the one of [reindex]. *)
Lemma select_raise (df : DataFrame Columns) (ms : list str) (e : exn) :
  select df ms = Raise e ->
  e = ValueError (py "cannot reindex on an axis with duplicate labels").
Proof.
  unfold select, loc.
  replace (forallb (fun l => existsb (cell_eqb l) (index df))
                   (intersection (index df) ms)) with true.
  - unfold reindex.
    destruct (cells_eqb _ _); [discriminate|].
    destruct (is_unique _); [discriminate|].
    intros H. now injection H as <-.
  - symmetry. apply forallb_forall. intros l Hl. apply existsb_cell_eqb.
    apply in_unique, filter_In in Hl. tauto.
Qed.

End RequestedRows.

(** Lines 107-108: the selection succeeds exactly when no requested
    metric stands more than once among the row labels; rows that are
    not requested may repeat, they are left out before [reindex] looks
    at the labels. *)
Theorem select_tolerates_other_repeats (df : DataFrame Columns) (ms : list str) :
  NoDup ms ->
  (metrics_once df ms ->
   select df ms
   = Ok {| columns := columns df;
           index_name := index_name df;
           rows := map (selected_row df) ms |})
  /\ ((exists m, In m ms /\ 2 <= count_occ cell_eq_dec (index df) (Text m)) ->
      select df ms
      = Raise (ValueError (py "cannot reindex on an axis with duplicate labels"))).
Proof.
  intros Hnd. split.
  - apply select_metrics_once.
  - intros (m & Hm & Hcount). exact (select_repeated df ms m Hnd Hm Hcount).
Qed.

Lemma select_tolerates_other_repeats_witness :
  select repeated_other_table metrics
  = Ok {| columns := columns repeated_other_table;
          index_name := index_name repeated_other_table;
          rows := map (selected_row repeated_other_table) metrics |}.
Proof.
  refine (proj1 (select_tolerates_other_repeats repeated_other_table metrics _) _).
  - unfold metrics. repeat constructor; cbn; intuition discriminate.
  - intros m Hm. vm_compute in Hm.
    repeat (destruct Hm as [<-|Hm]; [vm_compute; lia|]). contradiction.
Defined.

(** The tables [GetNvrFin] returns are indexed under the key column's
    name. *)
Lemma GetNvrFin_index_name (E : Env) (code f : str) (tr tr' : list event)
      (df : DataFrame Columns) :
  GetNvrFin E code f tr = (Ok df, tr') -> index_name df = Some key_column.
Proof.
  intros H. apply GetNvrFin_ok_table in H as (? & ? & ? & fs & _ & _ & _ & Hk).
  now apply key_second_table_ok in Hk.
Qed.

(** A run whose fetches returned tables in which no requested metric
    repeats goes on to lines 120-128 with the merged table. *)
Lemma main_run_merged (E : Env) (prog arg : str) (tr t1 t2 : list event)
      (a q : DataFrame Columns) :
  GetNvrFin E (PyStr.strip arg) (py "Y") tr = (Ok a, t1) ->
  GetNvrFin E (PyStr.strip arg) (py "Q") t1 = (Ok q, t2) ->
  metrics_once a metrics -> metrics_once q metrics ->
  main E [prog; arg] tr
  = save E (PyStr.strip arg)
         {| columns := map (fun col => py "Y_" ++ format_label E col)
                           (labels_of (columns a))
                       ++ map (fun col => py "Q_" ++ format_label E col)
                              (labels_of (columns q));
            index_name := Some key_column;
            rows := map (merged_row a q) metrics |}
         t2.
Proof.
  intros Ha Hq Hoa Hoq. rewrite main_run. cbv zeta. rewrite Ha, Hq.
  rewrite (select_prefix_merge_rows E metrics a q Hoa Hoq).
  rewrite (GetNvrFin_index_name E _ _ _ _ _ Ha).
  rewrite (GetNvrFin_index_name E _ _ _ _ _ Hq).
  now rewrite str_eqb_refl.
Qed.

Lemma NoDup_metrics : NoDup metrics.
Proof. unfold metrics. repeat constructor; cbn; intuition discriminate. Qed.

(** Lines 101-128: what a run does once both fetches have returned. If
    no requested metric stands twice in either table, selection and
    merge succeed and the run goes on to lines 120-128 with one frame:
    the annual columns under [Y_] followed by the quarterly columns
    under [Q_], the index named after the key column, and exactly the
    six metrics as rows, in the order of the list, each with its annual
    cells followed by its quarterly cells (missing values where a table
    has no such row). From there the file system decides: an exception
    of [os.makedirs] ends the run before [to_csv] is called, an
    exception of [to_csv] ends it before anything is printed, and when
    both return the run succeeds, having handed this frame to [to_csv].
    If a requested metric stands twice in one of the tables, the run
    ends with the [ValueError] of [reindex] before line 120. *)
Theorem main_after_fetches
        (E : Env) (prog arg : str) (tr t1 t2 : list event)
        (a q : DataFrame Columns) :
  GetNvrFin E (PyStr.strip arg) (py "Y") tr = (Ok a, t1) ->
  GetNvrFin E (PyStr.strip arg) (py "Q") t1 = (Ok q, t2) ->
  let merged :=
    {| columns := map (fun col => py "Y_" ++ format_label E col)
                      (labels_of (columns a))
                  ++ map (fun col => py "Q_" ++ format_label E col)
                         (labels_of (columns q));
       index_name := Some key_column;
       rows := map (merged_row a q) metrics |} in
  let output_path := path_join (py "output") (PyStr.strip arg ++ py ".csv") in
  (metrics_once a metrics -> metrics_once q metrics ->
   (forall e,
       makedirs E t2 (py "output") = Raise e ->
       main E [prog; arg] tr = (Raise e, t2 ++ [EvMakedirs (py "output")]))
   /\ (forall e,
          makedirs E t2 (py "output") = Ok tt ->
          to_csv E (t2 ++ [EvMakedirs (py "output")]) output_path merged
                 (py "utf-8-sig") = Raise e ->
          main E [prog; arg] tr
          = (Raise e,
             t2 ++ [EvMakedirs (py "output");
                    EvToCsv output_path merged (py "utf-8-sig")]))
   /\ (makedirs E t2 (py "output") = Ok tt ->
       to_csv E (t2 ++ [EvMakedirs (py "output")]) output_path merged
              (py "utf-8-sig") = Ok tt ->
       main E [prog; arg] tr
       = (Ok tt, t2 ++ closing_events (PyStr.strip arg) merged)))
  /\ ((exists m, In m metrics
                 /\ (2 <= count_occ cell_eq_dec (index a) (Text m)
                     \/ 2 <= count_occ cell_eq_dec (index q) (Text m))) ->
      main E [prog; arg] tr
      = (Raise (ValueError (py "cannot reindex on an axis with duplicate labels")),
         t2)).
Proof.
  intros Ha Hq merged output_path. split.
  - intros Hoa Hoq.
    rewrite (main_run_merged E prog arg tr t1 t2 a q Ha Hq Hoa Hoq).
    fold merged. rewrite save_run. cbv zeta. fold output_path.
    repeat split.
    + intros e ->. reflexivity.
    + intros e -> ->. reflexivity.
    + intros -> ->. reflexivity.
  - intros (m & Hm & Hcount). rewrite main_run. cbv zeta. rewrite Ha, Hq.
    unfold select_prefix_merge.
    destruct (le_lt_dec 2 (count_occ cell_eq_dec (index a) (Text m)))
      as [Hca|Hca].
    + now rewrite (select_repeated a metrics m NoDup_metrics Hm Hca).
    + destruct Hcount as [Hc|Hcq]; [lia|].
      destruct (select a metrics) as [sa|e] eqn:Hsa.
      * now rewrite (select_repeated q metrics m NoDup_metrics Hm Hcq).
      * now rewrite (select_raise a metrics e Hsa).
Qed.

(** With tables that hold a slash-free code a file system that has the
    directory accepts the file: the run succeeds. *)
Lemma main_after_fetches_witness :
  main (env_with [banner; quarterly_table]) sample_argv []
  = (Ok tt,
     (fetch_events sample_code (py "Y") (Some (py "tok1=="), Some (py "S1"))
                   sample_raw
      ++ fetch_events sample_code (py "Q") (Some (py "tok1=="), Some (py "S1"))
                      (py "<table></table><table>Q</table>"))
     ++ closing_events
          (PyStr.strip sample_code)
          {| columns := [py "Y_2023/09"; py "Y_2023/12";
                         py "Q_2023/09"; py "Q_2023/12"];
             index_name := Some key_column;
             rows := [(Text (py "매출액"), [Num 30; Num 31; Num 30; Num 31]);
                      (Text (py "영업이익"), [Num 3; Num 4; Num 3; Num 4]);
                      (Text (py "당기순이익"), [NaN; NaN; NaN; NaN]);
                      (Text (py "영업이익률"), [NaN; NaN; NaN; NaN]);
                      (Text (py "PER(배)"), [Num 7; Num 8; Num 7; Num 8]);
                      (Text (py "PBR(배)"), [NaN; NaN; NaN; NaN])] |}).
Proof.
  refine (proj2 (proj2 (proj1 (main_after_fetches
                   (env_with [banner; quarterly_table])
                   (py "financial_summary.py") sample_code [] _ _
                   {| columns := Index [py "2023/09"; py "2023/12"];
                      index_name := Some key_column;
                      rows := [(Text (py "PER(배)"), [Num 7; Num 8]);
                               (Text (py "영업이익"), [Num 3; Num 4]);
                               (Text (py "매출액"), [Num 30; Num 31])] |}
                   {| columns := Index [py "2023/09"; py "2023/12"];
                      index_name := Some key_column;
                      rows := [(Text (py "PER(배)"), [Num 7; Num 8]);
                               (Text (py "영업이익"), [Num 3; Num 4]);
                               (Text (py "매출액"), [Num 30; Num 31])] |}
                   _ _) _ _)) _ _).
  - by_running.
  - by_running.
  - intros m Hm. vm_compute in Hm.
    repeat (destruct Hm as [<-|Hm]; [vm_compute; lia|]). contradiction.
  - intros m Hm. vm_compute in Hm.
    repeat (destruct Hm as [<-|Hm]; [vm_compute; lia|]). contradiction.
  - reflexivity.
  - reflexivity.
Defined.

(** Lines 107-128: a table without any of the six metrics, an empty
    one included, is no error. When neither fetched table holds a
    requested metric, selection and merge raise nothing: the run goes
    on to lines 120-128 with the six rows filled with missing values
    only, one per column, and it succeeds when the directory and the
    file can be written. *)
Theorem main_without_metric_rows
        (E : Env) (prog arg : str) (tr t1 t2 : list event)
        (a q : DataFrame Columns) :
  GetNvrFin E (PyStr.strip arg) (py "Y") tr = (Ok a, t1) ->
  GetNvrFin E (PyStr.strip arg) (py "Q") t1 = (Ok q, t2) ->
  (forall m, In m metrics -> ~ In (Text m) (index a)) ->
  (forall m, In m metrics -> ~ In (Text m) (index q)) ->
  exists merged,
    rows merged
    = map (fun m => (Text m,
                     nan_row (ncols (columns a) + ncols (columns q))))
          metrics
    /\ main E [prog; arg] tr = save E (PyStr.strip arg) merged t2
    /\ (makedirs E t2 (py "output") = Ok tt ->
        to_csv E (t2 ++ [EvMakedirs (py "output")])
               (path_join (py "output") (PyStr.strip arg ++ py ".csv"))
               merged (py "utf-8-sig") = Ok tt ->
        main E [prog; arg] tr
        = (Ok tt, t2 ++ closing_events (PyStr.strip arg) merged)).
Proof.
  intros Ha Hq Hna Hnq.
  assert (Hrun := main_run_merged E prog arg tr t1 t2 a q Ha Hq).
  exists {| columns := map (fun col => py "Y_" ++ format_label E col)
                           (labels_of (columns a))
                       ++ map (fun col => py "Q_" ++ format_label E col)
                              (labels_of (columns q));
            index_name := Some key_column;
            rows := map (merged_row a q) metrics |}.
  split; [|split].
  - cbn [rows]. apply map_ext_in. intros m Hm.
    unfold merged_row, nan_row.
    rewrite (row_or_nan_absent a _ _ (Hna m Hm)).
    rewrite (row_or_nan_absent q _ _ (Hnq m Hm)).
    unfold nan_row. now rewrite repeat_app.
  - apply Hrun.
    + intros m Hm.
      rewrite (proj1 (count_occ_not_In cell_eq_dec _ _) (Hna m Hm)). lia.
    + intros m Hm.
      rewrite (proj1 (count_occ_not_In cell_eq_dec _ _) (Hnq m Hm)). lia.
  - intros Hmk Hcsv. rewrite Hrun.
    + rewrite save_run. cbv zeta. now rewrite Hmk, Hcsv.
    + intros m Hm.
      rewrite (proj1 (count_occ_not_In cell_eq_dec _ _) (Hna m Hm)). lia.
    + intros m Hm.
      rewrite (proj1 (count_occ_not_In cell_eq_dec _ _) (Hnq m Hm)). lia.
Qed.

Lemma main_without_metric_rows_witness :
  exists merged,
    rows merged = map (fun m => (Text m, nan_row (1 + 1))) metrics
    /\ main (env_with [banner; empty_table]) sample_argv []
       = save (env_with [banner; empty_table]) (PyStr.strip sample_code) merged
              (fetch_events sample_code (py "Y")
                            (Some (py "tok1=="), Some (py "S1")) sample_raw
               ++ fetch_events sample_code (py "Q")
                               (Some (py "tok1=="), Some (py "S1"))
                               (py "<table></table><table>Q</table>"))
    /\ (makedirs (env_with [banner; empty_table])
                 (fetch_events sample_code (py "Y")
                               (Some (py "tok1=="), Some (py "S1")) sample_raw
                  ++ fetch_events sample_code (py "Q")
                                  (Some (py "tok1=="), Some (py "S1"))
                                  (py "<table></table><table>Q</table>"))
                 (py "output") = Ok tt ->
        to_csv (env_with [banner; empty_table])
               ((fetch_events sample_code (py "Y")
                              (Some (py "tok1=="), Some (py "S1")) sample_raw
                 ++ fetch_events sample_code (py "Q")
                                 (Some (py "tok1=="), Some (py "S1"))
                                 (py "<table></table><table>Q</table>"))
                ++ [EvMakedirs (py "output")])
               (path_join (py "output") (PyStr.strip sample_code ++ py ".csv"))
               merged (py "utf-8-sig") = Ok tt ->
        main (env_with [banner; empty_table]) sample_argv []
        = (Ok tt,
           (fetch_events sample_code (py "Y")
                         (Some (py "tok1=="), Some (py "S1")) sample_raw
            ++ fetch_events sample_code (py "Q")
                            (Some (py "tok1=="), Some (py "S1"))
                            (py "<table></table><table>Q</table>"))
           ++ closing_events (PyStr.strip sample_code) merged)).
Proof.
  refine (main_without_metric_rows
            (env_with [banner; empty_table])
            (py "financial_summary.py") sample_code [] _ _
            {| columns := Index [py "2023/12"];
               index_name := Some key_column; rows := [] |}
            {| columns := Index [py "2023/12"];
               index_name := Some key_column; rows := [] |}
            _ _ _ _).
  - by_running.
  - by_running.
  - intros m _ [].
  - intros m _ [].
Defined.

(* ===================================================================== *)
(** ** The two patterns, read backwards *)
(* ===================================================================== *)

Section ReInversion.

Import Re.

(** What follows the group of the second pattern wants a quote and
    closes the group. *)
Lemma run_after_group_inv (s : str) (acc : str) (st : mstate) r :
  cur st = Some acc ->
  run true [Close; One (Lit quote); Opt (Lit 0x20%N)] s st = Some r ->
  exists post,
    s = quote :: post /\ fst r = {| cur := None; grp := Some (rev acc) |}.
Proof.
  intros Hcur. cbn [run]. rewrite Hcur. cbn [option_map].
  destruct s as [|c s]; [discriminate|].
  rewrite accepts_quote. destruct (N.eqb_spec c quote) as [->|]; [|discriminate].
  cbn [consume cur]. intros H. exists s. split; [reflexivity|].
  destruct s as [|d s]; [now injection H as <-|].
  destruct (accepts true (Lit 0x20%N) d); cbn [orelse consume cur] in H;
    now injection H as <-.
Qed.

(** The lazy loop of the first pattern, read backwards: it has taken
    code points that are neither a quote nor a line feed, up to a
    quote. *)
Lemma more_lazy_inv (s : str) :
  forall (acc : str) (st : mstate) r,
    cur st = Some acc ->
    more (accepts true Any) false (run true [Close; One (Lit quote)]) s st
    = Some r ->
    exists t post,
      s = t ++ quote :: post
      /\ Forall (fun c => c <> quote /\ c <> 0x0A%N) t
      /\ r = ({| cur := None; grp := Some (rev acc ++ t) |}, post).
Proof.
  induction s as [|c s IH]; intros acc st r Hcur H.
  - cbn [more run] in H. discriminate.
  - cbn [more run] in H. rewrite accepts_quote in H.
    destruct (N.eqb_spec c quote) as [->|Hq].
    + cbn [orelse consume cur] in H. rewrite Hcur in H. injection H as <-.
      exists [], s. rewrite app_nil_r. repeat split. constructor.
    + cbn [orelse accepts] in H.
      destruct (N.eqb_spec c 0x0A%N) as [|Hn]; [discriminate|].
      cbn [negb] in H.
      apply (IH (c :: acc)) in H; [|unfold consume; now rewrite Hcur].
      destruct H as (t & post & -> & Hall & ->).
      exists (c :: t), post. repeat split.
      * now constructor.
      * cbn [rev]. now rewrite <- app_assoc.
Qed.

(** The greedy loop of the second pattern, read backwards: it has taken
    code points of the class, up to a quote. *)
Lemma more_greedy_inv (s : str) :
  forall (acc : str) (st : mstate) r,
    cur st = Some acc ->
    more (accepts true alnum) true
         (run true [Close; One (Lit quote); Opt (Lit 0x20%N)]) s st = Some r ->
    exists t post,
      s = t ++ quote :: post
      /\ Forall (fun c => accepts true alnum c = true) t
      /\ fst r = {| cur := None; grp := Some (rev acc ++ t) |}.
Proof.
  induction s as [|c s IH]; intros acc st r Hcur H.
  - cbn [more run] in H. discriminate.
  - cbn [more] in H.
    assert (Hstop : run true [Close; One (Lit quote); Opt (Lit 0x20%N)]
                        (c :: s) st = Some r ->
                    exists t post,
                      c :: s = t ++ quote :: post
                      /\ Forall (fun c => accepts true alnum c = true) t
                      /\ fst r = {| cur := None; grp := Some (rev acc ++ t) |}).
    { intros Hr. apply (run_after_group_inv _ acc) in Hr as (post & Heq & ->);
        [|assumption].
      exists [], post. rewrite app_nil_r. repeat split; [assumption | constructor]. }
    destruct (accepts true alnum c) eqn:Hc; [|now apply Hstop].
    destruct (more (accepts true alnum) true _ s (consume c st)) as [r'|] eqn:Hm;
      cbn [orelse] in H; [|now apply Hstop].
    injection H as <-.
    apply (IH (c :: acc)) in Hm; [|unfold consume; now rewrite Hcur].
    destruct Hm as (t & post & -> & Hall & ->).
    exists (c :: t), post. repeat split.
    + now constructor.
    + cbn [rev]. now rewrite <- app_assoc.
Qed.

Lemma tolower_above (c : PyStr.char) : (0x212A < c)%N -> tolower c = c.
Proof.
  intros H. unfold tolower.
  destruct (N.leb_spec 0x41 c), (N.leb_spec c 0x5A); cbn [andb]; try lia;
    destruct (N.eqb_spec c 0x130); try lia;
    destruct (N.eqb_spec c 0x212A); try lia; reflexivity.
Qed.

Lemma tolower_ascii (x : PyStr.char) : (x <= 0x7A)%N -> (tolower x <= 0x7A)%N.
Proof.
  intros H. unfold tolower.
  destruct (N.leb_spec 0x41 x), (N.leb_spec x 0x5A); cbn [andb]; try lia;
    destruct (N.eqb_spec x 0x130); try lia;
    destruct (N.eqb_spec x 0x212A); lia.
Qed.

Lemma casefix_small (z y : PyStr.char) : In y (casefix z) -> (y <= 0x17F)%N.
Proof.
  unfold casefix.
  destruct (z =? 0x69)%N; [intros [<-|[]]; lia|].
  destruct (z =? 0x73)%N; [intros [<-|[]]; lia | intros []].
Qed.

Lemma in_range_ci_above (c : PyStr.char) (r : PyStr.char * PyStr.char) :
  (snd r <= 0x7A)%N -> (0x212A < c)%N -> in_range_ci c r = false.
Proof.
  intros Hr Hc. unfold in_range_ci.
  destruct (existsb _ _) eqn:Hex; [|reflexivity].
  apply existsb_exists in Hex as (x & Hin & Hx).
  apply in_map_iff in Hin as (k & <- & Hk). apply in_seq in Hk.
  assert (Hsmall : (fst r + N.of_nat k <= 0x7A)%N) by lia.
  apply tolower_ascii in Hsmall.
  apply orb_true_iff in Hx as [Hx|Hx].
  - apply N.eqb_eq in Hx. lia.
  - apply existsb_exists in Hx as (y & Hy & Heq). apply N.eqb_eq in Heq.
    subst y. apply casefix_small in Hy. lia.
Qed.

Lemma alnum_class_table :
  forallb (fun x => implb (accepts true alnum x) (id_char x))
          (map N.of_nat (seq 0 0x212B)) = true.
Proof. by_running. Qed.

(** The class of the second pattern accepts the code points of
    [id_char] only. *)
Lemma accepts_alnum_inv (c : PyStr.char) :
  accepts true alnum c = true -> id_char c = true.
Proof.
  intros H. destruct (N.le_gt_cases c 0x212A) as [Hle|Hgt].
  - pose proof alnum_class_table as T. rewrite forallb_forall in T.
    specialize (T c). rewrite H in T. apply T.
    apply in_map_iff. exists (N.to_nat c). split; [apply N2Nat.id|].
    apply in_seq. lia.
  - exfalso. cbn [accepts alnum] in H. rewrite (tolower_above c Hgt) in H.
    cbn [existsb] in H.
    rewrite !in_range_ci_above in H by (cbn [snd]; lia). discriminate.
Qed.

(** Literals that are their own lower case and have no case-fix
    equivalent accept the spellings of themselves only. *)
Lemma lits_accept_inv (l s1 : str) :
  Forall (fun x => tolower x = x /\ casefix x = []) l ->
  Forall2 (fun x c => accepts true (Lit x) c = true) l s1 ->
  same_ignoring_case s1 l.
Proof.
  unfold same_ignoring_case. intros Hl H.
  induction H as [|x c l s1 Hxc _ IH]; [reflexivity|].
  inversion Hl as [|? ? [Hx Hfix] Hl']; subst.
  cbn [map]. rewrite (IH Hl'). f_equal.
  cbn [accepts] in Hxc. rewrite Hx, Hfix in Hxc. cbn [existsb] in Hxc.
  rewrite orb_false_r in Hxc. apply N.eqb_eq in Hxc. congruence.
Qed.

(** The literal [i] accepts i, I, the dotted capital I and the dotless
    i. *)
Lemma accepts_i_inv (c : PyStr.char) :
  accepts true (Lit 0x69%N) c = true -> In c [0x69; 0x49; 0x130; 0x131]%N.
Proof.
  cbn [accepts]. change (tolower 0x69%N) with 0x69%N.
  change (casefix 0x69%N) with [0x131%N]. cbn [existsb In].
  rewrite orb_false_r. intros H.
  apply orb_true_iff in H as [H|H]; apply N.eqb_eq in H; revert H;
    unfold tolower;
    destruct (N.leb_spec 0x41 c), (N.leb_spec c 0x5A); cbn [andb];
    destruct (N.eqb_spec c 0x130); destruct (N.eqb_spec c 0x212A); lia.
Qed.

Lemma skipn_split {A} (i : nat) (l r : list A) :
  skipn i l = r -> l = firstn i l ++ r.
Proof. intros <-. symmetry. apply firstn_skipn. Qed.

(** A match of the first pattern, read backwards. *)
Lemma run_re_enc_inv (s : str) (st : mstate) (rest : str) (e : str) :
  run true re_enc s start_state = Some (st, rest) ->
  grp st = Some e ->
  exists m post,
    s = m ++ e ++ quote :: post
    /\ same_ignoring_case m (py "encparam: '")
    /\ Forall (fun c => c <> 0x0A%N) e
    /\ Forall (fun c => c <> quote) (tl e).
Proof.
  intros H Hg. unfold re_enc in H.
  apply run_lits_inv in H as (m & s2 & -> & Hm & H); [|reflexivity].
  destruct s2 as [|c s2]; [discriminate|].
  rewrite run_open_plus in H. cbn [accepts] in H.
  destruct (N.eqb_spec c 0x0A%N) as [|Hc]; [discriminate|]. cbn [negb] in H.
  apply (more_lazy_inv s2 [c]) in H as (t & post & -> & Hall & Hr);
    [|reflexivity].
  injection Hr as -> _. cbn in Hg. injection Hg as <-.
  exists m, post. repeat split.
  - apply lits_accept_inv; [|assumption].
    repeat constructor.
  - constructor; [assumption|].
    eapply Forall_impl; [|exact Hall]. cbn. tauto.
  - cbn [tl]. eapply Forall_impl; [|exact Hall]. cbn. tauto.
Qed.

(** A match of the second pattern, read backwards. *)
Lemma run_re_id_inv (s : str) (st : mstate) (rest : str) (i : str) :
  run true re_id s start_state = Some (st, rest) ->
  grp st = Some i ->
  exists c0 m post,
    s = c0 :: m ++ i ++ quote :: post
    /\ In c0 [0x69; 0x49; 0x130; 0x131]%N
    /\ same_ignoring_case m (py "d: '")
    /\ Forall (fun c => id_char c = true) i.
Proof.
  intros H Hg. unfold re_id in H.
  apply run_lits_inv in H as (m & s2 & -> & Hm & H); [|reflexivity].
  change (py "id: '") with (0x69%N :: py "d: '") in Hm.
  inversion Hm as [|x c0 l m' Hc0 Hm']; subst.
  destruct s2 as [|c s2]; [discriminate|].
  rewrite run_open_plus in H.
  destruct (accepts true alnum c) eqn:Hc; [|discriminate].
  apply (more_greedy_inv s2 [c]) in H as (t & post & -> & Hall & Hr);
    [|reflexivity].
  cbn [fst] in Hr. subst st. cbn in Hg. injection Hg as <-.
  exists c0, m', post. repeat split.
  - now apply accepts_i_inv.
  - apply lits_accept_inv; [|assumption]. repeat constructor.
  - constructor; [now apply accepts_alnum_inv|].
    eapply Forall_impl; [|exact Hall]. intros a. apply accepts_alnum_inv.
Qed.

End ReInversion.

(** Lines 26-35, read backwards: whatever [GetNvrEncparam] returns
    stands in the page it fetched. The first token follows a spelling,
    in any letter case, of [encparam: '] and is followed by a quote; it
    holds no line feed, and no quote after its first code point. The
    second token follows a spelling of [id: '] (whose first letter may
    also be a dotted capital I or a dotless i) and is followed by a
    quote; it is made of ASCII letters and digits and of the four code
    points whose other case is an ASCII letter. *)
Theorem GetNvrEncparam_tokens_from_page
        (E : Env) (code : str) (tr tr1 : list event) (e i : str) :
  GetNvrEncparam E code tr = (Ok (Some e, Some i), tr1) ->
  exists html,
    http_get E tr (portal_request code) = Ok html
    /\ (exists pre m post,
           html = pre ++ m ++ e ++ quote :: post
           /\ same_ignoring_case m (py "encparam: '")
           /\ Forall (fun c => c <> 0x0A%N) e
           /\ Forall (fun c => c <> quote) (tl e))
    /\ (exists pre c0 m post,
           html = pre ++ c0 :: m ++ i ++ quote :: post
           /\ In c0 [0x69; 0x49; 0x130; 0x131]%N
           /\ same_ignoring_case m (py "d: '")
           /\ Forall (fun c => id_char c = true) i).
Proof.
  rewrite GetNvrEncparam_run. intros H.
  destruct (http_get E tr (portal_request code)) as [html|]; [|discriminate].
  injection H as H _. exists html. split; [reflexivity|].
  unfold extract_tokens, Re.search in H.
  destruct (Re.search_from true re_enc 0 html) as [m_enc|] eqn:He; [|discriminate].
  destruct (Re.search_from true re_id 0 html) as [m_id|] eqn:Hi; [|discriminate].
  injection H as Hge Hgi.
  apply search_from_inv in He as (i1 & st1 & r1 & _ & Hr1 & _ & ->).
  apply search_from_inv in Hi as (i2 & st2 & r2 & _ & Hr2 & _ & ->).
  cbn in Hge, Hgi. split.
  - destruct (run_re_enc_inv _ _ _ e Hr1 Hge) as (m & post & Hs & Hm & Hn & Hq).
    exists (firstn i1 html), m, post. repeat split; try assumption.
    now apply skipn_split.
  - destruct (run_re_id_inv _ _ _ i Hr2 Hgi)
      as (c0 & m & post & Hs & Hc0 & Hm & Hall).
    exists (firstn i2 html), c0, m, post. repeat split; try assumption.
    now apply skipn_split.
Qed.

Lemma GetNvrEncparam_tokens_from_page_witness :
  exists html,
    http_get folded_env [] (portal_request sample_code) = Ok html
    /\ (exists pre m post,
           html = pre ++ m ++ py "a" ++ quote :: post
           /\ same_ignoring_case m (py "encparam: '")
           /\ Forall (fun c => c <> 0x0A%N) (py "a")
           /\ Forall (fun c => c <> quote) (tl (py "a")))
    /\ (exists pre c0 m post,
           html = pre ++ c0 :: m ++ [0x212A; 0x17F]%N ++ quote :: post
           /\ In c0 [0x69; 0x49; 0x130; 0x131]%N
           /\ same_ignoring_case m (py "d: '")
           /\ Forall (fun c => id_char c = true) [0x212A; 0x17F]%N).
Proof.
  apply (GetNvrEncparam_tokens_from_page
           folded_env sample_code [] [EvGet (portal_request sample_code)]).
  by_running.
Defined.

Section TrailingSpace.

Import Re.

Lemma option_map_orelse {A B} (g : A -> B) (a b : option A) :
  option_map g (orelse a b) = orelse (option_map g a) (option_map g b).
Proof. now destruct a. Qed.

(** Two continuations that end in the same state make the loop end in
    the same state. *)
Lemma more_same_state (accept : PyStr.char -> bool) (greedy : bool)
      (k1 k2 : str -> mstate -> option (mstate * str)) :
  (forall s st, option_map fst (k1 s st) = option_map fst (k2 s st)) ->
  forall s st,
    option_map fst (more accept greedy k1 s st)
    = option_map fst (more accept greedy k2 s st).
Proof.
  intros Hk. induction s as [|c s IH]; intros st; cbn [more]; [apply Hk|].
  destruct greedy.
  - destruct (accept c); [|apply Hk].
    now rewrite !option_map_orelse, IH, Hk.
  - rewrite !option_map_orelse, Hk.
    destruct (accept c); [now rewrite IH | reflexivity].
Qed.

(** The same for the nodes in front of two pattern tails. *)
Lemma run_same_state (ic : bool) (p1 p2 : list node) :
  (forall s st, option_map fst (run ic p1 s st) = option_map fst (run ic p2 s st)) ->
  forall (pre : list node) s st,
    option_map fst (run ic (pre ++ p1) s st)
    = option_map fst (run ic (pre ++ p2) s st).
Proof.
  intros Hp. induction pre as [|n pre IH]; intros s st; [apply Hp|].
  destruct n; cbn [app run].
  - destruct s as [|c s]; [reflexivity|].
    destruct (accepts ic cs c); [apply IH | reflexivity].
  - destruct s as [|c s]; [reflexivity|].
    destruct (accepts ic cs c); [|reflexivity].
    now apply more_same_state.
  - destruct s as [|c s]; [apply IH|].
    destruct (accepts ic cs c); [|apply IH].
    now rewrite !option_map_orelse, !IH.
  - apply IH.
  - apply IH.
Qed.

(** After the closing quote, an optional space changes no state. *)
Lemma run_optional_space (s : str) (st : mstate) :
  option_map fst (run true [Close; One (Lit quote); Opt (Lit 0x20%N)] s st)
  = option_map fst (run true [Close; One (Lit quote)] s st).
Proof.
  cbn [run]. destruct s as [|c s]; [reflexivity|].
  destruct (accepts true (Lit quote) c); [|reflexivity].
  cbn [consume cur]. destruct s as [|d s]; [reflexivity|].
  destruct (accepts true (Lit 0x20%N) d); reflexivity.
Qed.

Lemma search_from_same_state (ic : bool) (p1 p2 : list node) :
  (forall s, option_map fst (run ic p1 s start_state)
             = option_map fst (run ic p2 s start_state)) ->
  forall s pos, search_from ic p1 pos s = search_from ic p2 pos s.
Proof.
  intros Hp. induction s as [|c s IH]; intros pos; cbn [search_from].
  - pose proof (Hp []) as H.
    destruct (run ic p1 [] start_state) as [[st1 r1]|],
             (run ic p2 [] start_state) as [[st2 r2]|];
      cbn in H; try discriminate; [injection H as ->|]; reflexivity.
  - pose proof (Hp (c :: s)) as H.
    destruct (run ic p1 (c :: s) start_state) as [[st1 r1]|],
             (run ic p2 (c :: s) start_state) as [[st2 r2]|];
      cbn in H; try discriminate; [injection H as ->; reflexivity | apply IH].
Qed.

End TrailingSpace.

(** Line 27: the [ ?] that ends the second pattern plays no part.
    With it or without it the pattern matches the same pages, at the
    same place, with the same identifier, so [GetNvrEncparam] returns
    the same. *)
Theorem re_id_trailing_space_inert (html : str) :
  Re.search true re_id html = Re.search true re_id_bare html.
Proof.
  unfold Re.search. apply search_from_same_state. intros s.
  unfold re_id, re_id_bare.
  change [Re.Open; Re.Plus true alnum; Re.Close; Re.One (Re.Lit quote);
          Re.Opt (Re.Lit 0x20%N)]
    with ([Re.Open; Re.Plus true alnum]
            ++ [Re.Close; Re.One (Re.Lit quote); Re.Opt (Re.Lit 0x20%N)]).
  change [Re.Open; Re.Plus true alnum; Re.Close; Re.One (Re.Lit quote)]
    with ([Re.Open; Re.Plus true alnum]
            ++ [Re.Close; Re.One (Re.Lit quote)]).
  rewrite !app_assoc.
  apply run_same_state. exact run_optional_space.
Qed.

(* ===================================================================== *)
(** ** The models on small inputs *)
(* ===================================================================== *)

(** The lazy group stops at the first quote after its first code point. *)
Example re_enc_stops_at_first_quote :
  option_map Re.group1 (Re.search true re_enc (py "encparam: 'a'b'"))
  = Some (Some (py "a")).
Proof. by_running. Qed.

(** The first code point of the group may itself be a quote. *)
Example re_enc_takes_a_leading_quote :
  option_map Re.group1 (Re.search true re_enc (py "encparam: ''x'"))
  = Some (Some (py "'x")).
Proof. by_running. Qed.

(** [.] does not cross a line feed: the search moves on to a later
    occurrence. *)
Example re_enc_skips_a_broken_occurrence :
  option_map Re.group1
             (Re.search true re_enc
                        (py "encparam: '" ++ [0x0A%N] ++ py "' encparam: 'ab'"))
  = Some (Some (py "ab")).
Proof. by_running. Qed.

(** The second pattern is not anchored at a word: it matches inside
    [grid: 'A1']. *)
Example re_id_matches_inside_a_word :
  Re.search true re_id (py "grid: 'A1' id: 'B2'")
  = Some {| Re.m_start := 2; Re.group1 := Some (py "A1") |}.
Proof. by_running. Qed.

(** An identifier with another character in it is no match; the search
    moves on. *)
Example re_id_needs_letters_and_digits :
  option_map Re.group1 (Re.search true re_id (py "id: 'ab_c' id: 'de'"))
  = Some (Some (py "de")).
Proof. by_running. Qed.

(** [strip] removes white space at both ends only. *)
Example strip_both_ends :
  PyStr.strip ([0x20; 0x09]%N ++ py "09 5660" ++ [0x0A; 0x3000]%N) = py "09 5660".
Proof. by_running. Qed.

(** The sample run: both views keyed, selected, prefixed and merged. *)
Example sample_run_writes :
  written first_run_trace
  = [{| columns := [py "Y_2022/12"; py "Y_2023/12"; py "Q_2023/09"; py "Q_2023/12"];
        index_name := Some key_column;
        rows := [(Text (py "매출액"), [Num 100; Num 120; Num 30; Num 31]);
                 (Text (py "영업이익"), [Num 10; Num 12; Num 3; Num 4]);
                 (Text (py "당기순이익"), [NaN; NaN; NaN; NaN]);
                 (Text (py "영업이익률"), [NaN; NaN; NaN; NaN]);
                 (Text (py "PER(배)"), [NaN; NaN; Num 7; Num 8]);
                 (Text (py "PBR(배)"), [NaN; NaN; NaN; NaN])] |}].
Proof. by_running. Qed.

(** A code with a slash in it, on a file system where [os.makedirs]
    creates [output] and nothing below it: [to_csv] raises, and the run
    ends with its exception after the fetches, the call of
    [os.makedirs] and the call of [to_csv]; nothing is printed. *)
Example nested_code_is_refused :
  exists merged,
    main (flat_directory_env [banner; annual_table])
         [py "financial_summary.py"; py "a/b"] []
    = (Raise no_such_directory,
       (fetch_events (py "a/b") (py "Y") (Some (py "tok1=="), Some (py "S1"))
                     sample_raw
        ++ fetch_events (py "a/b") (py "Q") (Some (py "tok1=="), Some (py "S1"))
                        (py "<table></table><table>Q</table>"))
       ++ [EvMakedirs (py "output");
           EvToCsv (py "output/a/b.csv") merged (py "utf-8-sig")]).
Proof. eexists. by_running. Qed.

(** Both names of the merge step bound to one frame: the frame is
    renamed twice, and [pd.concat] reads it twice under its last
    names. *)
Example merge_of_one_frame :
  option_map (fun r => match fst r with
                       | Ok m => columns m
                       | Raise _ => []
                       end)
             (merge_in_place sample_env 0 0 [projected_annual])
  = Some [py "Q_Y_2023"; py "Q_Y_2023"].
Proof. by_running. Qed.
